(** * ready-steady/ode: the integrators [dopri] and [rk4]

    A shallow embedding of package [dopri] (the adaptive Dormand-Prince 5(4)
    integrator: [Config], [Stats], [New], [Compute], [ComputeWithStats],
    [epsilon], [interpolate]) and the properties of its step loop, and of
    package [rk4] (the fixed-step Runge-Kutta integrator: [Config], [New],
    [Compute]).

    Numbers.  Go's [float64] is Rocq's primitive binary64 [float]; every
    operation is the IEEE one, rounded to nearest even, and comparisons with a
    NaN are false.  A Go constant such as [19372.0 / 6561] is an exact
    rational rounded once when it is used; the quotient of the two (exactly
    representable) integers in binary64 is that same rounding.  Expressions
    are evaluated operation by operation (no fused multiply-add).

    Library functions.  [math.Nextafter] is written out on [next_up] and
    [next_down].  [math.Pow] is a parameter [pow] of the development.

    Counters.  [uint] is 64 bits wide; the counters of [Stats] wrap around.

    Loops.  The two [for] loops of [ComputeWithStats] need not terminate; they
    are given a budget of iterations.

    Allocation.  In [dopri] the slices of [make] and [append] are taken to be
    there: the model follows a call on a machine that holds them and says
    nothing of one that does not.  In [rk4] the length of the output is
    computed from the grid, and the [make] of the output is modelled with its
    panic. *)

From Stdlib Require Import ZArith NArith List Bool Lia String.
From Stdlib Require Import Floats.
Import ListNotations.

Set Warnings "-inexact-float".

Local Open Scope float_scope.

(** ** Slices *)

Definition vec := list float.

(** [v.[i]]: an element of a slice (every index of the source is in range). *)
Definition idx (v : vec) (i : nat) : float := nth i v 0.

Notation "v .[ i ]" := (idx v i) (at level 1, left associativity, format "v .[ i ]").

(** [for i := 0; i < n; i++ { v[i] = g(i) }] on a slice of length [n]. *)
Definition tabulate (n : nat) (g : nat -> float) : vec := map g (seq 0 n).

(** [copy(ys[nc*nd:(nc+1)*nd], row)] for a [row] of [nd] entries. *)
Definition write_row (nd : nat) (ys : vec) (nc : nat) (row : vec) : vec :=
  firstn (nc * nd) ys ++ row ++ skipn ((nc + 1) * nd) ys.

(** ** Outcomes of a call *)

Inductive outcome (A : Type) : Type :=
| OutOfFuel            (* the loops are still running when the budget ends *)
| Panic                (* index out of range *)
| Return (a : A).

Arguments OutOfFuel {A}.
Arguments Panic {A}.
Arguments Return {A} a.

(** Go's [error]: [nil] is [None]. *)
Definition error := option string.

(** ** config.go *)

Record Config : Type := {
  TryStep : float;   (* The initial step of integration. *)
  MaxStep : float;   (* The maximal step of integration. *)
  AbsError : float;  (* The absolute error tolerance. *)
  RelError : float   (* The relative error tolerance. *)
}.

Definition DefaultConfig : Config :=
  {| TryStep := 0; MaxStep := 0; AbsError := 1e-6; RelError := 1e-3 |}.

Definition verify (c : Config) : error :=
  if TryStep c <? 0 then
    Some "the initial step should be nonnegative"%string
  else if MaxStep c <? 0 then
    Some "the maximal step should be nonnegative"%string
  else if AbsError c <=? 0 then
    Some "the absolute error tolerance should be positive"%string
  else if RelError c <=? 0 then
    Some "the relative error tolerance should be positive"%string
  else None.

(** ** stats.go *)

Definition uint_modulus : N := 2 ^ 64.

Definition uint_add (a b : N) : N := ((a + b) mod uint_modulus)%N.

Record Stats : Type := {
  Evaluations : N;  (* The number of invocations of the derivative function. *)
  Rejections : N;   (* The number of rejected iterations of the algorithm. *)
  Steps : N         (* The number of steps the algorithm has taken. *)
}.

Definition add_Evaluations (n : N) (s : Stats) : Stats :=
  {| Evaluations := uint_add (Evaluations s) n;
     Rejections := Rejections s;
     Steps := Steps s |}.

Definition incr_Rejections (s : Stats) : Stats :=
  {| Evaluations := Evaluations s;
     Rejections := uint_add (Rejections s) 1;
     Steps := Steps s |}.

Definition incr_Steps (s : Stats) : Stats :=
  {| Evaluations := Evaluations s;
     Rejections := Rejections s;
     Steps := uint_add (Steps s) 1 |}.

(** The same three updates on numbers, without the wrap-around: a [Stats]
    that holds how often each line has run. *)
Definition count_Evaluations (n : N) (c : Stats) : Stats :=
  {| Evaluations := Evaluations c + n;
     Rejections := Rejections c;
     Steps := Steps c |}.

Definition count_Rejection (c : Stats) : Stats :=
  {| Evaluations := Evaluations c;
     Rejections := Rejections c + 1;
     Steps := Steps c |}.

Definition count_Step (c : Stats) : Stats :=
  {| Evaluations := Evaluations c;
     Rejections := Rejections c;
     Steps := Steps c + 1 |}.

(** ** main.go *)

Record Integrator : Type := { config : Config }.

(** [New] returns [(nil, err)] or [(&Integrator{...}, nil)]. *)
Definition New (c : Config) : option Integrator * error :=
  match verify c with
  | Some err => (None, Some err)
  | None => (Some {| config := c |}, None)
  end.

(** [math.Nextafter(x, y)]: the next representable value after [x] towards [y]. *)
Definition Nextafter (x y : float) : float :=
  if is_nan x || is_nan y then nan
  else if x =? y then x
  else if x <? y then next_up x
  else next_down x.

Definition epsilon (x : float) : float :=
  let x := if x <? 0 then - x else x in
  Nextafter x (x + 1) - x.

(** The coefficients of the method. *)
Definition c2 := 1 / 5.
Definition c3 := 3 / 10.
Definition c4 := 4 / 5.
Definition c5 := 8 / 9.

Definition a21 := 1 / 5.
Definition a31 := 3 / 40.
Definition a32 := 9 / 40.
Definition a41 := 44 / 45.
Definition a42 := - (56 / 15).
Definition a43 := 32 / 9.
Definition a51 := 19372 / 6561.
Definition a52 := - (25360 / 2187).
Definition a53 := 64448 / 6561.
Definition a54 := - (212 / 729).
Definition a61 := 9017 / 3168.
Definition a62 := - (355 / 33).
Definition a63 := 46732 / 5247.
Definition a64 := 49 / 176.
Definition a65 := - (5103 / 18656).
Definition a71 := 35 / 384.
Definition a73 := 500 / 1113.
Definition a74 := 125 / 192.
Definition a75 := - (2187 / 6784).
Definition a76 := 11 / 84.

Definition e1 := 71 / 57600.
Definition e3 := - (71 / 16695).
Definition e4 := 71 / 1920.
Definition e5 := - (17253 / 339200).
Definition e6 := 22 / 525.
Definition e7 := - (1 / 40).

Definition power := 1 / 5.

(** The coefficients of [interpolate]. *)
Definition c11 := 1.
Definition c12 := - (183 / 64).
Definition c13 := 37 / 12.
Definition c14 := - (145 / 128).
Definition c32 := 1500 / 371.
Definition c33 := - (1000 / 159).
Definition c34 := 1000 / 371.
Definition c42 := - (125 / 32).
Definition c43 := 125 / 12.
Definition c44 := - (375 / 64).
Definition c52 := 9477 / 3392.
Definition c53 := - (729 / 106).
Definition c54 := 25515 / 6784.
Definition c62 := - (11 / 7).
Definition c63 := 11 / 3.
Definition c64 := - (55 / 28).
Definition c72 := 3 / 2.
Definition c73 := - 4.
Definition c74 := 5 / 2.

(** The seven stage buffers [f1 .. f7] of the array [f] ([f2] is not read
    after the step). *)
Record stages : Type := {
  s_f1 : vec; s_f3 : vec; s_f4 : vec; s_f5 : vec; s_f6 : vec; s_f7 : vec
}.

Definition interpolate (x : float) (y : vec) (f : stages) (h xnext : float) : vec :=
  let nd := List.length y in
  let s1 := (xnext - x) / h in
  let s2 := s1 * s1 in
  let s3 := s1 * s2 in
  let s4 := s1 * s3 in
  tabulate nd (fun i =>
    let f1 := (s_f1 f).[i] in
    let f3 := (s_f3 f).[i] in
    let f4 := (s_f4 f).[i] in
    let f5 := (s_f5 f).[i] in
    let f6 := (s_f6 f).[i] in
    let f7 := (s_f7 f).[i] in
    y.[i] +
      h * s1 * (c11 * f1) +
      h * s2 * (c12 * f1 + c32 * f3 + c42 * f4 + c52 * f5 + c62 * f6 + c72 * f7) +
      h * s3 * (c13 * f1 + c33 * f3 + c43 * f4 + c53 * f5 + c63 * f6 + c73 * f7) +
      h * s4 * (c14 * f1 + c34 * f3 + c44 * f4 + c54 * f5 + c64 * f6 + c74 * f7)).

(** What [ComputeWithStats] returns: [(ys, xs, stats, err)], each of the
    slices and the pointer possibly [nil]. *)
Record returned : Type := {
  ret_ys : option vec;
  ret_xs : option vec;
  ret_stats : option Stats;
  ret_err : error
}.

Definition underflow_error : string := "encountered a step-size underflow".

(** One pass of the inner loop up to the error estimate: the six stage
    evaluations, [ynew], [xnew], the seventh derivative and the error. *)
Record trial : Type := {
  t_f : stages;      (* f1, f3 .. f7 as the pass leaves them *)
  t_ynew : vec;
  t_xnew : float;
  t_eps : float
}.

(** How one pass of the inner loop ends. *)
Inductive pass_result : Type :=
| PassBreak (t : trial) (stats : Stats)        (* [break]: the step is accepted *)
| PassUnderflow (stats : Stats)                (* [return nil, nil, stats, err] *)
| PassRetry (h : float) (stats : Stats).       (* the loop goes round again *)

(** How the inner loop ends. *)
Inductive attempt_result : Type :=
| Accepted (h : float) (done rejected : bool) (t : trial) (stats : Stats)
| Underflow (stats : Stats).

(** The variables of [ComputeWithStats] that live across the iterations of
    the outer loop. *)
Record loop_state : Type := {
  st_x : float;
  st_h : float;
  st_y : vec;
  st_f1 : vec;
  st_ys : vec;
  st_xs : vec;
  st_nc : nat;
  st_stats : Stats
}.

(** How one iteration of the outer loop ends. *)
Inductive step_result : Type :=
| StepStuck                      (* the inner loop outlives its budget *)
| StepReturn (r : returned)
| StepNext (st : loop_state).

Section Dopri.

(** [math.Pow]. *)
Variable pow : float -> float -> float.

(** The derivative function [dydx(x, y, f)] fills [f] with f(x, y) and
  leaves [y] alone; [dydx x y] is the buffer it fills. *)
Variable dydx : float -> vec -> vec.

Section Run.

(** The values [ComputeWithStats] fixes before the loop. *)
Variables (nd nx : nat) (xs : vec) (fixed : bool).
Variables (relerr threshold hmax xend : float).

(** Lines 237-266: the relative error of component [i]. *)
Definition component_error (h : float) (y ynew : vec) (f : stages) (i : nat) : float :=
  let scale := y.[i] in
  let scale := if scale <? 0 then - scale else scale in
  let scale :=
    if 0 <? ynew.[i] then
      (if scale <? ynew.[i] then ynew.[i] else scale)
    else
      (if scale <? - ynew.[i] then - ynew.[i] else scale) in
  let scale := if scale <? threshold then threshold else scale in
  let e := e1 * (s_f1 f).[i] + e3 * (s_f3 f).[i] + e4 * (s_f4 f).[i]
           + e5 * (s_f5 f).[i] + e6 * (s_f6 f).[i] + e7 * (s_f7 f).[i] in
  let e := if e <? 0 then - e else e in
  h * e / scale.

Definition error_estimate (h : float) (y ynew : vec) (f : stages) : float :=
  fold_left
    (fun eps i => let e := component_error h y ynew f i in
                  if eps <? e then e else eps)
    (seq 0 nd) 0.

(** Lines 195-266. *)
Definition attempt (x h : float) (y f1 : vec) : trial :=
  (* Step 1 *)
  let z := tabulate nd (fun i => y.[i] + h * a21 * f1.[i]) in
  (* Step 2 *)
  let f2 := dydx (x + c2 * h) z in
  let z := tabulate nd (fun i => y.[i] + h * (a31 * f1.[i] + a32 * f2.[i])) in
  (* Step 3 *)
  let f3 := dydx (x + c3 * h) z in
  let z := tabulate nd (fun i =>
             y.[i] + h * (a41 * f1.[i] + a42 * f2.[i] + a43 * f3.[i])) in
  (* Step 4 *)
  let f4 := dydx (x + c4 * h) z in
  let z := tabulate nd (fun i =>
             y.[i] + h * (a51 * f1.[i] + a52 * f2.[i] + a53 * f3.[i] + a54 * f4.[i])) in
  (* Step 5 *)
  let f5 := dydx (x + c5 * h) z in
  let z := tabulate nd (fun i =>
             y.[i] + h * (a61 * f1.[i] + a62 * f2.[i] + a63 * f3.[i] + a64 * f4.[i]
                          + a65 * f5.[i])) in
  (* Step 6 *)
  let f6 := dydx (x + h) z in
  let ynew := tabulate nd (fun i =>
                y.[i] + h * (a71 * f1.[i] + a73 * f3.[i] + a74 * f4.[i] + a75 * f5.[i]
                             + a76 * f6.[i])) in
  let xnew := x + h in
  (* Step 1 *)
  let f7 := dydx xnew ynew in
  let f := {| s_f1 := f1; s_f3 := f3; s_f4 := f4; s_f5 := f5; s_f6 := f6; s_f7 := f7 |} in
  {| t_f := f; t_ynew := ynew; t_xnew := xnew;
     t_eps := error_estimate h y ynew f |}.

(** Lines 278-289: the step size after a rejection. *)
Definition shrink (rejected : bool) (eps hmin h : float) : float :=
  let h :=
    if rejected then 0.5 * h
    else
      let scale := 0.8 * pow (relerr / eps) power in
      if 0.1 <? scale then scale * h else 0.1 * h in
  if h <? hmin then hmin else h.

(** Lines 195-292: one pass of the inner loop. *)
Definition pass (x hmin : float) (y f1 : vec) (h : float) (rejected : bool)
           (stats : Stats) : pass_result :=
  let t := attempt x h y f1 in
  let stats := add_Evaluations 6 stats in
  if t_eps t <=? relerr then PassBreak t stats
  else
    let stats := incr_Rejections stats in
    if h <=? hmin then PassUnderflow stats
    else
      (* Shrink the step size as the current one has been rejected. *)
      PassRetry (shrink rejected (t_eps t) hmin h) stats.

(** Lines 194-293: the inner loop, at most [fuel] passes. *)
Fixpoint attempts (fuel : nat) (x hmin : float) (y f1 : vec)
         (h : float) (done rejected : bool) (stats : Stats) : option attempt_result :=
  match fuel with
  | O => None
  | S fuel' =>
      match pass x hmin y f1 h rejected stats with
      | PassBreak t stats => Some (Accepted h done rejected t stats)
      | PassUnderflow stats => Some (Underflow stats)
      | PassRetry h stats => attempts fuel' x hmin y f1 h false true stats
      end
  end.

(** Lines 296-308: the rows of the fixed grid the step reaches; [k] bounds
    the rows left ([nx - nc]). *)
Fixpoint emit_fixed (k : nat) (x h : float) (y : vec) (t : trial)
         (ys : vec) (nc : nat) : vec * nat :=
  match k with
  | O => (ys, nc)
  | S k' =>
      if t_xnew t - xs.[nc] <? 0 then (ys, nc)
      else
        let row :=
          if xs.[nc] =? t_xnew t then t_ynew t
          else interpolate x y (t_f t) h xs.[nc] in
        emit_fixed k' x h y t (write_row nd ys nc row) (S nc)
  end.

(** Lines 295-313. *)
Definition emit (x h : float) (y : vec) (t : trial) (ys xs_out : vec) (nc : nat)
  : vec * vec * nat :=
  if fixed then
    let '(ys, nc) := emit_fixed (nx - nc) x h y t ys nc in (ys, xs_out, nc)
  else (ys ++ t_ynew t, xs_out ++ [t_xnew t], S nc).

(** Lines 327-332: a new step size after a step accepted at once. *)
Definition grow (eps h : float) : float :=
  let scale := 1.25 * pow (eps / relerr) power in
  if 0.2 <? scale then h / scale else 5 * h.

(** Lines 177-190: the head of an iteration of the outer loop. *)
Definition clamp (x h : float) : float * float * bool :=
  let hmin := 16 * epsilon x in
  let h := if h <? hmin then hmin else h in
  let h := if hmax <? h then hmax else h in
  (* Close to the end? *)
  if xend - x <=? 1.1 * h then (hmin, xend - x, true) else (hmin, h, false).

(** Lines 173-332: one iteration of the outer loop, its inner loop run
    for at most [tries] passes. *)
Definition step (tries : nat) (st : loop_state) : step_result :=
  let stats := incr_Steps (st_stats st) in
  let x := st_x st in
  let y := st_y st in
  let '(hmin, h, done) := clamp x (st_h st) in
  match attempts tries x hmin y (st_f1 st) h done false stats with
  | None => StepStuck
  | Some (Underflow stats) =>
      StepReturn {| ret_ys := None; ret_xs := None; ret_stats := Some stats;
                    ret_err := Some underflow_error |}
  | Some (Accepted h done rejected t stats) =>
      let '(ys, xs_out, nc) := emit x h y t (st_ys st) (st_xs st) (st_nc st) in
      if done then
        StepReturn {| ret_ys := Some ys; ret_xs := Some xs_out;
                      ret_stats := Some stats; ret_err := None |}
      else
        (* Compute a new step size. *)
        let h := if rejected then h else grow (t_eps t) h in
        StepNext {| st_x := t_xnew t; st_h := h; st_y := t_ynew t;
                    st_f1 := s_f7 (t_f t); st_ys := ys; st_xs := xs_out;
                    st_nc := nc; st_stats := stats |}
  end.

(** Lines 172-333: the outer loop, at most [fuel] iterations. *)
Fixpoint steps (tries fuel : nat) (st : loop_state) : outcome returned :=
  match fuel with
  | O => OutOfFuel
  | S fuel' =>
      match step tries st with
      | StepStuck => OutOfFuel
      | StepReturn r => Return r
      | StepNext st => steps tries fuel' st
      end
  end.

(** The counts of a run: how often the inner loop has run
    [stats.Evaluations += 6] (line 235) and [stats.Rejections++] (line 272),
    added to the counts [c].  The loop goes the way of [attempts]; how a
    pass ends does not depend on the statistics. *)
Fixpoint attempts_tally (fuel : nat) (x hmin : float) (y f1 : vec)
         (h : float) (rejected : bool) (c : Stats) : Stats :=
  match fuel with
  | O => c
  | S fuel' =>
      let c := count_Evaluations 6 c in
      match pass x hmin y f1 h rejected c with
      | PassBreak _ _ => c
      | PassUnderflow _ => count_Rejection c
      | PassRetry h _ => attempts_tally fuel' x hmin y f1 h true (count_Rejection c)
      end
  end.

(** How often the outer loop has run [stats.Steps++] (line 175), and the
    counts of its inner loops.  The loop goes the way of [steps]. *)
Fixpoint steps_tally (tries fuel : nat) (st : loop_state) (c : Stats) : Stats :=
  match fuel with
  | O => c
  | S fuel' =>
      let c := count_Step c in
      let '(hmin, h, _) := clamp (st_x st) (st_h st) in
      let c := attempts_tally tries (st_x st) hmin (st_y st) (st_f1 st) h false c in
      match step tries st with
      | StepNext st => steps_tally tries fuel' st c
      | StepStuck | StepReturn _ => c
      end
  end.

End Run.

(** Lines 120-153: the initial step size when [TryStep] is zero. *)
Definition initial_scale (nd : nat) (threshold : float) (y f1 : vec) : float :=
  fold_left
    (fun scale i =>
       let s := y.[i] in
       let s := if s <? 0 then - s else s in
       let s := if s <? threshold then threshold else s in
       let s := f1.[i] / s in
       let s := if s <? 0 then - s else s in
       if scale <? s then s else scale)
    (seq 0 nd) 0.

Definition initial_step (nd : nat) (relerr threshold hmax x x1 : float) (y f1 : vec) : float :=
  let h := x1 - x in
  let h := if hmax <? h then hmax else h in
  let scale := initial_scale nd threshold y f1 in
  let scale := scale / (0.8 * pow relerr power) in
  if 1 <? h * scale then 1 / scale else h.

(** [ComputeWithStats] with a budget: at most [fuel] steps of at most [fuel]
    passes each. *)
Definition ComputeWithStats (fuel : nat) (self : Integrator) (y0 xs : vec)
  : outcome returned :=
  let stats := {| Evaluations := 0; Rejections := 0; Steps := 0 |} in
  let nd := List.length y0 in
  let nx := List.length xs in
  match xs with
  | [] => Panic
  | x :: _ =>
      let xend := xs.[nx - 1] in
      (* Should the solution be returned at fixed points? *)
      let fixed := (2 <? nx)%nat in
      (* Prepare the first iteration. *)
      let y := y0 in
      let f1 := dydx x y in
      let stats := add_Evaluations 1 stats in
      let abserr := AbsError (config self) in
      let relerr := RelError (config self) in
      let threshold := abserr / relerr in
      (* Compute the limits on the step size. *)
      let hmax := MaxStep (config self) in
      let hmax := if hmax =? 0 then 0.1 * (xend - x) else hmax in
      (* Choose the initial step size. *)
      let h := TryStep (config self) in
      if (h =? 0) && (nx <? 2)%nat then Panic
      else
        let h := if h =? 0
                 then initial_step nd relerr threshold hmax x xs.[1] y f1
                 else h in
        (* Done with the first point. *)
        let ys := if fixed then write_row nd (repeat 0 (nx * nd)) 0 y0 else y0 in
        let xs_out := if fixed then xs else [x] in
        steps nd nx xs fixed relerr threshold hmax xend fuel fuel
              {| st_x := x; st_h := h; st_y := y; st_f1 := f1; st_ys := ys;
                 st_xs := xs_out; st_nc := 1; st_stats := stats |}
  end.

(** [Compute] drops the statistics. *)
Definition Compute (fuel : nat) (self : Integrator) (y0 xs : vec)
  : outcome (option vec * option vec * error) :=
  match ComputeWithStats fuel self y0 xs with
  | OutOfFuel => OutOfFuel
  | Panic => Panic
  | Return r => Return (ret_ys r, ret_xs r, ret_err r)
  end.

(** The counts of a call of [ComputeWithStats] with the same budget: the
    evaluation of line 107 and the counts of the loop, as numbers. *)
Definition ComputeWithStats_tally (fuel : nat) (self : Integrator) (y0 xs : vec) : Stats :=
  let c := {| Evaluations := 0; Rejections := 0; Steps := 0 |} in
  let stats := {| Evaluations := 0; Rejections := 0; Steps := 0 |} in
  let nd := List.length y0 in
  let nx := List.length xs in
  match xs with
  | [] => c
  | x :: _ =>
      let xend := xs.[nx - 1] in
      let fixed := (2 <? nx)%nat in
      let y := y0 in
      let f1 := dydx x y in
      let c := count_Evaluations 1 c in
      let stats := add_Evaluations 1 stats in
      let abserr := AbsError (config self) in
      let relerr := RelError (config self) in
      let threshold := abserr / relerr in
      let hmax := MaxStep (config self) in
      let hmax := if hmax =? 0 then 0.1 * (xend - x) else hmax in
      let h := TryStep (config self) in
      if (h =? 0) && (nx <? 2)%nat then c
      else
        let h := if h =? 0
                 then initial_step nd relerr threshold hmax x xs.[1] y f1
                 else h in
        let ys := if fixed then write_row nd (repeat 0 (nx * nd)) 0 y0 else y0 in
        let xs_out := if fixed then xs else [x] in
        steps_tally nd nx xs fixed relerr threshold hmax xend fuel fuel
              {| st_x := x; st_h := h; st_y := y; st_f1 := f1; st_ys := ys;
                 st_xs := xs_out; st_nc := 1; st_stats := stats |}
              c
  end.

End Dopri.

(** * Package rk4: main.go and config.go

    The fixed-step integrator.  Its loop runs [ns - 1] times and needs no
    budget.  [int] is 64 bits wide and its arithmetic wraps around; the
    conversion [int(v)] discards the fraction, and for a [v] it cannot
    represent the language leaves its value to the implementation:
    [int_of_unrepresentable] stands for that value.  [make] panics on a
    negative length and on one beyond what the implementation can allocate,
    [max_len]. *)

Module rk4.

Record Config : Type := {
  Step : float   (* The step of integration. *)
}.

Definition verify (c : Config) : error :=
  if Step c <? 0 then Some "the initial step should be nonnegative"%string
  else None.

Record Integrator : Type := { config : Config }.

Definition New (c : Config) : option Integrator * error :=
  match verify c with
  | Some err => (None, Some err)
  | None => (Some {| config := c |}, None)
  end.

Definition int_min : Z := - 2 ^ 63.
Definition int_max : Z := 2 ^ 63 - 1.
Definition wrap_int (z : Z) : Z := (z - int_min) mod 2 ^ 64 + int_min.

(** The integer part of a finite number: the fraction is discarded. *)
Definition truncate (v : float) : option Z :=
  match Prim2SF v with
  | S754_zero _ => Some 0%Z
  | S754_finite s m e =>
      let a := Z.shiftl (Zpos m) e in Some (if s then (- a)%Z else a)
  | S754_infinity _ | S754_nan => None
  end.

(** [copy(dst, src)]: as many elements as both hold. *)
Definition copy (dst src : vec) : vec :=
  firstn (List.length dst) src ++ skipn (List.length src) dst.

Section Integration.

Variable int_of_unrepresentable : float -> Z.
Variable max_len : Z.
Variable dydx : float -> vec -> vec.

Definition int_of_float (v : float) : Z :=
  match truncate v with
  | Some z =>
      if ((int_min <=? z) && (z <=? int_max))%Z then z
      else wrap_int (int_of_unrepresentable v)
  | None => wrap_int (int_of_unrepresentable v)
  end.

(** Line 43: the number of rows, [int((xend-x0)/h+0.5) + 1]. *)
Definition rows (h x0 xend : float) : Z :=
  wrap_int (int_of_float ((xend - x0) / h + 0.5) + 1).

(** Lines 50-74: the row an iteration computes from [x] and the slice [y]. *)
Definition advance (nd : nat) (h x : float) (y : vec) : vec :=
  (* Step 1 *)
  let f1 := dydx x y in
  (* Step 2 *)
  let z := tabulate nd (fun i => y.[i] + h * f1.[i] / 2) in
  let f2 := dydx (x + h / 2) z in
  (* Step 3 *)
  let z := tabulate nd (fun i => y.[i] + h * f2.[i] / 2) in
  let f3 := dydx (x + h / 2) z in
  (* Step 4 *)
  let z := tabulate nd (fun i => y.[i] + h * f3.[i]) in
  let f4 := dydx (x + h) z in
  tabulate nd (fun i => y.[i] + h * (f1.[i] + 2 * f2.[i] + 2 * f3.[i] + f4.[i]) / 6).

(** Lines 49-78: [n] iterations of the loop, from [k].  [y] is the slice the
    derivative is evaluated on: [y0] in the first iteration and
    [ys[k*nd:]] of the iteration before, which runs to the end of [ys], from
    then on.  Writing [ynew[i]] panics when the row [k] does not lie within
    [ys]. *)
Fixpoint iterate (nd : nat) (h : float) (n k : nat) (x : float) (y ys : vec)
  : outcome vec :=
  match n with
  | O => Return ys
  | S n' =>
      let row := advance nd h x y in
      if (k * nd + nd <=? List.length ys)%nat then
        let ys := write_row nd ys k row in
        iterate nd h n' (S k) (x + h) (skipn (k * nd) ys) ys
      else Panic
  end.

Definition Compute (self : Integrator) (y0 xs : vec)
  : outcome (vec * vec * error) :=
  let nd := List.length y0 in
  let nx := List.length xs in
  match xs with
  | [] => Panic
  | x0 :: _ =>
      let xend := xs.[nx - 1] in
      let h := Step (config self) in
      let ns := rows h x0 xend in
      let len := wrap_int (ns * Z.of_nat nd) in
      if ((len <? 0) || (max_len <? len))%Z then Panic
      else
        (* Done with the first point. *)
        let ys := copy (repeat 0 (Z.to_nat len)) y0 in
        match iterate nd h (Z.to_nat (ns - 1)) 1 x0 y0 ys with
        | Return ys => Return (ys, xs, None)
        | Panic => Panic
        | OutOfFuel => OutOfFuel
        end
  end.

End Integration.

End rk4.

(** * The quantities of the specification *)

(** The absolute value by cases: [- x] when [x < 0], [x] otherwise. *)
Definition fabs (x : float) : float := if x <? 0 then - x else x.

(** The larger of two numbers: [b] when it is greater than [a], [a] otherwise. *)
Definition fmax (a b : float) : float := if a <? b then b else a.

(** The smaller of two numbers: [b] when it is less than [a], [a] otherwise. *)
Definition fmin (a b : float) : float := if b <? a then b else a.

(** The infinity norm of a vector of errors: its largest entry, 0 for none. *)
Definition norm_inf (l : vec) : float := fold_left fmax l 0.

(** Section 4.3: the error combination of the embedded pair for component [i]. *)
Definition embedded_error (f : stages) (i : nat) : float :=
  e1 * (s_f1 f).[i] + e3 * (s_f3 f).[i] + e4 * (s_f4 f).[i]
  + e5 * (s_f5 f).[i] + e6 * (s_f6 f).[i] + e7 * (s_f7 f).[i].

(** Section 4.3: [max(|y[i]|, |ynew[i]|, AbsError/RelError)]. *)
Definition local_scale (threshold : float) (y ynew : vec) (i : nat) : float :=
  fmax (fmax (fabs y.[i]) (fabs ynew.[i])) threshold.

(** Section 4.3: the error estimate, the largest over the components of
    [h * |e| / scale]. *)
Definition error_norm (nd : nat) (threshold h : float) (y ynew : vec) (f : stages) : float :=
  norm_inf
    (map (fun i => h * fabs (embedded_error f i) / local_scale threshold y ynew i)
         (seq 0 nd)).

(** Section 4.1, step 3: [hmax]. *)
Definition hmax_of (c : Config) (x xend : float) : float :=
  if MaxStep c =? 0 then 0.1 * (xend - x) else MaxStep c.

(** Section 4.1, step 4: the scale of the first derivative, the largest over
    the components of [|f1[i]| / max(|y[i]|, threshold)]. *)
Definition derivative_scale (nd : nat) (threshold : float) (y f1 : vec) : float :=
  norm_inf (map (fun i => abs f1.[i] / fmax (abs y.[i]) threshold) (seq 0 nd)).

(** Section 4.1, step 4: the initial trial step when none is configured. *)
Definition derived_step (pow : float -> float -> float) (nd : nat)
           (relerr threshold hmax x x1 : float) (y f1 : vec) : float :=
  let h := fmin (x1 - x) hmax in
  let scale' := derivative_scale nd threshold y f1 / (0.8 * pow relerr power) in
  if 1 <? h * scale' then 1 / scale' else h.

(** * Inputs of the examples *)

(** [math.Pow] where its documentation fixes the result: [Pow(+-0, y) = +0]
    for a finite [y > 0] that is no odd integer, and [Pow(1, y) = 1]; [d]
    stands for its value anywhere else.  The package calls [Pow] with
    [y = power] only. *)
Definition pow_special (d : float) (x y : float) : float :=
  if x =? 0 then 0 else if x =? 1 then 1 else d.

(** dy/dx = y. *)
Definition exponential (x : float) (y : vec) : vec := y.

(** dy/dx = 1. *)
Definition unit_slope (x : float) (y : vec) : vec := [1].

(** dy/dx = 0 before x = 0.5 and 1e100 * y from there on. *)
Definition late_growth (x : float) (y : vec) : vec :=
  if x <? 0.5 then [0] else [1e100 * y.[0]].

(** dy/dx = 1e50 * y. *)
Definition fast_growth (x : float) (y : vec) : vec := [1e50 * y.[0]].

(** [math.MaxFloat64]. *)
Definition max_float : float := 0x1.fffffffffffffp+1023.

Definition unit_step_config : Config :=
  {| TryStep := 1; MaxStep := 1; AbsError := 1e-6; RelError := 1e-3 |}.

Definition half_step_config : Config :=
  {| TryStep := 0.5; MaxStep := 1; AbsError := 1e-6; RelError := 1e-3 |}.

Definition default_limit_config : Config :=
  {| TryStep := 1; MaxStep := 0; AbsError := 1e-6; RelError := 1e-3 |}.

Definition loose_config : Config :=
  {| TryStep := 1; MaxStep := 1; AbsError := 1; RelError := max_float |}.

Definition nan_step_config : Config :=
  {| TryStep := nan; MaxStep := 0; AbsError := 1e-6; RelError := 1e-3 |}.

(** The state [ComputeWithStats] enters its loop with for [late_growth],
    [y0 = [1]], [xs = [0, 1]] and [unit_step_config]. *)
Definition late_growth_start : loop_state :=
  {| st_x := 0; st_h := 1; st_y := [1]; st_f1 := [0]; st_ys := [1]; st_xs := [0];
     st_nc := 1; st_stats := {| Evaluations := 1; Rejections := 0; Steps := 0 |} |}.

(** The state its second iteration starts from. *)
Definition late_growth_next : loop_state :=
  {| st_x := 0.1; st_h := 0.1; st_y := [1]; st_f1 := [0]; st_ys := [1; 1];
     st_xs := [0; 0.1]; st_nc := 2;
     st_stats := {| Evaluations := 13; Rejections := 1; Steps := 1 |} |}.

(** What [ComputeWithStats] returns for dy/dx = y, [y0 = [1]], the grid
    [5e15, 5e15 + 160] and [default_limit_config]. *)
Definition underflow_return : returned :=
  {| ret_ys := None; ret_xs := None;
     ret_stats := Some {| Evaluations := 7; Rejections := 1; Steps := 1 |};
     ret_err := Some underflow_error |}.

(** What it returns for dy/dx = 1, [y0 = [1]], the grid [0, 0.25, 1] and
    [half_step_config]. *)
Definition unit_slope_return : returned :=
  {| ret_ys := Some [1; 1.25; 2]; ret_xs := Some [0; 0.25; 1];
     ret_stats := Some {| Evaluations := 13; Rejections := 0; Steps := 2 |};
     ret_err := None |}.

(** A derivative that is not a number. *)
Definition undefined_slope (x : float) (y : vec) : vec := [nan].

(** The derivative of a system with no component. *)
Definition no_slope (x : float) (y : vec) : vec := [].

(** What [ComputeWithStats] returns for [no_slope], [y0 = []], the grid
    [0, 1] and [unit_step_config]. *)
Definition no_slope_return : returned :=
  {| ret_ys := Some []; ret_xs := Some [0; 1];
     ret_stats := Some {| Evaluations := 7; Rejections := 0; Steps := 1 |};
     ret_err := None |}.

(** [int(v)] on amd64 for a [v] out of range: the least [int]. *)
Definition amd64_int (v : float) : Z := rk4.int_min.

Definition quarter_step : rk4.Integrator :=
  {| rk4.config := {| rk4.Step := 0.25 |} |}.

Definition zero_step : rk4.Config := {| rk4.Step := 0 |}.

(** What [ComputeWithStats] returns for dy/dx = 1, [y0 = [1]] and
    [half_step_config] on the grid [-1, -0.5, 1e-20]: the last step, from
    -0.5, has the size [1e-20 + 0.5 = 0.5] and ends at 0. *)
Definition short_of_end_return : returned :=
  {| ret_ys := Some [1; 1.5; 0]; ret_xs := Some [-1; -0.5; 1e-20];
     ret_stats := Some {| Evaluations := 13; Rejections := 0; Steps := 2 |};
     ret_err := None |}.

(** The same on the grid [-1, 1e-20]. *)
Definition short_of_end_adaptive_return : returned :=
  {| ret_ys := Some [1; 1.5; 2]; ret_xs := Some [-1; -0.5; 0];
     ret_stats := Some {| Evaluations := 13; Rejections := 0; Steps := 2 |};
     ret_err := None |}.

(** What [ComputeWithStats] returns for dy/dx = 1, [y0 = [1]] and
    [half_step_config] on the grid [0, 1]. *)
Definition unit_slope_adaptive_return : returned :=
  {| ret_ys := Some [1; 1.5; 2]; ret_xs := Some [0; 0.5; 1];
     ret_stats := Some {| Evaluations := 13; Rejections := 0; Steps := 2 |};
     ret_err := None |}.

(** ** Section 6: the bounds on a configuration *)

Definition config_valid (c : Config) : Prop :=
  (0 <=? TryStep c) = true /\ (0 <=? MaxStep c) = true
  /\ (0 <? AbsError c) = true /\ (0 <? RelError c) = true.

Definition config_of_numbers (c : Config) : Prop :=
  is_nan (TryStep c) = false /\ is_nan (MaxStep c) = false
  /\ is_nan (AbsError c) = false /\ is_nan (RelError c) = false.

(** ** Notions used in the proofs *)

(** The sign bit of a number is clear (a NaN has none). *)
Definition sign_clear (x : spec_float) : Prop :=
  match x with
  | S754_zero s | S754_infinity s | S754_finite s _ _ => s = false
  | S754_nan => True
  end.

Definition is_zero (x : float) : Prop := exists s, Prim2SF x = S754_zero s.

(** Equal, or zeros of possibly different signs. *)
Definition same_or_zeros (a b : float) : Prop := a = b \/ (is_zero a /\ is_zero b).

(** The counters of [s] are the counts [S], [R] and [E] of steps, rejections
    and evaluations, reduced modulo 2^64. *)
Definition counts (s : Stats) (S R E : N) : Prop :=
  Steps s = (S mod uint_modulus)%N
  /\ Rejections s = (R mod uint_modulus)%N
  /\ Evaluations s = (E mod uint_modulus)%N.

(** The counters [s] are the counts [c], reduced modulo 2^64. *)
Definition counted (s c : Stats) : Prop :=
  counts s (Steps c) (Rejections c) (Evaluations c).

(** What a call returns: the solution, the grid and the statistics and no
    error, or the statistics and the underflow error alone. *)
Definition well_formed_return (r : returned) : Prop :=
  (exists ys xs_out s,
      r = {| ret_ys := Some ys; ret_xs := Some xs_out; ret_stats := Some s; ret_err := None |})
  \/ (exists s,
        r = {| ret_ys := None; ret_xs := None; ret_stats := Some s;
               ret_err := Some underflow_error |}).

(** The row an accepted step writes for the grid point [j]. *)
Definition grid_row (xs : vec) (x h : float) (y : vec) (t : trial) (j : nat) : vec :=
  if xs.[j] =? t_xnew t then t_ynew t else interpolate x y (t_f t) h xs.[j].

(** In fixed-output mode [ys] keeps its [nx * nd] entries, [nc] stays within
    the grid, [y] keeps its [nd] entries and [xs] is the grid. *)
Definition fixed_invariant (nd nx : nat) (xs : vec) (st : loop_state) : Prop :=
  List.length (st_ys st) = (nx * nd)%nat
  /\ (st_nc st <= nx)%nat
  /\ List.length (st_y st) = nd
  /\ st_xs st = xs.

Definition fixed_return (nd nx : nat) (xs : vec) (ret : returned) : Prop :=
  ret_err ret = None ->
  exists ys, ret_ys ret = Some ys /\ List.length ys = (nx * nd)%nat /\ ret_xs ret = Some xs.

(** Two calls run alike: both outlive the budget, both panic, or both return,
    with the same statistics and the same error. *)
Definition same_path (a b : outcome returned) : Prop :=
  match a, b with
  | OutOfFuel, OutOfFuel => True
  | Panic, Panic => True
  | Return r, Return r' => ret_stats r = ret_stats r' /\ ret_err r = ret_err r'
  | _, _ => False
  end.

(** Two states of the outer loop that differ in the output only. *)
Definition same_course (st st' : loop_state) : Prop :=
  st_x st = st_x st' /\ st_h st = st_h st' /\ st_y st = st_y st'
  /\ st_f1 st = st_f1 st' /\ st_stats st = st_stats st'.

(** In adaptive mode [xs] holds the points reached, the last of them the
    current [x], [ys] a row of [nd] for each, and [Steps] counts the points
    after the first. *)
Definition adaptive_invariant (nd : nat) (x0 : float) (st : loop_state) : Prop :=
  exists l,
    st_xs st = l ++ [st_x st]
    /\ (l ++ [st_x st]).[0] = x0
    /\ List.length (st_ys st) = (List.length (st_xs st) * nd)%nat
    /\ List.length (st_y st) = nd
    /\ Steps (st_stats st) = (N.of_nat (List.length l) mod uint_modulus)%N.

Definition adaptive_return (nd : nat) (x0 xend : float) (ret : returned) : Prop :=
  ret_err ret = None ->
  exists ys l x s,
    ret_ys ret = Some ys
    /\ ret_xs ret = Some (l ++ [x; x + (xend - x)])
    /\ ret_stats ret = Some s
    /\ (l ++ [x]).[0] = x0
    /\ List.length ys = Nat.mul (List.length (l ++ [x; x + (xend - x)])) nd
    /\ Steps s = (N.of_nat (List.length l + 1) mod uint_modulus)%N.

(** The first row of [ys] is [y0]. *)
Definition first_row (y0 ys : vec) : Prop :=
  (List.length y0 <= List.length ys)%nat
  /\ forall i, (i < List.length y0)%nat -> ys.[i] = y0.[i].

Definition first_row_return (y0 : vec) (ret : returned) : Prop :=
  ret_err ret = None -> exists ys, ret_ys ret = Some ys /\ first_row y0 ys.

(** With no component in the state: no output and no rejection. *)
Definition stateless_invariant (st : loop_state) : Prop :=
  st_ys st = [] /\ st_y st = [] /\ Rejections (st_stats st) = 0%N.

Definition stateless_return (ret : returned) : Prop :=
  ret_err ret = None /\ ret_ys ret = Some []
  /\ exists s, ret_stats ret = Some s /\ Rejections s = 0%N.

(** A zero, a subnormal or a normal number. *)
Definition finite_number (x : float) : Prop :=
  match Prim2SF x with
  | S754_zero _ | S754_finite _ _ _ => True
  | S754_infinity _ | S754_nan => False
  end.

(** A bound on the halvings that take a finite number to zero. *)
Definition halvings (x : float) : nat :=
  match Prim2SF x with
  | S754_finite _ m e => Z.to_nat (e + 1074 + Z.log2_up (Zpos m) + 1)
  | _ => 0
  end.

(** [x0 + h + ... + h], with [k] additions: the point of the row [k] of
    [rk4.Compute]. *)
Definition rk4_point (h x0 : float) (k : nat) : float :=
  Nat.iter k (fun x => x + h) x0.

(** The row [k] of [ys]. *)
Definition row_of (nd : nat) (ys : vec) (k : nat) : vec :=
  firstn nd (skipn (k * nd) ys).

(** The rows from [nc] on are still zero. *)
Definition zero_from (nd nc : nat) (ys : vec) : Prop :=
  forall p, (nc * nd <= p)%nat -> ys.[p] = 0.

(** The row [k + 1] is an accepted step from the row [k]: some step size
    leads from the point [k] to the point [k + 1], gives the row and passes
    the error test; the derivative at the start is that of the row [k]. *)
Definition accepted_step dydx (nd : nat) (relerr threshold : float) (xs ys : vec)
           (k : nat) : Prop :=
  exists h,
    let y := row_of nd ys k in
    let t := attempt dydx nd threshold xs.[k] h y (dydx xs.[k] y) in
    xs.[S k] = t_xnew t /\ row_of nd ys (S k) = t_ynew t /\ (t_eps t <=? relerr) = true.

Definition chain_invariant dydx (nd : nat) (relerr threshold : float) (st : loop_state)
  : Prop :=
  exists n,
    List.length (st_xs st) = S n
    /\ List.length (st_ys st) = (S n * nd)%nat
    /\ (st_xs st).[n] = st_x st
    /\ row_of nd (st_ys st) n = st_y st
    /\ List.length (st_y st) = nd
    /\ st_f1 st = dydx (st_x st) (st_y st)
    /\ forall k, (k < n)%nat -> accepted_step dydx nd relerr threshold (st_xs st) (st_ys st) k.

Definition chain_return dydx (nd : nat) (relerr threshold : float) (ret : returned) : Prop :=
  forall ys xs', ret_ys ret = Some ys -> ret_xs ret = Some xs' ->
    forall k, (S k < List.length xs')%nat -> accepted_step dydx nd relerr threshold xs' ys k.

(** The run on a fixed grid [xs] beside the run in adaptive mode that takes
    the same steps: the rows from [st_nc] on are still zero, and every grid
    point with a row before is not beyond one of the points reached. *)
Definition reached_invariant (nd nx : nat) (xs : vec) (st st' : loop_state) : Prop :=
  same_course st st'
  /\ fixed_invariant nd nx xs st
  /\ (1 <= st_nc st)%nat
  /\ zero_from nd (st_nc st) (st_ys st)
  /\ (1 <= List.length (st_xs st'))%nat
  /\ forall j, (1 <= j < st_nc st)%nat ->
       exists k, (1 <= k < List.length (st_xs st'))%nat
                 /\ ((st_xs st').[k] - xs.[j] <? 0) = false.

Definition reached_return (nd nx : nat) (xs : vec) (ret ret' : returned) : Prop :=
  forall ys xs', ret_ys ret = Some ys -> ret_xs ret' = Some xs' ->
    forall j i, (1 <= j < nx)%nat -> (i < nd)%nat ->
      (forall k, (1 <= k < List.length xs')%nat -> (xs'.[k] - xs.[j] <? 0) = true) ->
      ys.[j * nd + i] = 0.

(** The grid point [j] of [xs] is the point [k] of [xs'], the first of the
    points of [xs'] (after the start) that it is not beyond, and no grid point
    before it is beyond that point. *)
Definition met_at (xs xs' : vec) (j k : nat) : Prop :=
  (xs.[j] =? xs'.[k]) = true
  /\ (forall k', (1 <= k' < k)%nat -> (xs'.[k'] - xs.[j] <? 0) = true)
  /\ (forall j', (1 <= j' < j)%nat -> (xs'.[k] - xs.[j'] <? 0) = false).

(** The run on a fixed grid beside the run in adaptive mode that takes the
    same steps, after [m] of them. *)
Definition endpoint_invariant (nd nx : nat) (xs : vec) (st st' : loop_state) : Prop :=
  same_course st st'
  /\ fixed_invariant nd nx xs st
  /\ (1 <= st_nc st)%nat
  /\ exists m,
      List.length (st_xs st') = S m
      /\ List.length (st_ys st') = (S m * nd)%nat
      /\ (forall j, (1 <= j < st_nc st)%nat ->
            exists k, (1 <= k <= m)%nat /\ ((st_xs st').[k] - xs.[j] <? 0) = false)
      /\ (forall j k, (1 <= j < nx)%nat -> (1 <= k <= m)%nat ->
            met_at xs (st_xs st') j k ->
            (j < st_nc st)%nat
            /\ forall i, (i < nd)%nat -> (st_ys st).[j * nd + i] = (st_ys st').[k * nd + i]).

Definition endpoint_return (nd nx : nat) (xs : vec) (ret ret' : returned) : Prop :=
  forall ys xs' ys',
    ret_ys ret = Some ys -> ret_xs ret' = Some xs' -> ret_ys ret' = Some ys' ->
    forall j k, (1 <= j < nx)%nat -> (1 <= k < List.length xs')%nat ->
      met_at xs xs' j k ->
      forall i, (i < nd)%nat -> ys.[j * nd + i] = ys'.[k * nd + i].

(** The point [k] of [xs'] is the first of the points of [xs'] (after the
    start) that the grid point [j] of [xs] is not beyond, and no grid point
    before it is beyond that point. *)
Definition covered_at (xs xs' : vec) (j k : nat) : Prop :=
  (xs'.[k] - xs.[j] <? 0) = false
  /\ (forall k', (1 <= k' < k)%nat -> (xs'.[k'] - xs.[j] <? 0) = true)
  /\ (forall j', (1 <= j' < j)%nat -> (xs'.[k] - xs.[j'] <? 0) = false).

(** The row [j] of [ys] is the dense output, at the grid point [j], of the
    accepted step that leads to the point [k] of [xs']: the step from the
    point and the row before, of some size [h]; its [ynew] where the grid
    point is the end of the step, and what [interpolate] gives elsewhere. *)
Definition dense_row dydx (nd : nat) (threshold : float) (xs ys xs' ys' : vec)
           (j k : nat) : Prop :=
  exists h,
    let x := xs'.[k - 1] in
    let y := row_of nd ys' (k - 1) in
    let t := attempt dydx nd threshold x h y (dydx x y) in
    xs'.[k] = t_xnew t
    /\ row_of nd ys' k = t_ynew t
    /\ forall i, (i < nd)%nat ->
         ys.[j * nd + i]
         = (if xs.[j] =? t_xnew t then t_ynew t
            else interpolate x y (t_f t) h xs.[j]).[i].

Definition dense_invariant dydx (nd nx : nat) (threshold : float) (xs : vec)
           (st st' : loop_state) : Prop :=
  same_course st st'
  /\ fixed_invariant nd nx xs st
  /\ (1 <= st_nc st)%nat
  /\ st_f1 st = dydx (st_x st) (st_y st)
  /\ exists m,
      List.length (st_xs st') = S m
      /\ List.length (st_ys st') = (S m * nd)%nat
      /\ (st_xs st').[m] = st_x st
      /\ row_of nd (st_ys st') m = st_y st
      /\ (forall j, (1 <= j < st_nc st)%nat ->
            exists k, (1 <= k <= m)%nat /\ ((st_xs st').[k] - xs.[j] <? 0) = false)
      /\ (forall j k, (1 <= j < nx)%nat -> (1 <= k <= m)%nat ->
            covered_at xs (st_xs st') j k ->
            (j < st_nc st)%nat
            /\ dense_row dydx nd threshold xs (st_ys st) (st_xs st') (st_ys st') j k).

Definition dense_return dydx (nd nx : nat) (threshold : float) (xs : vec)
           (ret ret' : returned) : Prop :=
  forall ys xs' ys',
    ret_ys ret = Some ys -> ret_xs ret' = Some xs' -> ret_ys ret' = Some ys' ->
    forall j k, (1 <= j < nx)%nat -> (1 <= k < List.length xs')%nat ->
      covered_at xs xs' j k ->
      dense_row dydx nd threshold xs ys xs' ys' j k.

(** ** Tactics: the specification of binary64, by cases *)

Ltac sf_unfold :=
  cbv [SFltb SFleb SFeqb SFcompare SFopp SFabs negb xorb] in *.

Ltac to_spec :=
  repeat first
    [ rewrite ltb_spec in * | rewrite leb_spec in * | rewrite eqb_spec in *
    | rewrite opp_spec in * | rewrite abs_spec in *
    | progress change (Prim2SF 0) with (S754_zero false) in * ].

Ltac sf_cases x :=
  let s := fresh "s" in
  let m := fresh "m" in
  let e := fresh "e" in
  destruct (Prim2SF x) as [s|s| |s m e]; try destruct s.

(** * Properties *)

(** ** Floating-point facts

    Read off the specification of binary64 ([Prim2SF]) by cases on the class
    of the operands. *)

Lemma Prim2SF_zero : Prim2SF 0 = S754_zero false.
Proof. reflexivity. Qed.

Lemma fabs_not_negative (v : float) : (fabs v <? 0) = false.
Proof.
  unfold fabs. destruct (v <? 0) eqn:Hv; [|exact Hv].
  to_spec. sf_cases v; sf_unfold; congruence.
Qed.

Lemma positive_not_negative (v : float) : (0 <? v) = true -> (v <? 0) = false.
Proof. to_spec. sf_cases v; sf_unfold; congruence. Qed.

(** A number that is neither above nor below zero (a zero or a NaN) is above
    no number that is not negative, and neither is its opposite. *)
Lemma not_below_zero_like (s v : float) :
  (0 <? v) = false -> (v <? 0) = false -> (s <? 0) = false ->
  (s <? v) = false /\ (s <? - v) = false.
Proof.
  to_spec. sf_cases v; sf_cases s; sf_unfold; intuition congruence.
Qed.

(** [fabs] is IEEE's [abs] except on the negative zero, which it keeps. *)
Lemma fabs_abs (v : float) : fabs v = abs v \/ Prim2SF v = S754_zero true.
Proof.
  unfold fabs. destruct (v <? 0) eqn:Hv.
  - left. apply Prim2SF_inj. to_spec. sf_cases v; sf_unfold; congruence.
  - destruct (Prim2SF v) as [[|]|[|]| |[|] m e] eqn:E; auto; left;
      apply Prim2SF_inj; to_spec; rewrite E in *; sf_unfold; congruence.
Qed.

Lemma SFeqb_finite (s1 s2 : bool) (m1 m2 : positive) (e1 e2 : Z) :
  SFeqb (S754_finite s1 m1 e1) (S754_finite s2 m2 e2) = true ->
  s1 = s2 /\ m1 = m2 /\ e1 = e2.
Proof.
  unfold SFeqb, SFcompare.
  change (PosDef.Pos.compare_cont Eq m1 m2) with (Pos.compare m1 m2).
  destruct s1, s2; try discriminate;
    destruct (Z.compare e1 e2) eqn:He; cbn [CompOpp]; try discriminate;
    destruct (Pos.compare m1 m2) eqn:Hm; cbn [CompOpp]; try discriminate;
    intros _; apply Z.compare_eq in He; apply Pos.compare_eq in Hm; auto.
Qed.

Lemma SFsub_diag (s : bool) (m : positive) (e : Z) :
  SF64sub (S754_finite s m e) (S754_finite s m e) = S754_zero false.
Proof. unfold SF64sub, SFsub. rewrite Z.sub_diag. reflexivity. Qed.

(** A grid point [a] with [a == b] is never beyond [b]: [b - a < 0] fails. *)
Lemma equal_not_beyond (a b : float) : (a =? b) = true -> (b - a <? 0) = false.
Proof.
  rewrite eqb_spec, ltb_spec, sub_spec.
  change (Prim2SF 0) with (S754_zero false).
  destruct (Prim2SF a) as [sa|sa| |sa ma ea], (Prim2SF b) as [sb|sb| |sb mb eb];
    try discriminate; try (destruct sa, sb; (discriminate || reflexivity)).
  intros H. apply SFeqb_finite in H. destruct H as (-> & -> & ->).
  rewrite SFsub_diag. reflexivity.
Qed.

(** ** The error estimate (section 4.3) *)

Lemma fold_left_map_fmax (g : nat -> float) (l : list nat) (a : float) :
  fold_left (fun eps i => if eps <? g i then g i else eps) l a
  = fold_left fmax (map g l) a.
Proof.
  revert a. induction l as [|i l IH]; intros a; simpl; [reflexivity|].
  rewrite IH. reflexivity.
Qed.

Lemma component_error_spec (threshold h : float) (y ynew : vec) (f : stages) (i : nat) :
  component_error threshold h y ynew f i
  = h * fabs (embedded_error f i) / local_scale threshold y ynew i.
Proof.
  unfold component_error, local_scale, embedded_error.
  fold (fabs y.[i]).
  set (e := e1 * _ + _ + _ + _ + _ + _). fold (fabs e).
  f_equal. f_equal.
  pose proof (fabs_not_negative y.[i]) as Hs.
  set (s := fabs y.[i]) in *.
  destruct (0 <? ynew.[i]) eqn:Hpos.
  - unfold fabs at 1. rewrite (positive_not_negative _ Hpos). reflexivity.
  - unfold fabs at 1. destruct (ynew.[i] <? 0) eqn:Hneg; [reflexivity|].
    destruct (not_below_zero_like s _ Hpos Hneg Hs) as [H1 H2].
    unfold fmax at 2. rewrite H1, H2. reflexivity.
Qed.

Lemma error_estimate_spec (nd : nat) (threshold h : float) (y ynew : vec) (f : stages) :
  error_estimate nd threshold h y ynew f = error_norm nd threshold h y ynew f.
Proof.
  unfold error_estimate, error_norm, norm_inf.
  rewrite fold_left_map_fmax. f_equal.
  apply map_ext. intros i. apply component_error_spec.
Qed.

(** ** The initial step size (section 4.1, step 4) *)

Lemma binary_round_aux_abs (s : bool) (m e : Z) (l : location) :
  SFabs (binary_round_aux prec emax s m e l) = binary_round_aux prec emax false m e l.
Proof.
  unfold binary_round_aux.
  destruct (shr_fexp prec emax m e l) as [mrs e'].
  destruct (shr_fexp prec emax _ e' loc_Exact) as [mrs' e''].
  destruct (shr_m mrs'); [reflexivity| |reflexivity].
  destruct (Z.leb e'' (Z.sub emax prec)); reflexivity.
Qed.

Lemma SFdiv_abs (x d : spec_float) :
  sign_clear d -> SF64div (SFabs x) d = SFabs (SF64div x d).
Proof.
  unfold SF64div, SFdiv.
  destruct x as [sx|sx| |sx mx ex], d as [sd|sd| |sd md ed]; simpl; intros Hd;
    try subst sd; try reflexivity; try (destruct sx; reflexivity).
  destruct (SFdiv_core_binary prec emax (Z.pos mx) ex (Z.pos md) ed) as [[mz ez] lz].
  rewrite binary_round_aux_abs. reflexivity.
Qed.

(** Division by a number whose sign is clear commutes with [abs]. *)
Lemma div_abs (x d : float) : sign_clear (Prim2SF d) -> abs x / d = abs (x / d).
Proof.
  intros Hd. apply Prim2SF_inj.
  rewrite div_spec, !abs_spec, div_spec. apply SFdiv_abs, Hd.
Qed.

Lemma fmax_abs_sign_clear (y t : float) : sign_clear (Prim2SF (fmax (abs y) t)).
Proof.
  unfold fmax. destruct (abs y <? t) eqn:H.
  - to_spec. sf_cases y; sf_cases t; sf_unfold; simpl; try congruence; auto.
  - rewrite abs_spec. sf_cases y; simpl; auto.
Qed.

Lemma fabs_same_abs (v : float) : same_or_zeros (fabs v) (abs v).
Proof.
  destruct (fabs_abs v) as [H|H]; [left; exact H|].
  right. unfold fabs, is_zero. rewrite ltb_spec, abs_spec, H. cbn.
  split; eexists; [exact H | reflexivity].
Qed.

(** Dividing by the negative zero and taking [fabs] is dividing [abs] by the
    positive zero. *)
Lemma div_by_zeros (x d d' : float) :
  Prim2SF d = S754_zero true -> Prim2SF d' = S754_zero false ->
  fabs (x / d) = abs x / d'.
Proof.
  intros Hd Hd'. apply Prim2SF_inj. unfold fabs.
  rewrite ltb_spec, !div_spec, abs_spec, Hd, Hd', Prim2SF_zero.
  destruct (Prim2SF x) as [[|]|[|]| |[|] m e] eqn:E; cbn;
    rewrite ?opp_spec, ?div_spec, ?Hd, ?E; reflexivity.
Qed.

Lemma ltb_zero_sign (a t : float) (s s' : bool) :
  Prim2SF a = S754_zero s -> forall a', Prim2SF a' = S754_zero s' -> (a <? t) = (a' <? t).
Proof.
  intros H a' H'. rewrite !ltb_spec, H, H'. reflexivity.
Qed.

Lemma ltb_zero_r (a z : float) : is_zero z -> (a <? z) = (a <? 0).
Proof.
  intros [s Hz]. rewrite !ltb_spec, Hz, Prim2SF_zero.
  destruct (Prim2SF a) as [sa|sa| |sa ma ea]; reflexivity.
Qed.

(** One term of the loop of lines 129-147 against the term of the
    specification. *)
Lemma initial_component (y f threshold : float) :
  same_or_zeros (fabs (f / fmax (fabs y) threshold)) (abs f / fmax (abs y) threshold).
Proof.
  destruct (fabs_abs y) as [Hy|Hy].
  - rewrite Hy. rewrite (div_abs _ _ (fmax_abs_sign_clear y threshold)).
    apply fabs_same_abs.
  - assert (Hf : fabs y = y).
    { unfold fabs. rewrite ltb_spec, Hy. reflexivity. }
    assert (Ha : Prim2SF (abs y) = S754_zero false).
    { rewrite abs_spec, Hy. reflexivity. }
    rewrite Hf. unfold fmax.
    rewrite (ltb_zero_sign y threshold _ _ Hy (abs y) Ha).
    destruct (abs y <? threshold) eqn:Hlt.
    + assert (Hc : sign_clear (Prim2SF threshold)).
      { pose proof (fmax_abs_sign_clear y threshold) as H. unfold fmax in H.
        rewrite Hlt in H. exact H. }
      rewrite (div_abs _ _ Hc). apply fabs_same_abs.
    + left. apply div_by_zeros; assumption.
Qed.

(** A running maximum that starts at zero does not see the sign of a zero. *)
Lemma running_max_same (g g' : nat -> float) (l : list nat) (a : float) :
  (a <? 0) = false ->
  (forall i, (g i <? 0) = false) ->
  (forall i, same_or_zeros (g i) (g' i)) ->
  fold_left (fun acc i => if acc <? g i then g i else acc) l a
  = fold_left fmax (map g' l) a.
Proof.
  intros Ha Hg Hgg'. revert a Ha.
  induction l as [|i l IH]; intros a Ha; simpl; [reflexivity|].
  unfold fmax at 2.
  destruct (Hgg' i) as [E|[Z Z']].
  - rewrite <- E. apply IH. destruct (a <? g i); [apply Hg | exact Ha].
  - rewrite (ltb_zero_r a _ Z), (ltb_zero_r a _ Z'), Ha. apply IH, Ha.
Qed.

Lemma initial_scale_spec (nd : nat) (threshold : float) (y f1 : vec) :
  initial_scale nd threshold y f1 = derivative_scale nd threshold y f1.
Proof.
  unfold initial_scale, derivative_scale, norm_inf.
  apply (running_max_same
           (fun i => fabs (f1.[i] / fmax (fabs y.[i]) threshold))
           (fun i => abs f1.[i] / fmax (abs y.[i]) threshold)).
  - reflexivity.
  - intros i. apply fabs_not_negative.
  - intros i. apply initial_component.
Qed.

Lemma initial_step_spec (pow : float -> float -> float) (nd : nat)
      (relerr threshold hmax x x1 : float) (y f1 : vec) :
  initial_step pow nd relerr threshold hmax x x1 y f1
  = derived_step pow nd relerr threshold hmax x x1 y f1.
Proof.
  unfold initial_step, derived_step, fmin. rewrite initial_scale_spec. reflexivity.
Qed.

(** ** Claims on one pass of the inner loop *)

Section Pass.

Variable pow : float -> float -> float.
Variable dydx : float -> vec -> vec.
Variables (nd : nat) (relerr threshold : float).

(** C1.  The error estimate of every trial step is the largest, over the
    components [i], of [h * |e1*f1[i] + e3*f3[i] + e4*f4[i] + e5*f5[i] +
    e6*f6[i] + e7*f7[i]| / scale_i] with [scale_i = max(|y[i]|, |ynew[i]|,
    threshold)], where [ComputeWithStats] passes [AbsError / RelError] for
    [threshold]; and the pass leaves the inner loop by its [break] exactly
    when that estimate is at most [relerr]. *)
Theorem trial_error_and_acceptance :
  forall (x hmin h : float) (y f1 : vec) (rejected : bool) (stats : Stats),
    let t := attempt dydx nd threshold x h y f1 in
    t_eps t = error_norm nd threshold h y (t_ynew t) (t_f t)
    /\ ((exists t' stats',
            pass pow dydx nd relerr threshold x hmin y f1 h rejected stats
            = PassBreak t' stats')
        <-> (t_eps t <=? relerr) = true).
Proof.
  intros x hmin h y f1 rejected stats t. split.
  - unfold t, attempt. cbn [t_eps t_ynew t_f]. apply error_estimate_spec.
  - unfold pass. fold t. destruct (t_eps t <=? relerr) eqn:Hle.
    + split; [reflexivity|]. intros _. eauto.
    + split; [|discriminate].
      intros (t' & stats' & H). destruct (h <=? hmin); discriminate.
Qed.

(** C4.  A rejected pass counts one rejection; unless [h] is already at
    [hmin] (the call then returns the underflow error), the next pass runs
    with [h] times [max(0.8 * (relerr/eps)^(1/5), 0.1)] when this is the first
    rejection of the step ([rejected] is unset), with [h] halved otherwise, in
    both cases raised to [hmin] when it fell below; and every later pass of
    the same step has [rejected] set. *)
Theorem rejected_pass_shrinks_step :
  forall (fuel : nat) (x hmin h : float) (y f1 : vec) (done rejected : bool) (stats : Stats),
    let eps := t_eps (attempt dydx nd threshold x h y f1) in
    let stats' := incr_Rejections (add_Evaluations 6 stats) in
    let shrunk :=
      if rejected then 0.5 * h
      else fmax 0.1 (0.8 * pow (relerr / eps) power) * h in
    (eps <=? relerr) = false ->
    Rejections stats' = uint_add (Rejections stats) 1
    /\ Steps stats' = Steps stats
    /\ pass pow dydx nd relerr threshold x hmin y f1 h rejected stats
       = (if h <=? hmin then PassUnderflow stats'
          else PassRetry (fmax shrunk hmin) stats')
    /\ attempts pow dydx nd relerr threshold (S fuel) x hmin y f1 h done rejected stats
       = (if h <=? hmin then Some (Underflow stats')
          else attempts pow dydx nd relerr threshold fuel x hmin y f1
                        (fmax shrunk hmin) false true stats').
Proof.
  intros fuel x hmin h y f1 done rejected stats eps stats' shrunk Hrej.
  assert (Hpass :
            pass pow dydx nd relerr threshold x hmin y f1 h rejected stats
            = (if h <=? hmin then PassUnderflow stats'
               else PassRetry (fmax shrunk hmin) stats')).
  { unfold pass. fold eps. rewrite Hrej. fold stats'.
    destruct (h <=? hmin); [reflexivity|].
    f_equal. unfold shrink, shrunk, fmax. fold eps.
    destruct rejected; [reflexivity|].
    destruct (0.1 <? 0.8 * pow (relerr / eps) power); reflexivity. }
  repeat split; try reflexivity; try exact Hpass.
  cbn [attempts]. rewrite Hpass. destruct (h <=? hmin); reflexivity.
Qed.

End Pass.

(** ** Claims on one iteration of the outer loop *)

Section Step.

Variable pow : float -> float -> float.
Variable dydx : float -> vec -> vec.
Variables (nd nx : nat) (xs : vec) (fixed : bool).
Variables (relerr threshold hmax xend : float).

Local Abbreviation pass' := (pass pow dydx nd relerr threshold).
Local Abbreviation attempts' := (attempts pow dydx nd relerr threshold).
Local Abbreviation step' := (step pow dydx nd nx xs fixed relerr threshold hmax xend).

(** Once a pass was rejected, the inner loop ends with [rejected] set. *)
Lemma attempts_after_rejection (fuel : nat) :
  forall x hmin y f1 h done h' done' rejected' t stats stats',
    attempts' fuel x hmin y f1 h done true stats
    = Some (Accepted h' done' rejected' t stats') ->
    rejected' = true.
Proof.
  induction fuel as [|fuel IH]; intros x hmin y f1 h done h' done' rejected' t stats stats' H;
    cbn [attempts] in H; [discriminate|].
  destruct (pass' x hmin y f1 h true stats) as [t0 s0|s0|h0 s0].
  - injection H as _ _ E _ _. symmetry. exact E.
  - discriminate.
  - eapply IH. exact H.
Qed.

(** The inner loop, entered with [rejected] unset, ends with it unset exactly
    when its first pass is accepted. *)
Lemma attempts_first_pass (fuel : nat) :
  forall x hmin y f1 h done h' done' rejected' t stats stats',
    attempts' fuel x hmin y f1 h done false stats
    = Some (Accepted h' done' rejected' t stats') ->
    (rejected' = false <-> pass' x hmin y f1 h false stats = PassBreak t stats')
    /\ (rejected' = false -> h' = h /\ done' = done)
    /\ (rejected' = true -> done' = false).
Proof.
  destruct fuel as [|fuel]; intros x hmin y f1 h done h' done' rejected' t stats stats' H;
    cbn [attempts] in H; [discriminate|].
  destruct (pass' x hmin y f1 h false stats) as [t0 s0|s0|h0 s0] eqn:Hp.
  - inversion H; subst. repeat split; try reflexivity; discriminate.
  - discriminate.
  - pose proof (attempts_after_rejection _ _ _ _ _ _ _ _ _ _ _ _ _ H) as ->.
    repeat split; try discriminate.
    intros _. clear Hp. revert h0 s0 H.
    induction fuel as [|fuel IH]; intros h0 s0 H; cbn [attempts] in H; [discriminate|].
    destruct (pass' x hmin y f1 h0 true s0) as [t1 s1|s1|h1 s1].
    + injection H as _ E _ _. symmetry. exact E.
    + discriminate.
    + eapply IH. exact H.
Qed.

(** The trial the inner loop ends with is the pass at the step size it ends
    with. *)
Lemma attempts_trial (fuel : nat) :
  forall x hmin y f1 h done rejected h' done' rejected' t stats stats',
    attempts' fuel x hmin y f1 h done rejected stats
    = Some (Accepted h' done' rejected' t stats') ->
    t = attempt dydx nd threshold x h' y f1 /\ (t_eps t <=? relerr) = true.
Proof.
  induction fuel as [|fuel IH];
    intros x hmin y f1 h done rejected h' done' rejected' t stats stats' H;
    cbn [attempts] in H; [discriminate|].
  unfold pass in H.
  destruct (t_eps (attempt dydx nd threshold x h y f1) <=? relerr) eqn:Hle.
  - injection H as -> _ _ <- _. split; [reflexivity | exact Hle].
  - destruct (h <=? hmin); [discriminate|]. eapply IH. exact H.
Qed.

(** C3 (amended).  After an accepted, non-terminal step the next trial step
    size is [h / scale] when [scale = 1.25 * (eps/relerr)^(1/5)] exceeds 0.2 and
    [5 * h] otherwise, provided the step was accepted at its first pass; a step
    accepted after a rejection hands its accepted step size on unchanged. *)
Theorem next_step_size :
  forall (tries : nat) (st st' : loop_state),
    step' tries st = StepNext st' ->
    exists (hmin h0 h : float) (done0 rejected : bool) (t : trial) (stats : Stats),
      clamp hmax xend (st_x st) (st_h st) = (hmin, h0, done0)
      /\ attempts' tries (st_x st) hmin (st_y st) (st_f1 st) h0 done0 false
                   (incr_Steps (st_stats st))
         = Some (Accepted h false rejected t stats)
      /\ (rejected = false
          <-> pass' (st_x st) hmin (st_y st) (st_f1 st) h0 false
                    (incr_Steps (st_stats st)) = PassBreak t stats)
      /\ st_x st' = t_xnew t
      /\ st_y st' = t_ynew t
      /\ st_f1 st' = s_f7 (t_f t)
      /\ st_h st' =
           (if rejected then h
            else
              let scale := 1.25 * pow (t_eps t / relerr) power in
              if 0.2 <? scale then h / scale else 5 * h).
Proof.
  intros tries st st' H. unfold step in H.
  destruct (clamp hmax xend (st_x st) (st_h st)) as [[hmin h0] done0] eqn:Hc.
  destruct (attempts' tries (st_x st) hmin (st_y st) (st_f1 st) h0 done0 false
                      (incr_Steps (st_stats st)))
    as [[h done rejected t stats|stats]|] eqn:Ha; try discriminate.
  destruct (emit nd nx xs fixed (st_x st) h (st_y st) t (st_ys st) (st_xs st) (st_nc st))
    as [[ys xs_out] nc].
  destruct done; [discriminate|].
  injection H as <-. cbn [st_x st_y st_f1 st_h].
  exists hmin, h0, h, done0, rejected, t, stats.
  destruct (attempts_first_pass _ _ _ _ _ _ _ _ _ _ _ _ _ Ha) as (Hfirst & _ & _).
  repeat split; try reflexivity; try apply Hfirst; exact Ha.
Qed.

End Step.

(** ** The statistics *)

Lemma counts_add_Evaluations (s : Stats) (S R E n : N) :
  counts s S R E -> counts (add_Evaluations n s) S R (E + n).
Proof.
  intros (HS & HR & HE). unfold counts, add_Evaluations, uint_add; cbn.
  rewrite HE, N.Div0.add_mod_idemp_l. auto.
Qed.

Lemma counts_incr_Rejections (s : Stats) (S R E : N) :
  counts s S R E -> counts (incr_Rejections s) S (R + 1) E.
Proof.
  intros (HS & HR & HE). unfold counts, incr_Rejections, uint_add; cbn.
  rewrite HR, N.Div0.add_mod_idemp_l. auto.
Qed.

Lemma counts_incr_Steps (s : Stats) (S R E : N) :
  counts s S R E -> counts (incr_Steps s) (S + 1) R E.
Proof.
  intros (HS & HR & HE). unfold counts, incr_Steps, uint_add; cbn.
  rewrite HS, N.Div0.add_mod_idemp_l. auto.
Qed.

Section Counting.

Variable pow : float -> float -> float.
Variable dydx : float -> vec -> vec.
Variables (nd nx : nat) (xs : vec) (fixed : bool).
Variables (relerr threshold hmax xend : float).

Local Abbreviation pass' := (pass pow dydx nd relerr threshold).
Local Abbreviation attempts' := (attempts pow dydx nd relerr threshold).
Local Abbreviation step' := (step pow dydx nd nx xs fixed relerr threshold hmax xend).
Local Abbreviation steps' := (steps pow dydx nd nx xs fixed relerr threshold hmax xend).

Local Open Scope N_scope.

(** Every pass costs six evaluations, and one rejection unless it is accepted. *)
Lemma pass_counts x hmin y f1 h rejected (s : Stats) (S R E : N) :
  counts s S R E ->
  match pass' x hmin y f1 h rejected s with
  | PassBreak _ s' => counts s' S R (E + 6)
  | PassUnderflow s' | PassRetry _ s' => counts s' S (R + 1) (E + 6)
  end.
Proof.
  intros H. unfold pass.
  destruct (PrimFloat.leb _ relerr).
  - apply counts_add_Evaluations, H.
  - destruct (PrimFloat.leb h hmin);
      apply counts_incr_Rejections, counts_add_Evaluations, H.
Qed.

(** The inner loop: [r] rejected passes, then an accepted one or the
    underflow at the last rejection. *)
Lemma attempts_counts (fuel : nat) :
  forall x hmin y f1 h done rejected (s : Stats) (S R E : N) res,
    counts s S R E ->
    attempts' fuel x hmin y f1 h done rejected s = Some res ->
    exists r : N,
      match res with
      | Accepted _ _ _ _ s' => r + 1 <= N.of_nat fuel /\ counts s' S (R + r) (E + 6 * (r + 1))
      | Underflow s' => 1 <= r <= N.of_nat fuel /\ counts s' S (R + r) (E + 6 * r)
      end.
Proof.
  induction fuel as [|fuel IH]; intros x hmin y f1 h done rejected s S R E res Hc H;
    cbn [attempts] in H; [discriminate|].
  pose proof (pass_counts x hmin y f1 h rejected s S R E Hc) as Hp.
  destruct (pass' x hmin y f1 h rejected s) as [t0 s0|s0|h0 s0].
  - injection H as <-. exists 0. split; [lia|].
    replace (R + 0) with R by lia. replace (E + 6 * (0 + 1)) with (E + 6) by lia. exact Hp.
  - injection H as <-. exists 1. split; [lia|].
    replace (E + 6 * 1) with (E + 6) by lia. exact Hp.
  - destruct (IH _ _ _ _ _ _ _ _ _ _ _ _ Hp H) as (r & Hr).
    exists (r + 1). destruct res as [h' d' r' t' s'|s'].
    + destruct Hr as (Hle & Hcs). split; [lia|].
      replace (R + (r + 1)) with (R + 1 + r) by lia.
      replace (E + 6 * (r + 1 + 1)) with (E + 6 + 6 * (r + 1)) by lia. exact Hcs.
    + destruct Hr as (Hle & Hcs). split; [lia|].
      replace (R + (r + 1)) with (R + 1 + r) by lia.
      replace (E + 6 * (r + 1)) with (E + 6 + 6 * r) by lia. exact Hcs.
Qed.

(** One iteration of the outer loop, entered after [S] steps and [R]
    rejections with [1 + 6 * (S + R)] evaluations. *)
Lemma step_counts (tries : nat) (st : loop_state) (S R : N) :
  counts (st_stats st) S R (1 + 6 * (S + R)) ->
  match step' tries st with
  | StepStuck => True
  | StepNext st' =>
      exists r, r + 1 <= N.of_nat tries
                /\ counts (st_stats st') (S + 1) (R + r) (1 + 6 * (S + 1 + (R + r)))
  | StepReturn ret =>
      exists r s,
        ret_stats ret = Some s /\ well_formed_return ret
        /\ ((ret_err ret = None /\ r + 1 <= N.of_nat tries
             /\ counts s (S + 1) (R + r) (1 + 6 * (S + 1 + (R + r))))
            \/ (ret_err ret <> None /\ 1 <= r <= N.of_nat tries
                /\ counts s (S + 1) (R + r) (1 + 6 * (S + (R + r)))))
  end.
Proof.
  intros Hc. unfold step.
  destruct (clamp hmax xend (st_x st) (st_h st)) as [[hmin h0] done0].
  pose proof (counts_incr_Steps _ _ _ _ Hc) as Hc1.
  destruct (attempts' tries (st_x st) hmin (st_y st) (st_f1 st) h0 done0 false
                      (incr_Steps (st_stats st)))
    as [[h done rejected t stats|stats]|] eqn:Ha; [| |exact I].
  - destruct (attempts_counts _ _ _ _ _ _ _ _ _ _ _ _ _ Hc1 Ha) as (r & Hle & Hcs).
    replace (1 + 6 * (S + R) + 6 * (r + 1)) with (1 + 6 * (S + 1 + (R + r))) in Hcs by lia.
    destruct (emit nd nx xs fixed (st_x st) h (st_y st) t (st_ys st) (st_xs st) (st_nc st))
      as [[ys xs_out] nc].
    destruct done.
    + exists r, stats. cbn. split; [reflexivity|]. split.
      * left. eauto.
      * left. auto.
    + exists r. cbn. auto.
  - destruct (attempts_counts _ _ _ _ _ _ _ _ _ _ _ _ _ Hc1 Ha) as (r & Hle & Hcs).
    replace (1 + 6 * (S + R) + 6 * r) with (1 + 6 * (S + (R + r))) in Hcs by lia.
    exists r, stats. cbn. split; [reflexivity|]. split.
    + right. eauto.
    + right. split; [discriminate|]. auto.
Qed.

(** The outer loop. *)
Lemma steps_counts (tries fuel : nat) :
  forall (st : loop_state) (S R : N) (ret : returned),
    counts (st_stats st) S R (1 + 6 * (S + R)) ->
    steps' tries fuel st = Return ret ->
    exists S' R' s,
      ret_stats ret = Some s /\ well_formed_return ret
      /\ S + 1 <= S' <= S + N.of_nat fuel
      /\ R <= R' <= R + N.of_nat fuel * N.of_nat tries
      /\ ((ret_err ret = None /\ counts s S' R' (1 + 6 * (S' + R')))
          \/ (ret_err ret <> None /\ 1 <= R'
              /\ counts s S' R' (1 + 6 * (S' + R') - 6))).
Proof.
  induction fuel as [|fuel IH]; intros st S R ret Hc H; cbn [steps] in H; [discriminate|].
  pose proof (step_counts tries st S R Hc) as Hs.
  rewrite Nat2N.inj_succ, N.mul_succ_l.
  destruct (step' tries st) as [|ret0|st']; [discriminate| |].
  - injection H as ->. destruct Hs as (r & s & Hst & Hwf & Hcases).
    exists (S + 1), (R + r), s. split; [exact Hst|]. split; [exact Hwf|].
    destruct Hcases as [(He & Hle & Hcs)|(He & Hle & Hcs)].
    + split; [lia|]. split; [lia|]. left. auto.
    + split; [lia|]. split; [lia|]. right.
      split; [exact He|]. split; [lia|].
      replace (1 + 6 * (S + 1 + (R + r)) - 6) with (1 + 6 * (S + (R + r))) by lia.
      exact Hcs.
  - destruct Hs as (r & Hle & Hcs).
    destruct (IH st' (S + 1) (R + r) ret Hcs H)
      as (S' & R' & s & Hst & Hwf & HS & HR & Hcases).
    exists S', R', s. split; [exact Hst|]. split; [exact Hwf|].
    split; [lia|]. split; [lia|]. exact Hcases.
Qed.

End Counting.

(** The counts of a run, as numbers. *)

Section Tally.
Variable pow : float -> float -> float.
Variable dydx : float -> vec -> vec.
Variables (nd nx : nat) (xs : vec) (fixed : bool).
Variables (relerr threshold hmax xend : float).

Local Open Scope N_scope.

(** A pass ends the same way whatever the statistics are, and adds the same
    to the counters and to the counts. *)
Lemma pass_tally x hmin y f1 h rejected (s c : Stats) :
  counted s c ->
  match pass pow dydx nd relerr threshold x hmin y f1 h rejected s,
        pass pow dydx nd relerr threshold x hmin y f1 h rejected (count_Evaluations 6 c) with
  | PassBreak t s', PassBreak t' _ => t = t' /\ counted s' (count_Evaluations 6 c)
  | PassUnderflow s', PassUnderflow _ => counted s' (count_Rejection (count_Evaluations 6 c))
  | PassRetry h s', PassRetry h' _ =>
      h = h' /\ counted s' (count_Rejection (count_Evaluations 6 c))
  | _, _ => False
  end.
Proof.
  intros H. unfold pass.
  destruct (PrimFloat.leb _ relerr).
  - split; [reflexivity|]. apply counts_add_Evaluations, H.
  - destruct (PrimFloat.leb h hmin).
    + apply counts_incr_Rejections, counts_add_Evaluations, H.
    + split; [reflexivity|]. apply counts_incr_Rejections, counts_add_Evaluations, H.
Qed.

(** The inner loop: [r] rejected passes, then an accepted one or the
    underflow at the last rejection. *)
Lemma attempts_tally_spec (fuel : nat) :
  forall x hmin y f1 h done rejected (s c : Stats) res,
    counted s c ->
    attempts pow dydx nd relerr threshold fuel x hmin y f1 h done rejected s = Some res ->
    let c' := attempts_tally pow dydx nd relerr threshold fuel x hmin y f1 h rejected c in
    Steps c' = Steps c
    /\ exists r,
        Rejections c' = Rejections c + r
        /\ match res with
           | Accepted _ _ _ _ s' =>
               counted s' c' /\ Evaluations c' = Evaluations c + 6 * (r + 1)
           | Underflow s' =>
               counted s' c' /\ 1 <= r /\ Evaluations c' = Evaluations c + 6 * r
           end.
Proof.
  induction fuel as [|fuel IH]; intros x hmin y f1 h done rejected s c res Hc H;
    cbn [attempts] in H; [discriminate|].
  cbn [attempts_tally]. cbv zeta.
  pose proof (pass_tally x hmin y f1 h rejected s c Hc) as Hp.
  destruct (pass pow dydx nd relerr threshold x hmin y f1 h rejected s) as [t0 s0|s0|h0 s0],
           (pass pow dydx nd relerr threshold x hmin y f1 h rejected (count_Evaluations 6 c))
    as [t1 s1|s1|h1 s1]; try contradiction.
  - injection H as <-. split; [reflexivity|]. exists 0.
    cbn [count_Rejection count_Evaluations Steps Rejections Evaluations].
    split; [lia|]. split; [apply Hp | lia].
  - injection H as <-. split; [reflexivity|]. exists 1.
    cbn [count_Rejection count_Evaluations Steps Rejections Evaluations].
    split; [lia|]. split; [exact Hp | lia].
  - destruct Hp as (<- & Hp).
    destruct (IH _ _ _ _ _ _ _ _ _ _ Hp H) as (HS & r & HR & Hres).
    cbv zeta in HS, HR, Hres.
    cbn [count_Rejection count_Evaluations Steps Rejections Evaluations] in HS, HR, Hres.
    split; [exact HS|]. exists (r + 1).
    split; [rewrite HR; lia|].
    destruct res as [h' d' r' t' s'|s']; destruct Hres as (Hcs & Hres).
    + split; [exact Hcs|]. rewrite Hres. lia.
    + destruct Hres as (Hr & Hres). split; [exact Hcs|]. split; [lia|].
      rewrite Hres. lia.
Qed.

(** The outer loop: the counters returned are the counts of the run. *)
Lemma steps_tally_spec (tries fuel : nat) :
  forall (st : loop_state) (c : Stats) (ret : returned),
    counted (st_stats st) c ->
    Evaluations c = 1 + 6 * (Steps c + Rejections c) ->
    steps pow dydx nd nx xs fixed relerr threshold hmax xend tries fuel st = Return ret ->
    let c' := steps_tally pow dydx nd nx xs fixed relerr threshold hmax xend tries fuel st c in
    exists s,
      ret_stats ret = Some s /\ counted s c'
      /\ 1 <= Steps c'
      /\ (ret_err ret = None -> Evaluations c' = 1 + 6 * (Steps c' + Rejections c'))
      /\ (ret_err ret <> None ->
          1 <= Rejections c' /\ Evaluations c' + 5 = 6 * (Steps c' + Rejections c')).
Proof.
  induction fuel as [|fuel IH]; intros st c ret Hc He H; cbn [steps] in H; [discriminate|].
  cbn [steps_tally]. cbv zeta. revert H. unfold step.
  destruct (clamp hmax xend (st_x st) (st_h st)) as [[hmin h0] done0].
  pose proof (counts_incr_Steps _ _ _ _ Hc) as Hc1.
  change (counted (incr_Steps (st_stats st)) (count_Step c)) in Hc1.
  destruct (attempts pow dydx nd relerr threshold tries (st_x st) hmin (st_y st) (st_f1 st)
                     h0 done0 false (incr_Steps (st_stats st)))
    as [[h done rejected t stats|stats]|] eqn:Ha; [| |discriminate].
  - destruct (attempts_tally_spec _ _ _ _ _ _ _ _ _ _ _ Hc1 Ha) as (HS & r & HR & Hcs & HE).
    cbn [count_Step Steps Rejections Evaluations] in HS, HR, HE.
    destruct (emit nd nx xs fixed (st_x st) h (st_y st) t (st_ys st) (st_xs st) (st_nc st))
      as [[ys xs_out] nc].
    destruct done.
    + intros H. injection H as <-. cbn [ret_stats ret_err].
      exists stats. split; [reflexivity|]. split; [exact Hcs|]. split; [lia|].
      split; [intros _; lia | intros Hn; contradiction Hn; reflexivity].
    + intros H. refine (IH _ _ _ _ _ H); [exact Hcs | lia].
  - destruct (attempts_tally_spec _ _ _ _ _ _ _ _ _ _ _ Hc1 Ha) as (HS & r & HR & Hcs & Hr & HE).
    cbn [count_Step Steps Rejections Evaluations] in HS, HR, HE.
    intros H. injection H as <-. cbn [ret_stats ret_err].
    exists stats. split; [reflexivity|]. split; [exact Hcs|]. split; [lia|].
    split; [discriminate | intros _; lia].
Qed.

End Tally.

(** ** Claims on a whole call *)

Section Call.

Variable pow : float -> float -> float.
Variable dydx : float -> vec -> vec.

(** [ComputeWithStats] up to its loop: the values it fixes and the state the
    first iteration starts from. *)
Lemma ComputeWithStats_unfold (fuel : nat) (self : Integrator) (y0 : vec)
      (x : float) (rest : vec) :
  let c := config self in
  let xs := x :: rest in
  let nd := List.length y0 in
  let nx := List.length xs in
  let xend := xs.[nx - 1] in
  let relerr := RelError c in
  let threshold := AbsError c / RelError c in
  let hmax := if MaxStep c =? 0 then 0.1 * (xend - x) else MaxStep c in
  let fixed := (2 <? nx)%nat in
  let f1 := dydx x y0 in
  let h := if TryStep c =? 0
           then initial_step pow nd relerr threshold hmax x xs.[1] y0 f1
           else TryStep c in
  ComputeWithStats pow dydx fuel self y0 xs
  = if (TryStep c =? 0) && (nx <? 2)%nat then Panic
    else
      steps pow dydx nd nx xs fixed relerr threshold hmax xend fuel fuel
            {| st_x := x; st_h := h; st_y := y0; st_f1 := f1;
               st_ys := if fixed then write_row nd (repeat 0 (nx * nd)) 0 y0 else y0;
               st_xs := if fixed then xs else [x];
               st_nc := 1;
               st_stats := add_Evaluations 1
                             {| Evaluations := 0; Rejections := 0; Steps := 0 |} |}.
Proof. reflexivity. Qed.

Lemma initial_counts :
  counts (add_Evaluations 1 {| Evaluations := 0; Rejections := 0; Steps := 0 |})
         0 0 (1 + 6 * (0 + 0)).
Proof. repeat split. Qed.

(** The statistics of a call that returns. *)
Lemma ComputeWithStats_counts (fuel : nat) (self : Integrator) (y0 xs : vec) (ret : returned) :
  ComputeWithStats pow dydx fuel self y0 xs = Return ret ->
  exists (S R : N) (s : Stats),
    ret_stats ret = Some s /\ well_formed_return ret
    /\ (1 <= S <= N.of_nat fuel)%N
    /\ (R <= N.of_nat fuel * N.of_nat fuel)%N
    /\ ((ret_err ret = None /\ counts s S R (1 + 6 * (S + R)))
        \/ (ret_err ret <> None /\ (1 <= R)%N /\ counts s S R (1 + 6 * (S + R) - 6))).
Proof.
  destruct xs as [|x rest]; [discriminate|].
  rewrite ComputeWithStats_unfold. cbv zeta.
  destruct ((TryStep (config self) =? 0) && _); [discriminate|].
  intros H.
  eapply (steps_counts _ _ _ _ _ _ _ _ _ _ _ _ _ 0%N 0%N) in H; [|exact initial_counts].
  destruct H as (S & R & s & Hst & Hwf & HS & HR & Hcases).
  exists S, R, s. repeat split; try assumption; lia.
Qed.

Lemma wrapped_identity (S R : N) :
  ((1 + 6 * (S mod uint_modulus + R mod uint_modulus)) mod uint_modulus
   = (1 + 6 * (S + R)) mod uint_modulus)%N.
Proof.
  rewrite <- (N.Div0.add_mod_idemp_r 1 (6 * (S mod uint_modulus + R mod uint_modulus))).
  rewrite <- (N.Div0.mul_mod_idemp_r 6 (S mod uint_modulus + R mod uint_modulus)).
  rewrite <- (N.Div0.add_mod S R).
  rewrite N.Div0.mul_mod_idemp_r, N.Div0.add_mod_idemp_r. reflexivity.
Qed.

Lemma uint_small (n : N) : (n < uint_modulus)%N -> (n mod uint_modulus)%N = n.
Proof. apply N.mod_small. Qed.

Lemma budget_bound (fuel : nat) (S R : N) :
  (N.of_nat fuel < 2 ^ 30)%N -> (S <= N.of_nat fuel)%N ->
  (R <= N.of_nat fuel * N.of_nat fuel)%N ->
  (1 + 6 * (S + R) < uint_modulus)%N.
Proof.
  intros Hf HS HR. unfold uint_modulus.
  assert (N.of_nat fuel * N.of_nat fuel <= 2 ^ 30 * 2 ^ 30)%N
    by (apply N.mul_le_mono; lia).
  change (2 ^ 30 * 2 ^ 30)%N with (2 ^ 60)%N in *.
  change (2 ^ 64)%N with 18446744073709551616%N.
  change (2 ^ 60)%N with 1152921504606846976%N in *.
  change (2 ^ 30)%N with 1073741824%N in *.
  lia.
Qed.

(** C10.  On every successful return, [Evaluations = 1 + 6 * (Steps +
    Rejections)]: as an identity of [uint] values always, and as an identity
    of numbers for every call within a budget of 2^30 steps of 2^30 passes
    (the counts then stay below 2^64). *)
Theorem evaluations_identity :
  forall (fuel : nat) (self : Integrator) (y0 xs : vec) (ret : returned) (s : Stats),
    ComputeWithStats pow dydx fuel self y0 xs = Return ret ->
    ret_err ret = None ->
    ret_stats ret = Some s ->
    Evaluations s = ((1 + 6 * (Steps s + Rejections s)) mod uint_modulus)%N
    /\ ((N.of_nat fuel < 2 ^ 30)%N ->
        Evaluations s = (1 + 6 * (Steps s + Rejections s))%N).
Proof.
  intros fuel self y0 xs ret s Hrun Herr Hst.
  destruct (ComputeWithStats_counts _ _ _ _ _ Hrun)
    as (S & R & s' & Hst' & _ & HS & HR & Hcases).
  rewrite Hst in Hst'. injection Hst' as <-.
  destruct Hcases as [(_ & HcS & HcR & HcE)|(Hne & _)]; [|contradiction].
  split.
  - rewrite HcE, HcS, HcR.
    symmetry. apply wrapped_identity.
  - intros Hf.
    pose proof (budget_bound fuel S R Hf (proj2 HS) HR) as Hb.
    rewrite HcE, HcS, HcR, !uint_small by lia. reflexivity.
Qed.

(** The counts that stay below 2^64 are the counters themselves. *)
Lemma counted_small (s c : Stats) :
  counted s c -> (Steps c <= Evaluations c)%N -> (Rejections c <= Evaluations c)%N ->
  (Evaluations c < uint_modulus)%N -> s = c.
Proof.
  intros (HS & HR & HE) H1 H2 H3.
  rewrite N.mod_small in HS, HR, HE by lia.
  destruct s, c; cbn in *; congruence.
Qed.

(** The statistics of a call that returns are its counts: one evaluation and
    six for each pass, a step for each iteration of the outer loop, a
    rejection for each rejected pass. *)
Lemma ComputeWithStats_tally_spec (fuel : nat) (self : Integrator) (y0 xs : vec)
      (ret : returned) :
  ComputeWithStats pow dydx fuel self y0 xs = Return ret ->
  let c := ComputeWithStats_tally pow dydx fuel self y0 xs in
  exists s,
    ret_stats ret = Some s /\ counted s c
    /\ (1 <= Steps c)%N
    /\ (ret_err ret = None -> Evaluations c = 1 + 6 * (Steps c + Rejections c))%N
    /\ (ret_err ret <> None ->
        1 <= Rejections c /\ Evaluations c + 5 = 6 * (Steps c + Rejections c))%N.
Proof.
  destruct xs as [|x rest]; [discriminate|].
  rewrite ComputeWithStats_unfold. unfold ComputeWithStats_tally. cbv zeta.
  destruct ((TryStep (config self) =? 0) && _); [discriminate|].
  intros H. eapply steps_tally_spec in H; [exact H| |reflexivity].
  repeat split.
Qed.

(** C5 (amended).  The statistics a call returns, with the solution or with
    the underflow error, satisfy [Evaluations >= 6 * Steps] in every run in
    which no counter wraps around: whenever the number of evaluations of the
    run, the largest of its three counts, is below 2^64.  The statistics
    are then the counts themselves.  The rejections are not bounded by the
    steps. *)
Theorem evaluations_at_least_six_per_step :
  forall (fuel : nat) (self : Integrator) (y0 xs : vec) (ret : returned) (s : Stats),
    ComputeWithStats pow dydx fuel self y0 xs = Return ret ->
    ret_stats ret = Some s ->
    (Evaluations (ComputeWithStats_tally pow dydx fuel self y0 xs) < uint_modulus)%N ->
    s = ComputeWithStats_tally pow dydx fuel self y0 xs
    /\ (6 * Steps s <= Evaluations s)%N.
Proof.
  intros fuel self y0 xs ret s Hrun Hst Hsmall.
  destruct (ComputeWithStats_tally_spec _ _ _ _ _ Hrun)
    as (s' & Hst' & Hc & HS & Hok & Hfail).
  rewrite Hst in Hst'. injection Hst' as <-.
  set (c := ComputeWithStats_tally pow dydx fuel self y0 xs) in *.
  assert (Hle : (Steps c <= Evaluations c /\ Rejections c <= Evaluations c
                 /\ 6 * Steps c <= Evaluations c)%N).
  { destruct (ret_err ret) as [e|].
    - destruct Hfail as (HR & HE); [discriminate|]. lia.
    - specialize (Hok eq_refl). lia. }
  assert (s = c) by (apply counted_small; [exact Hc|lia|lia|exact Hsmall]).
  subst s. split; [reflexivity|lia].
Qed.

(** C2 (amended).  When the call fails, with the step-size underflow, it
    returns no solution and no grid, and it does return the statistics. *)
Theorem underflow_returns_statistics_only :
  forall (fuel : nat) (self : Integrator) (y0 xs : vec) (ret : returned),
    ComputeWithStats pow dydx fuel self y0 xs = Return ret ->
    ret_err ret <> None ->
    ret_ys ret = None /\ ret_xs ret = None
    /\ ret_err ret = Some underflow_error
    /\ exists s : Stats, ret_stats ret = Some s.
Proof.
  intros fuel self y0 xs ret Hrun Herr.
  destruct (ComputeWithStats_counts _ _ _ _ _ Hrun) as (S & R & s & Hst & Hwf & _).
  destruct Hwf as [(ys & xs_out & s' & ->)|(s' & ->)].
  - cbn in Herr. contradiction.
  - cbn. repeat split. eauto.
Qed.

(** C9.  [Compute] returns the solution, the grid and the error of
    [ComputeWithStats] on the same arguments, and panics or runs on exactly
    when it does; the statistics are all it leaves out. *)
Theorem Compute_is_ComputeWithStats_less_stats :
  forall (fuel : nat) (self : Integrator) (y0 xs : vec),
    (forall ret,
        ComputeWithStats pow dydx fuel self y0 xs = Return ret ->
        Compute pow dydx fuel self y0 xs = Return (ret_ys ret, ret_xs ret, ret_err ret))
    /\ (forall ys xs_out err,
           Compute pow dydx fuel self y0 xs = Return (ys, xs_out, err) ->
           exists ret,
             ComputeWithStats pow dydx fuel self y0 xs = Return ret
             /\ ret_ys ret = ys /\ ret_xs ret = xs_out /\ ret_err ret = err)
    /\ (Compute pow dydx fuel self y0 xs = Panic
        <-> ComputeWithStats pow dydx fuel self y0 xs = Panic)
    /\ (Compute pow dydx fuel self y0 xs = OutOfFuel
        <-> ComputeWithStats pow dydx fuel self y0 xs = OutOfFuel).
Proof.
  intros fuel self y0 xs. unfold Compute.
  destruct (ComputeWithStats pow dydx fuel self y0 xs) as [| |ret].
  - repeat split; intros; try discriminate; reflexivity.
  - repeat split; intros; try discriminate; reflexivity.
  - split; [intros ret' H; injection H as <-; reflexivity|].
    split; [intros ys xs_out err H; injection H as <- <- <-; eauto|].
    split; split; discriminate.
Qed.

(** C7.  With no [TryStep] configured, the loop starts from
    [h = min(xs[1] - x0, hmax)], replaced by [1 / scale'] when
    [h * scale' > 1], where [scale'] is the largest of
    [|f1[i]| / max(|y0[i]|, AbsError/RelError)] divided by
    [0.8 * RelError^(1/5)]; [hmax] is [MaxStep], or [0.1 * (xend - x0)] when
    [MaxStep] is zero. *)
Theorem initial_step_size :
  forall (fuel : nat) (self : Integrator) (y0 : vec) (x0 x1 : float) (rest : vec),
    let c := config self in
    let xs := x0 :: x1 :: rest in
    let nd := List.length y0 in
    let nx := List.length xs in
    let xend := xs.[nx - 1] in
    let relerr := RelError c in
    let threshold := AbsError c / RelError c in
    let hmax := hmax_of c x0 xend in
    let fixed := (2 <? nx)%nat in
    let f1 := dydx x0 y0 in
    let h := if TryStep c =? 0
             then derived_step pow nd relerr threshold hmax x0 x1 y0 f1
             else TryStep c in
    ComputeWithStats pow dydx fuel self y0 xs
    = steps pow dydx nd nx xs fixed relerr threshold hmax xend fuel fuel
            {| st_x := x0; st_h := h; st_y := y0; st_f1 := f1;
               st_ys := if fixed then write_row nd (repeat 0 (nx * nd)) 0 y0 else y0;
               st_xs := if fixed then xs else [x0];
               st_nc := 1;
               st_stats := {| Evaluations := 1; Rejections := 0; Steps := 0 |} |}.
Proof.
  intros fuel self y0 x0 x1 rest c xs nd nx xend relerr threshold hmax fixed f1 h.
  unfold xs. rewrite ComputeWithStats_unfold. cbv zeta.
  replace ((TryStep (config self) =? 0) && _) with false
    by (cbn [List.length Nat.ltb Nat.leb]; rewrite andb_false_r; reflexivity).
  unfold h. rewrite <- initial_step_spec. reflexivity.
Qed.

End Call.

(** ** Budgets

    A call that returns or panics within a budget does the same within every
    larger one: the budget only bounds how long the loops are followed. *)

Section Budget.

Variable pow : float -> float -> float.
Variable dydx : float -> vec -> vec.

Lemma attempts_more_fuel nd relerr threshold (fuel fuel' : nat) :
  (fuel <= fuel')%nat ->
  forall x hmin y f1 h done rejected stats r,
    attempts pow dydx nd relerr threshold fuel x hmin y f1 h done rejected stats = Some r ->
    attempts pow dydx nd relerr threshold fuel' x hmin y f1 h done rejected stats = Some r.
Proof.
  revert fuel'. induction fuel as [|fuel IH]; intros fuel' Hle x hmin y f1 h done rejected stats r H;
    [discriminate|].
  destruct fuel' as [|fuel']; [lia|]. cbn [attempts] in *.
  destruct (pass pow dydx nd relerr threshold x hmin y f1 h rejected stats); try exact H.
  apply IH; [lia | exact H].
Qed.

Lemma step_more_tries nd nx xs fixed relerr threshold hmax xend (tries tries' : nat)
      (st : loop_state) :
  (tries <= tries')%nat ->
  step pow dydx nd nx xs fixed relerr threshold hmax xend tries st <> StepStuck ->
  step pow dydx nd nx xs fixed relerr threshold hmax xend tries' st
  = step pow dydx nd nx xs fixed relerr threshold hmax xend tries st.
Proof.
  intros Hle. unfold step.
  destruct (clamp hmax xend (st_x st) (st_h st)) as [[hmin h0] done0].
  destruct (attempts pow dydx nd relerr threshold tries (st_x st) hmin (st_y st) (st_f1 st)
                     h0 done0 false (incr_Steps (st_stats st))) as [r|] eqn:Ha.
  - rewrite (attempts_more_fuel _ _ _ _ _ Hle _ _ _ _ _ _ _ _ _ Ha). reflexivity.
  - intros H. contradiction H. reflexivity.
Qed.

Lemma steps_more_fuel nd nx xs fixed relerr threshold hmax xend
      (tries tries' fuel fuel' : nat) :
  (tries <= tries')%nat -> (fuel <= fuel')%nat ->
  forall (st : loop_state) (o : outcome returned),
    steps pow dydx nd nx xs fixed relerr threshold hmax xend tries fuel st = o ->
    o <> OutOfFuel ->
    steps pow dydx nd nx xs fixed relerr threshold hmax xend tries' fuel' st = o.
Proof.
  intros Ht. revert fuel'.
  induction fuel as [|fuel IH]; intros fuel' Hle st o H Ho; cbn [steps] in H;
    [congruence|].
  destruct fuel' as [|fuel']; [lia|]. cbn [steps].
  destruct (step pow dydx nd nx xs fixed relerr threshold hmax xend tries st) as [|r|st'] eqn:Hs;
    [congruence| |].
  - rewrite (step_more_tries _ _ _ _ _ _ _ _ _ _ _ Ht) by congruence. rewrite Hs. exact H.
  - rewrite (step_more_tries _ _ _ _ _ _ _ _ _ _ _ Ht) by congruence. rewrite Hs.
    apply IH; [lia | exact H | exact Ho].
Qed.

Lemma ComputeWithStats_more_fuel (fuel fuel' : nat) (self : Integrator) (y0 xs : vec)
      (o : outcome returned) :
  (fuel <= fuel')%nat ->
  ComputeWithStats pow dydx fuel self y0 xs = o -> o <> OutOfFuel ->
  ComputeWithStats pow dydx fuel' self y0 xs = o.
Proof.
  intros Hle H Ho. destruct xs as [|x rest]; [exact H|].
  rewrite ComputeWithStats_unfold in *. cbv zeta in *.
  destruct ((TryStep (config self) =? 0) && _); [exact H|].
  eapply steps_more_fuel; eassumption.
Qed.

End Budget.

(** ** The fixed grid (section 4.1, step d) *)

Lemma length_tabulate (n : nat) (g : nat -> float) : List.length (tabulate n g) = n.
Proof. unfold tabulate. rewrite length_map, length_seq. reflexivity. Qed.

Lemma length_write_row (nd : nat) (ys : vec) (nc : nat) (row : vec) :
  List.length row = nd -> ((nc + 1) * nd <= List.length ys)%nat ->
  List.length (write_row nd ys nc row) = List.length ys.
Proof.
  intros Hr Hle. unfold write_row.
  rewrite !length_app, length_firstn, length_skipn, Hr. nia.
Qed.

Lemma idx_write_row (nd : nat) (ys : vec) (nc : nat) (row : vec) (p : nat) :
  List.length row = nd -> ((nc + 1) * nd <= List.length ys)%nat ->
  (write_row nd ys nc row).[p]
  = if ((nc * nd <=? p) && (p <? (nc + 1) * nd))%nat then row.[p - nc * nd] else ys.[p].
Proof.
  intros Hr Hle. unfold write_row, idx.
  assert (Hf : List.length (firstn (nc * nd) ys) = (nc * nd)%nat)
    by (rewrite length_firstn; nia).
  destruct (Nat.leb_spec (nc * nd) p) as [H1|H1]; cbn [andb].
  - rewrite app_nth2 by lia. rewrite Hf.
    destruct (Nat.ltb_spec p ((nc + 1) * nd)) as [H2|H2].
    + rewrite app_nth1 by nia. reflexivity.
    + rewrite app_nth2 by nia. rewrite nth_skipn, Hr. f_equal. nia.
  - rewrite app_nth1 by lia. rewrite nth_firstn.
    destruct (Nat.ltb_spec p (nc * nd)); [reflexivity | lia].
Qed.

Lemma length_interpolate (x : float) (y : vec) (f : stages) (h xnext : float) :
  List.length (interpolate x y f h xnext) = List.length y.
Proof. apply length_tabulate. Qed.

Lemma length_attempt_ynew dydx (nd : nat) (threshold x h : float) (y f1 : vec) :
  List.length (t_ynew (attempt dydx nd threshold x h y f1)) = nd.
Proof. apply length_tabulate. Qed.

Section Grid.

Variables (nd nx : nat) (xs : vec).

Lemma length_grid_row (x h : float) (y : vec) (t : trial) (j : nat) :
  List.length (t_ynew t) = nd -> List.length y = nd ->
  List.length (grid_row xs x h y t j) = nd.
Proof.
  intros Ht Hy. unfold grid_row.
  destruct (xs.[j] =? t_xnew t); [exact Ht | rewrite length_interpolate; exact Hy].
Qed.

(** The loop of lines 296-308 fills the rows [nc .. nc' - 1], those of the
    grid points not beyond [xnew], and no other entry of [ys]. *)
Lemma emit_fixed_spec (k : nat) :
  forall (x h : float) (y : vec) (t : trial) (ys : vec) (nc : nat) (ys' : vec) (nc' : nat),
    List.length ys = (nx * nd)%nat -> (nc + k <= nx)%nat ->
    List.length (t_ynew t) = nd -> List.length y = nd ->
    emit_fixed nd xs k x h y t ys nc = (ys', nc') ->
    List.length ys' = (nx * nd)%nat
    /\ (nc <= nc' <= nc + k)%nat
    /\ (forall j, (nc <= j < nc')%nat ->
                  (t_xnew t - xs.[j] <? 0) = false
                  /\ forall i, (i < nd)%nat -> ys'.[j * nd + i] = (grid_row xs x h y t j).[i])
    /\ (forall p, (p < nc * nd \/ nc' * nd <= p)%nat -> ys'.[p] = ys.[p])
    /\ ((nc' < nc + k)%nat -> (t_xnew t - xs.[nc'] <? 0) = true).
Proof.
  induction k as [|k IH]; intros x h y t ys nc ys' nc' Hlen Hnc Ht Hy H; cbn [emit_fixed] in H.
  - injection H as <- <-. split; [exact Hlen|]. split; [lia|].
    split; [intros j Hj; lia|]. split; [reflexivity|]. intros Hlt. lia.
  - destruct (t_xnew t - xs.[nc] <? 0) eqn:Hbeyond.
    + injection H as <- <-. split; [exact Hlen|]. split; [lia|].
      split; [intros j Hj; lia|]. split; [reflexivity|]. intros _. exact Hbeyond.
    + fold (grid_row xs x h y t nc) in H.
      pose proof (length_grid_row x h y t nc Ht Hy) as Hrow.
      assert (Hfit : ((nc + 1) * nd <= List.length ys)%nat) by nia.
      assert (Hlen1 : List.length (write_row nd ys nc (grid_row xs x h y t nc)) = (nx * nd)%nat)
        by (rewrite length_write_row; assumption).
      destruct (IH x h y t _ (S nc) ys' nc' Hlen1 ltac:(lia) Ht Hy H)
        as (Hl & Hb & Hrows & Hrest & Hstop).
      split; [exact Hl|]. split; [lia|]. split; [|split].
      * intros j Hj. destruct (Nat.eq_dec j nc) as [->|Hne].
        -- split; [exact Hbeyond|]. intros i Hi.
           rewrite Hrest by (left; nia).
           rewrite idx_write_row by assumption.
           replace ((nc * nd <=? nc * nd + i)%nat) with true
             by (symmetry; apply Nat.leb_le; lia).
           replace ((nc * nd + i <? (nc + 1) * nd)%nat) with true
             by (symmetry; apply Nat.ltb_lt; nia).
           cbn [andb]. f_equal. lia.
        -- apply Hrows. lia.
      * intros p Hp. rewrite Hrest by (destruct Hp; [left|right]; nia).
        rewrite idx_write_row by assumption.
        destruct Hp as [Hp|Hp].
        -- replace ((nc * nd <=? p)%nat) with false
             by (symmetry; apply Nat.leb_gt; lia). reflexivity.
        -- replace ((p <? (nc + 1) * nd)%nat) with false
             by (symmetry; apply Nat.ltb_ge; nia). rewrite andb_false_r. reflexivity.
      * intros Hlt. apply Hstop. lia.
Qed.

End Grid.

Section FixedRun.

Variable pow : float -> float -> float.
Variable dydx : float -> vec -> vec.
Variables (nd nx : nat) (xs : vec).
Variables (relerr threshold hmax xend : float).

Local Abbreviation step' := (step pow dydx nd nx xs true relerr threshold hmax xend).
Local Abbreviation steps' := (steps pow dydx nd nx xs true relerr threshold hmax xend).

Lemma step_fixed (tries : nat) (st : loop_state) :
  fixed_invariant nd nx xs st ->
  match step' tries st with
  | StepStuck => True
  | StepReturn ret => fixed_return nd nx xs ret
  | StepNext st' => fixed_invariant nd nx xs st'
  end.
Proof.
  intros (Hlen & Hnc & Hy & Hxs). unfold step.
  destruct (clamp hmax xend (st_x st) (st_h st)) as [[hmin h0] done0].
  destruct (attempts pow dydx nd relerr threshold tries (st_x st) hmin (st_y st) (st_f1 st)
                     h0 done0 false (incr_Steps (st_stats st)))
    as [[h done rejected t stats|stats]|] eqn:Ha; [| |exact I].
  - destruct (attempts_trial _ _ _ _ _ _ _ _ _ _ _ _ _ _ _ _ _ _ _ Ha) as (Ht & _).
    assert (Hyn : List.length (t_ynew t) = nd)
      by (rewrite Ht; apply length_attempt_ynew).
    unfold emit.
    destruct (emit_fixed nd xs (nx - st_nc st) (st_x st) h (st_y st) t (st_ys st) (st_nc st))
      as [ys' nc'] eqn:He.
    assert (Hk : (st_nc st + (nx - st_nc st) <= nx)%nat) by lia.
    destruct (emit_fixed_spec nd nx xs _ _ _ _ _ _ _ _ _ Hlen Hk Hyn Hy He)
      as (Hl & Hb & _).
    destruct done.
    + intros _. cbn. exists ys'. rewrite Hxs. auto.
    + repeat split; cbn; try assumption. lia.
  - intros Herr. discriminate Herr.
Qed.

Lemma steps_fixed (tries fuel : nat) :
  forall (st : loop_state) (ret : returned),
    fixed_invariant nd nx xs st -> steps' tries fuel st = Return ret ->
    fixed_return nd nx xs ret.
Proof.
  induction fuel as [|fuel IH]; intros st ret Hinv H; cbn [steps] in H; [discriminate|].
  pose proof (step_fixed tries st Hinv) as Hs.
  destruct (step' tries st) as [|ret0|st']; [discriminate| |].
  - injection H as <-. exact Hs.
  - eapply IH; eassumption.
Qed.

End FixedRun.

(** C6.  In fixed-output mode a successful call returns [ys] with
    [len(xs) * nd] entries, a row of [nd] for each grid point, beside the grid
    itself; and an accepted step fills, from the first row not yet written,
    the rows of the grid points that are not beyond [xnew] and no other entry:
    the row of a grid point equal to [xnew] is [ynew] itself, every other one
    is what [interpolate] gives at that point.  The loop stops at the first
    grid point beyond [xnew]; a grid point equal to [xnew] that has no
    unwritten grid point beyond [xnew] before it is reached and gets [ynew]. *)
Theorem fixed_grid_output :
  (forall pow dydx (fuel : nat) (self : Integrator) (y0 xs : vec) (ret : returned),
      (2 < List.length xs)%nat ->
      ComputeWithStats pow dydx fuel self y0 xs = Return ret ->
      ret_err ret = None ->
      exists ys,
        ret_ys ret = Some ys
        /\ List.length ys = (List.length xs * List.length y0)%nat
        /\ ret_xs ret = Some xs)
  /\ (forall (nd nx : nat) (xs : vec) (x h : float) (y : vec) (t : trial)
             (ys xs_out : vec) (nc : nat),
         List.length ys = (nx * nd)%nat -> (nc <= nx)%nat ->
         List.length (t_ynew t) = nd -> List.length y = nd ->
         exists ys' nc',
           emit nd nx xs true x h y t ys xs_out nc = (ys', xs_out, nc')
           /\ (nc <= nc' <= nx)%nat
           /\ (forall j i,
                  (nc <= j < nc')%nat -> (i < nd)%nat ->
                  (t_xnew t - xs.[j] <? 0) = false
                  /\ ys'.[j * nd + i]
                     = (if xs.[j] =? t_xnew t then t_ynew t
                        else interpolate x y (t_f t) h xs.[j]).[i])
           /\ (forall p, (p < nc * nd \/ nc' * nd <= p)%nat -> ys'.[p] = ys.[p])
           /\ ((nc' < nx)%nat -> (t_xnew t - xs.[nc'] <? 0) = true)
           /\ (forall k,
                  (nc <= k < nx)%nat ->
                  (forall j, (nc <= j < k)%nat -> (t_xnew t - xs.[j] <? 0) = false) ->
                  (xs.[k] =? t_xnew t) = true ->
                  (k < nc')%nat
                  /\ forall i, (i < nd)%nat -> ys'.[k * nd + i] = (t_ynew t).[i])).
Proof.
  split.
  - intros pow dydx fuel self y0 xs ret Hnx Hrun Herr.
    destruct xs as [|x rest]; [discriminate|].
    rewrite ComputeWithStats_unfold in Hrun. cbv zeta in Hrun.
    destruct ((TryStep (config self) =? 0) && _); [discriminate|].
    assert (Hfixed : (2 <? List.length (x :: rest))%nat = true)
      by (apply Nat.ltb_lt; exact Hnx).
    rewrite !Hfixed in Hrun.
    eapply steps_fixed in Hrun; [exact (Hrun Herr)|].
    repeat split; cbn [st_ys st_nc st_y st_xs]; try lia.
    rewrite length_write_row; [apply repeat_length|reflexivity|].
    rewrite repeat_length. nia.
  - intros nd nx xs x h y t ys xs_out nc Hlen Hnc Ht Hy. unfold emit.
    destruct (emit_fixed nd xs (nx - nc) x h y t ys nc) as [ys' nc'] eqn:He.
    assert (Hk : (nc + (nx - nc) <= nx)%nat) by lia.
    destruct (emit_fixed_spec nd nx xs _ _ _ _ _ _ _ _ _ Hlen Hk Ht Hy He)
      as (Hl & Hb & Hrows & Hrest & Hstop).
    exists ys', nc'. split; [reflexivity|]. split; [lia|]. split; [|split; [|split]].
    + intros j i Hj Hi. destruct (Hrows j Hj) as (Hreach & Hrow).
      split; [exact Hreach | exact (Hrow i Hi)].
    + exact Hrest.
    + intros Hlt. apply Hstop. lia.
    + intros k Hk' Hbefore Heq.
      assert (Hin : (k < nc')%nat).
      { destruct (Nat.lt_ge_cases k nc') as [Hlt|Hge]; [exact Hlt|].
        assert (Hs : (t_xnew t - xs.[nc'] <? 0) = true) by (apply Hstop; lia).
        destruct (Nat.eq_dec nc' k) as [->|Hne].
        - rewrite (equal_not_beyond _ _ Heq) in Hs. discriminate Hs.
        - rewrite Hbefore in Hs by lia. discriminate Hs. }
      split; [exact Hin|]. intros i Hi.
      destruct (Hrows k ltac:(lia)) as (_ & Hrow).
      rewrite (Hrow i Hi). unfold grid_row. rewrite Heq. reflexivity.
Qed.

(** ** Construction (section 6) *)

Lemma Prim2SF_nan : Prim2SF nan = S754_nan.
Proof. reflexivity. Qed.

Lemma not_negative_number (x : float) :
  is_nan x = false -> (x <? 0) = negb (0 <=? x).
Proof.
  unfold is_nan. to_spec.
  destruct (Prim2SF x) as [[|]|[|]| |[|] m e]; intros H; try reflexivity; discriminate H.
Qed.

Lemma not_positive_number (x : float) :
  is_nan x = false -> (x <=? 0) = negb (0 <? x).
Proof.
  unfold is_nan. to_spec.
  destruct (Prim2SF x) as [[|]|[|]| |[|] m e]; intros H; try reflexivity; discriminate H.
Qed.

(** [New] fails exactly on the bounds of [verify]. *)
Lemma New_fails_iff (c : Config) :
  snd (New c) <> None
  <-> (TryStep c <? 0) = true \/ (MaxStep c <? 0) = true
      \/ (AbsError c <=? 0) = true \/ (RelError c <=? 0) = true.
Proof.
  unfold New, verify.
  destruct (TryStep c <? 0); [cbn; split; [auto | discriminate]|].
  destruct (MaxStep c <? 0); [cbn; split; [auto | discriminate]|].
  destruct (AbsError c <=? 0); [cbn; split; [auto | discriminate]|].
  destruct (RelError c <=? 0); [cbn; split; [auto 6 | discriminate]|].
  cbn. split; [intros H; contradiction H; reflexivity|].
  intros [H|[H|[H|H]]]; discriminate H.
Qed.

(** X11.  On a configuration of numbers (no NaN), [New] fails exactly when a
    bound of section 6 is violated, and otherwise returns an integrator that
    holds the configuration. *)
Lemma New_rejects_invalid_numbers (c : Config) :
  config_of_numbers c ->
  (snd (New c) <> None <-> ~ config_valid c)
  /\ (config_valid c -> New c = (Some {| config := c |}, None)).
Proof.
  intros (Ht & Hm & Ha & Hr). unfold config_valid.
  pose proof (not_negative_number _ Ht) as Et.
  pose proof (not_negative_number _ Hm) as Em.
  pose proof (not_positive_number _ Ha) as Ea.
  pose proof (not_positive_number _ Hr) as Er.
  split.
  - rewrite New_fails_iff, Et, Em, Ea, Er.
    destruct (0 <=? TryStep c), (0 <=? MaxStep c), (0 <? AbsError c), (0 <? RelError c);
      cbn; intuition congruence.
  - intros (Vt & Vm & Va & Vr). unfold New, verify.
    rewrite Et, Em, Ea, Er, Vt, Vm, Va, Vr. reflexivity.
Qed.

Lemma mul_nan_l (a : float) : nan * a = nan.
Proof. apply Prim2SF_inj. rewrite mul_spec, Prim2SF_nan. reflexivity. Qed.

Lemma mul_nan_r (a : float) : a * nan = nan.
Proof.
  apply Prim2SF_inj. rewrite mul_spec, Prim2SF_nan.
  destruct (Prim2SF a); reflexivity.
Qed.

Lemma div_nan_l (a : float) : nan / a = nan.
Proof. apply Prim2SF_inj. rewrite div_spec, Prim2SF_nan. reflexivity. Qed.

Lemma ltb_nan_l (a : float) : (nan <? a) = false.
Proof. rewrite ltb_spec, Prim2SF_nan. reflexivity. Qed.

Lemma ltb_nan_r (a : float) : (a <? nan) = false.
Proof. rewrite ltb_spec, Prim2SF_nan. destruct (Prim2SF a); reflexivity. Qed.

Lemma leb_nan_r (a : float) : (a <=? nan) = false.
Proof. rewrite leb_spec, Prim2SF_nan. destruct (Prim2SF a); reflexivity. Qed.

Lemma component_error_nan (threshold : float) (y ynew : vec) (f : stages) (i : nat) :
  component_error threshold nan y ynew f i = nan.
Proof. unfold component_error. cbv zeta. rewrite mul_nan_l, div_nan_l. reflexivity. Qed.

(** With a NaN step size no component raises the error estimate. *)
Lemma error_estimate_nan (nd : nat) (threshold : float) (y ynew : vec) (f : stages) :
  error_estimate nd threshold nan y ynew f = 0.
Proof.
  unfold error_estimate. generalize (seq 0 nd). intros l.
  induction l as [|i l IH]; cbn [fold_left]; [reflexivity|].
  rewrite component_error_nan, ltb_nan_r. exact IH.
Qed.

Lemma clamp_nan (hmax xend x : float) :
  clamp hmax xend x nan = (16 * epsilon x, nan, false).
Proof.
  unfold clamp. rewrite ltb_nan_l, ltb_nan_r, mul_nan_r, leb_nan_r. reflexivity.
Qed.

Section NaNStep.

Variable pow : float -> float -> float.
Variable dydx : float -> vec -> vec.
Variables (nd nx : nat) (xs : vec) (fixed : bool).
Variables (relerr threshold hmax xend : float).
Hypothesis relerr_not_negative : (0 <=? relerr) = true.

(** A NaN step size is accepted at once, is never the last one and stays. *)
Lemma step_nan (tries : nat) (st : loop_state) :
  st_h st = nan ->
  match step pow dydx nd nx xs fixed relerr threshold hmax xend tries st with
  | StepStuck => True
  | StepReturn _ => False
  | StepNext st' => st_h st' = nan
  end.
Proof.
  intros Hh. unfold step. rewrite Hh, clamp_nan.
  destruct tries as [|tries]; cbn [attempts]; [exact I|].
  unfold pass. unfold attempt at 1. cbn [t_eps].
  rewrite error_estimate_nan, relerr_not_negative.
  destruct (emit _ _ _ _ _ _ _ _ _ _ _) as [[ys xs_out] nc].
  cbn [st_h]. unfold grow. rewrite div_nan_l, mul_nan_r.
  destruct (0.2 <? _); reflexivity.
Qed.

Lemma steps_nan (tries fuel : nat) :
  forall st, st_h st = nan ->
    steps pow dydx nd nx xs fixed relerr threshold hmax xend tries fuel st = OutOfFuel.
Proof.
  induction fuel as [|fuel IH]; intros st Hh; cbn [steps]; [reflexivity|].
  pose proof (step_nan tries st Hh) as Hs.
  destruct (step _ _ _ _ _ _ _ _ _ _ _ _) as [|ret|st']; [reflexivity|contradiction|].
  apply IH, Hs.
Qed.

End NaNStep.

(** C8.  [New] accepts a configuration whose [TryStep] is a NaN, although
    [TryStep >= 0] does not hold of it; and with that configuration no call of
    [ComputeWithStats] on a grid ever returns, whatever the budget. *)
Theorem New_accepts_NaN_step :
  New nan_step_config = (Some {| config := nan_step_config |}, None)
  /\ (0 <=? TryStep nan_step_config) = false
  /\ (forall pow dydx (fuel : nat) (y0 : vec) (x : float) (rest : vec),
         ComputeWithStats pow dydx fuel {| config := nan_step_config |} y0 (x :: rest)
         = OutOfFuel).
Proof.
  split; [reflexivity|]. split; [reflexivity|].
  intros pow dydx fuel y0 x rest.
  rewrite ComputeWithStats_unfold. cbv zeta.
  change (TryStep (config {| config := nan_step_config |}) =? 0) with false.
  cbn [andb]. apply steps_nan; reflexivity.
Qed.

(** * Further properties of the code

    What the two packages do beyond the claims above: the ways a call ends,
    the shape of what it returns, and the corners of the arithmetic. *)

(** ** More floating-point facts *)

Lemma is_nan_spec (a : float) :
  is_nan a = match Prim2SF a with S754_nan => true | _ => false end.
Proof.
  unfold is_nan. rewrite eqb_spec.
  destruct (Prim2SF a) as [[|]|[|]| |[|] m e]; try reflexivity;
    unfold SFeqb, SFcompare;
    change (PosDef.Pos.compare_cont Eq m m) with (Pos.compare m m);
    rewrite Z.compare_refl, Pos.compare_refl; reflexivity.
Qed.

Lemma is_nan_eq (a : float) : is_nan a = true -> a = nan.
Proof.
  rewrite is_nan_spec. intros H. apply Prim2SF_inj.
  destruct (Prim2SF a); try discriminate H. reflexivity.
Qed.

Lemma above_not_negative (a e : float) :
  (0 <=? a) = true -> (a <? e) = true -> (0 <=? e) = true.
Proof.
  to_spec. sf_cases a; sf_cases e; sf_unfold; intros Ha He;
    try discriminate; try reflexivity.
Qed.

Lemma not_negative_is_number (a : float) : (0 <=? a) = true -> is_nan a = false.
Proof.
  rewrite is_nan_spec. to_spec. sf_cases a; sf_unfold; intros Ha; try discriminate; try reflexivity.
Qed.

Lemma add_nan_r (a : float) : a + nan = nan.
Proof.
  apply Prim2SF_inj. rewrite add_spec, Prim2SF_nan.
  destruct (Prim2SF a); reflexivity.
Qed.

Lemma opp_involutive (x : float) : - - x = x.
Proof.
  apply Prim2SF_inj. rewrite !opp_spec. destruct (Prim2SF x) as [s|s| |s m e]; cbn;
    rewrite ?negb_involutive; reflexivity.
Qed.

Lemma Prim2SF_zero_cases (x : float) (s : bool) :
  Prim2SF x = S754_zero s -> x = (if s then -0 else 0).
Proof.
  intros H. apply Prim2SF_inj. rewrite H. destruct s; reflexivity.
Qed.

Lemma Prim2SF_infinity_cases (x : float) (s : bool) :
  Prim2SF x = S754_infinity s -> x = (if s then neg_infinity else infinity).
Proof.
  intros H. apply Prim2SF_inj. rewrite H. destruct s; reflexivity.
Qed.

Lemma Prim2SF_half : Prim2SF 0.5 = S754_finite false 4503599627370496 (-53).
Proof. reflexivity. Qed.

Lemma digits2_pos_size (p : positive) : digits2_pos p = Pos.size p.
Proof. induction p; cbn; congruence. Qed.

Lemma digits2_log2 (p : positive) : Zpos (digits2_pos p) = Z.succ (Z.log2 (Zpos p)).
Proof.
  rewrite digits2_pos_size. destruct p; cbn; lia.
Qed.

(** Halving in the normal range: the exponent goes down by one. *)
Lemma halve_normal (s : bool) (m : positive) (e : Z) :
  bounded prec emax m e = true -> (-1074 < e)%Z ->
  SFmul prec emax (S754_finite false 4503599627370496 (-53)) (S754_finite s m e)
  = S754_finite s m (e - 1).
Proof.
  unfold bounded, canonical_mantissa, fexp, emin, prec, emax.
  intros Hb He. apply andb_prop in Hb. destruct Hb as (Hc & Hm).
  apply Z.eqb_eq in Hc. apply Z.leb_le in Hm.
  assert (Hd : Zpos (digits2_pos m) = 53%Z) by lia.
  unfold SFmul. cbn [xorb Pos.mul].
  unfold binary_round_aux, shr_fexp, fexp, emin.
  cbn [Zdigits2 digits2_pos].
  match goal with |- context [shr ?r ?e0 ?n] => replace n with 52%Z by lia end.
  cbn [shr_record_of_loc shr iter_pos shr_1 orb].
  cbn [shr_m loc_of_shr_record round_nearest_even Zdigits2].
  match goal with |- context [shr ?r ?e0 ?n] => replace n with 0%Z by lia end.
  cbn [shr shr_record_of_loc shr_m].
  replace (-53 + e + 52 <=? 1024 - 53)%Z with true by (symmetry; apply Z.leb_le; lia).
  f_equal. lia.
Qed.

(** Halving at the least exponent: the mantissa is halved, to the nearest
    even when it is odd. *)
Lemma halve_subnormal (s : bool) (m : positive) :
  bounded prec emax m (-1074) = true ->
  match SFmul prec emax (S754_finite false 4503599627370496 (-53)) (S754_finite s m (-1074)) with
  | S754_zero _ => m = 1%positive
  | S754_finite _ m' e' =>
      e' = (-1074)%Z /\ (2 * Zpos m' <= Zpos m + 1)%Z /\ (Zpos m' < Zpos m)%Z
  | _ => False
  end.
Proof.
  unfold bounded, canonical_mantissa, fexp, emin, prec, emax.
  intros Hb. apply andb_prop in Hb. destruct Hb as (Hc & _).
  apply Z.eqb_eq in Hc.
  assert (Hd : (Zpos (digits2_pos m) <= 53)%Z) by lia.
  unfold SFmul. cbn [xorb Pos.mul].
  unfold binary_round_aux, shr_fexp, fexp, emin.
  cbn [Zdigits2 digits2_pos].
  match goal with |- context [shr ?r ?e0 ?n] => replace n with 53%Z by lia end.
  destruct m as [p|p|]; cbn [shr_record_of_loc shr iter_pos shr_1 orb];
    cbn [shr_m loc_of_shr_record round_nearest_even Zdigits2].
  - (* m = 2p + 1 *)
    cbn [digits2_pos] in Hd.
    assert (Hp : (Zpos (digits2_pos p) <= 52)%Z) by lia.
    destruct (Z.even (Z.pos p)) eqn:Hev.
    + cbn [Zdigits2].
      match goal with |- context [shr ?r ?e0 ?n] => replace n with 0%Z by lia end.
      cbn [shr shr_record_of_loc shr_m]. cbn. lia.
    + replace (Z.pos p + 1)%Z with (Z.pos (p + 1)) by lia. cbn [Zdigits2].
      assert (Hp1 : (Zpos (digits2_pos (p + 1)) <= 53)%Z).
      { rewrite digits2_log2 in *.
        assert (Hlt : (Z.pos p < 2 ^ 52)%Z) by (apply Z.log2_lt_pow2; lia).
        assert (Hle : (Z.log2 (Z.pos (p + 1)) <= Z.log2 (2 ^ 52))%Z)
          by (apply Z.log2_le_mono; lia).
        rewrite Z.log2_pow2 in Hle by lia. lia. }
      match goal with |- context [shr ?r ?e0 ?n] => replace n with 0%Z by lia end.
      cbn [shr shr_record_of_loc shr_m]. cbn. lia.
  - cbn [digits2_pos] in Hd.
    match goal with |- context [shr ?r ?e0 ?n] => replace n with 0%Z by lia end.
    cbn [shr shr_record_of_loc shr_m]. cbn. lia.
  - cbn. reflexivity.
Qed.

Lemma finite_bounded (h : float) (s : bool) (m : positive) (e : Z) :
  Prim2SF h = S754_finite s m e ->
  bounded prec emax m e = true /\ (-1074 <= e <= 971)%Z /\ (Zpos (digits2_pos m) <= 53)%Z.
Proof.
  intros E. pose proof (Prim2SF_valid h) as V. rewrite E in V. cbn [valid_binary] in V.
  split; [exact V|]. unfold bounded, canonical_mantissa, fexp, emin, prec, emax in V.
  apply andb_prop in V. destruct V as (Hc & Hm).
  apply Z.eqb_eq in Hc. apply Z.leb_le in Hm. lia.
Qed.

Lemma halvings_bound (h : float) : (halvings h <= 2099)%nat.
Proof.
  unfold halvings. destruct (Prim2SF h) as [s|s| |s m e] eqn:E; try lia.
  destruct (finite_bounded h s m e E) as (_ & He & Hd).
  rewrite digits2_log2 in Hd.
  pose proof (Z.le_log2_up_succ_log2 (Zpos m)). lia.
Qed.

Lemma log2_up_half (a b : Z) :
  (0 < b < a)%Z -> (2 * b <= a + 1)%Z -> (Z.log2_up b < Z.log2_up a)%Z.
Proof.
  intros Hab H2.
  assert (Ha : (1 < a)%Z) by lia.
  destruct (Z.log2_up_spec a Ha) as (_ & Hup).
  assert (Hc : (0 < Z.log2_up a)%Z) by (apply Z.log2_up_pos; lia).
  assert (Hpow : (2 ^ Z.log2_up a = 2 * 2 ^ (Z.log2_up a - 1))%Z).
  { rewrite <- Z.pow_succ_r by lia. f_equal. lia. }
  assert (Hb : (b <= 2 ^ (Z.log2_up a - 1))%Z) by lia.
  apply Z.log2_up_le_pow2 in Hb; lia.
Qed.

(** Half of a finite number that is not zero is finite and nearer to zero. *)
Lemma halve_measure (h : float) :
  finite_number h -> ~ is_zero h ->
  finite_number (0.5 * h) /\ (halvings (0.5 * h) < halvings h)%nat.
Proof.
  unfold finite_number, halvings, is_zero. rewrite mul_spec, Prim2SF_half.
  unfold SF64mul.
  destruct (Prim2SF h) as [s|s| |s m e] eqn:E; try contradiction.
  - intros _ H. contradiction H. eauto.
  - intros _ _. destruct (finite_bounded h s m e E) as (Hb & He & Hd).
    pose proof (Z.log2_up_nonneg (Zpos m)) as Hc.
    destruct (Z.eq_dec e (-1074)) as [->|Hne].
    + pose proof (halve_subnormal s m Hb) as Hs.
      destruct (SFmul prec emax _ _) as [s'|s'| |s' m' e']; try contradiction.
      * split; [exact I | lia].
      * destruct Hs as (-> & H2 & Hlt). split; [exact I|].
        pose proof (log2_up_half (Zpos m) (Zpos m') ltac:(lia) H2).
        pose proof (Z.log2_up_nonneg (Zpos m')). lia.
    + rewrite halve_normal by (assumption || lia). split; [exact I | lia].
Qed.

Lemma leb_refl_of_ltb (a b : float) : (a <? b) = true -> (b <=? b) = true.
Proof.
  to_spec. destruct (Prim2SF b) as [sb|sb| |sb mb eb]; sf_cases a; intros H;
    try discriminate H; try (destruct sb; reflexivity);
    unfold SFleb, SFcompare;
    change (PosDef.Pos.compare_cont Eq mb mb) with (Pos.compare mb mb);
    rewrite Z.compare_refl, Pos.compare_refl; destruct sb; reflexivity.
Qed.

(** With a step size of zero every component error is a zero or a NaN. *)
Lemma component_error_zero_step (threshold h : float) (y ynew : vec) (f : stages) (i : nat) :
  is_zero h -> (0 <? component_error threshold h y ynew f i) = false.
Proof.
  intros (s & Hh). unfold component_error. cbv zeta.
  match goal with |- (0 <? h * ?e / ?sc) = false => generalize e sc end.
  intros e sc. rewrite ltb_spec, div_spec, mul_spec, Hh.
  change (Prim2SF 0) with (S754_zero false).
  destruct (Prim2SF e) as [se|se| |se me ee]; destruct (Prim2SF sc) as [ss|ss| |ss ms es];
    reflexivity.
Qed.

Lemma error_estimate_zero_step (nd : nat) (threshold h : float) (y ynew : vec) (f : stages) :
  is_zero h -> error_estimate nd threshold h y ynew f = 0.
Proof.
  intros Hh. unfold error_estimate. generalize (seq 0 nd). intros l.
  induction l as [|i l IH]; cbn [fold_left]; [reflexivity|].
  cbv zeta. rewrite (component_error_zero_step threshold h y ynew f i Hh). exact IH.
Qed.

(** ** The statistics of an underflow *)

Section Underflow.

Variable pow : float -> float -> float.
Variable dydx : float -> vec -> vec.

(** X2.  The statistics returned with the underflow error: at least one
    step and one rejection, and [Evaluations = 6 * (Steps + Rejections) - 5],
    the last step having no accepted pass; in every run in which no counter
    wraps around, that is whenever the number of evaluations of the run is
    below 2^64. *)
Theorem underflow_statistics (fuel : nat) (self : Integrator) (y0 xs : vec)
        (ret : returned) (s : Stats) :
  ComputeWithStats pow dydx fuel self y0 xs = Return ret ->
  ret_err ret <> None ->
  ret_stats ret = Some s ->
  (Evaluations (ComputeWithStats_tally pow dydx fuel self y0 xs) < uint_modulus)%N ->
  (1 <= Steps s /\ 1 <= Rejections s
   /\ Evaluations s + 5 = 6 * (Steps s + Rejections s))%N.
Proof.
  intros Hrun Herr Hst Hsmall.
  destruct (ComputeWithStats_tally_spec _ _ _ _ _ _ _ Hrun)
    as (s' & Hst' & Hc & HS & _ & Hfail).
  rewrite Hst in Hst'. injection Hst' as <-.
  destruct (Hfail Herr) as (HR & HE).
  assert (s = ComputeWithStats_tally pow dydx fuel self y0 xs)
    by (apply counted_small; [exact Hc|lia|lia|exact Hsmall]).
  subst s. lia.
Qed.

End Underflow.

(** ** The error estimate and the inner loop *)

(** X3.  The error estimate of a pass is a number and is not negative,
    whatever the state, the step size and the derivatives are: a component
    whose error is a NaN leaves the running maximum alone. *)
Theorem error_estimate_not_negative (nd : nat) (threshold h : float) (y ynew : vec)
        (f : stages) :
  (0 <=? error_estimate nd threshold h y ynew f) = true
  /\ is_nan (error_estimate nd threshold h y ynew f) = false.
Proof.
  assert (H : (0 <=? error_estimate nd threshold h y ynew f) = true).
  { unfold error_estimate.
    assert (G : forall l a, (0 <=? a) = true ->
                (0 <=? fold_left
                         (fun eps i => let e := component_error threshold h y ynew f i in
                                       if eps <? e then e else eps) l a) = true).
    { intros l. induction l as [|i l IH]; intros a Ha; cbn [fold_left]; [exact Ha|].
      apply IH. cbv zeta.
      destruct (a <? component_error threshold h y ynew f i) eqn:E; [|exact Ha].
      exact (above_not_negative _ _ Ha E). }
    apply G. reflexivity. }
  split; [exact H | exact (not_negative_is_number _ H)].
Qed.

Lemma component_error_nan_f7 (threshold h : float) (y ynew : vec) (f : stages) (i : nat) :
  is_nan ((s_f7 f).[i]) = true -> component_error threshold h y ynew f i = nan.
Proof.
  intros H. apply is_nan_eq in H. unfold component_error. cbv zeta.
  rewrite H, mul_nan_r, add_nan_r, ltb_nan_l, mul_nan_r, div_nan_l. reflexivity.
Qed.

Lemma error_estimate_ignores_nan (nd : nat) (threshold h : float) (y ynew : vec) (f : stages) :
  (forall i, (i < nd)%nat -> component_error threshold h y ynew f i = nan) ->
  error_estimate nd threshold h y ynew f = 0.
Proof.
  intros H. unfold error_estimate.
  assert (Hl : forall i, In i (seq 0 nd) -> component_error threshold h y ynew f i = nan)
    by (intros i Hi; apply H; apply in_seq in Hi; lia).
  revert Hl. generalize (seq 0 nd). intros l.
  induction l as [|i l IH]; intros Hl; cbn [fold_left]; [reflexivity|].
  rewrite (Hl i (or_introl eq_refl)), ltb_nan_r. apply IH.
  intros j Hj. apply Hl. right. exact Hj.
Qed.

(** X4.  When the derivative at the end of a trial step is a NaN in every
    component, the error estimate of the pass is 0 and the pass is accepted
    (for a tolerance that is not negative). *)
Theorem nan_derivative_is_accepted pow dydx (nd : nat) (relerr threshold x hmin : float)
        (y f1 : vec) (h : float) (rejected : bool) (stats : Stats) :
  let t := attempt dydx nd threshold x h y f1 in
  (forall i, (i < nd)%nat -> is_nan ((dydx (t_xnew t) (t_ynew t)).[i]) = true) ->
  (0 <=? relerr) = true ->
  t_eps t = 0
  /\ pass pow dydx nd relerr threshold x hmin y f1 h rejected stats
     = PassBreak t (add_Evaluations 6 stats).
Proof.
  intros t Hnan Hrel.
  assert (He : t_eps t = 0).
  { unfold t, attempt. cbn [t_eps]. apply error_estimate_ignores_nan.
    intros i Hi. apply component_error_nan_f7. cbn [s_f7]. apply (Hnan i Hi). }
  split; [exact He|].
  unfold pass. fold t. rewrite He, Hrel. reflexivity.
Qed.

Section Halving.
Variable pow : float -> float -> float.
Variable dydx : float -> vec -> vec.
Variables (nd : nat) (relerr threshold : float).
Variables (x hmin : float) (y f1 : vec).
Hypothesis relerr_not_negative : (0 <=? relerr) = true.

Lemma attempts_at_hmin (n : nat) (h : float) (done rejected : bool) (stats : Stats) :
  (h <=? hmin) = true ->
  exists res,
    attempts pow dydx nd relerr threshold (S n) x hmin y f1 h done rejected stats = Some res.
Proof.
  intros Hle. cbn [attempts]. unfold pass. cbv zeta.
  destruct (t_eps (attempt dydx nd threshold x h y f1) <=? relerr); [eauto|].
  rewrite Hle. eauto.
Qed.

Lemma attempts_halving (n : nat) :
  forall (h : float) (done : bool) (stats : Stats),
    finite_number h -> (halvings h + 2 <= n)%nat ->
    exists res,
      attempts pow dydx nd relerr threshold n x hmin y f1 h done true stats = Some res.
Proof.
  induction n as [|n IH]; intros h done stats Hfin Hn; [lia|].
  cbn [attempts]. unfold pass. cbv zeta.
  destruct (t_eps (attempt dydx nd threshold x h y f1) <=? relerr) eqn:Hacc; [eauto|].
  destruct (h <=? hmin) eqn:Hmin; [eauto|].
  assert (Hnz : ~ is_zero h).
  { intros Hz. unfold attempt in Hacc. cbn [t_eps] in Hacc.
    rewrite (error_estimate_zero_step _ _ _ _ _ _ Hz), relerr_not_negative in Hacc.
    discriminate Hacc. }
  destruct (halve_measure h Hfin Hnz) as (Hfin' & Hlt).
  unfold shrink. cbv zeta.
  destruct (0.5 * h <? hmin) eqn:Hlow.
  - destruct n as [|n]; [lia|]. apply attempts_at_hmin.
    exact (leb_refl_of_ltb _ _ Hlow).
  - apply IH; [exact Hfin' | lia].
Qed.

End Halving.

(** X5.  Once a pass was rejected the inner loop ends, whatever the
    derivative and [pow] are: from a finite step size, halved at every further
    rejection, it accepts a step or reports the underflow within 2101 passes
    (for a tolerance that is not negative). *)
Theorem inner_loop_ends_after_a_rejection pow dydx (nd : nat) (relerr threshold : float)
        (x hmin : float) (y f1 : vec) (h : float) (done : bool) (stats : Stats)
        (fuel : nat) :
  (0 <=? relerr) = true ->
  finite_number h ->
  (2101 <= fuel)%nat ->
  exists res,
    attempts pow dydx nd relerr threshold fuel x hmin y f1 h done true stats = Some res.
Proof.
  intros Hrel Hfin Hfuel. apply attempts_halving; [exact Hrel | exact Hfin |].
  pose proof (halvings_bound h). lia.
Qed.

(** ** The output grid *)

Section Path.
Variable pow : float -> float -> float.
Variable dydx : float -> vec -> vec.
Variables (nd : nat) (relerr threshold hmax xend : float).
Variables (nx nx' : nat) (xs xs' : vec) (fixed fixed' : bool).

Lemma step_same_course (tries : nat) (st st' : loop_state) :
  same_course st st' ->
  match step pow dydx nd nx xs fixed relerr threshold hmax xend tries st,
        step pow dydx nd nx' xs' fixed' relerr threshold hmax xend tries st' with
  | StepStuck, StepStuck => True
  | StepReturn r, StepReturn r' => ret_stats r = ret_stats r' /\ ret_err r = ret_err r'
  | StepNext a, StepNext b => same_course a b
  | _, _ => False
  end.
Proof.
  intros (Hx & Hh & Hy & Hf & Hs). unfold step. rewrite <- Hx, <- Hh, <- Hy, <- Hf, <- Hs.
  destruct (clamp hmax xend (st_x st) (st_h st)) as [[hmin h0] done0].
  destruct (attempts pow dydx nd relerr threshold tries (st_x st) hmin (st_y st) (st_f1 st)
                     h0 done0 false (incr_Steps (st_stats st)))
    as [[h done rejected t stats|stats]|]; [| |exact I].
  - destruct (emit nd nx xs fixed _ _ _ _ _ _ _) as [[ys xo] nc].
    destruct (emit nd nx' xs' fixed' _ _ _ _ _ _ _) as [[ys' xo'] nc'].
    destruct done; cbn; repeat split; reflexivity.
  - cbn. split; reflexivity.
Qed.

Lemma steps_same_course (tries fuel : nat) :
  forall st st' : loop_state,
    same_course st st' ->
    same_path (steps pow dydx nd nx xs fixed relerr threshold hmax xend tries fuel st)
              (steps pow dydx nd nx' xs' fixed' relerr threshold hmax xend tries fuel st').
Proof.
  induction fuel as [|fuel IH]; intros st st' H; cbn [steps]; [exact I|].
  pose proof (step_same_course tries st st' H) as Hs.
  destruct (step pow dydx nd nx xs fixed relerr threshold hmax xend tries st) as [|r|a],
           (step pow dydx nd nx' xs' fixed' relerr threshold hmax xend tries st') as [|r'|b];
    try contradiction; try exact I.
  - exact Hs.
  - apply IH, Hs.
Qed.

End Path.

(** Two grids with the same ends set the loop off from the same state. *)
Lemma grids_same_path pow dydx (fuel : nat) (self : Integrator)
        (y0 : vec) (x0 : float) (rest rest' : vec) :
  let xs := x0 :: rest in
  let xs' := x0 :: rest' in
  xs.[List.length xs - 1] = xs'.[List.length xs' - 1] ->
  (TryStep (config self) =? 0) = false
  \/ (rest <> [] /\ rest' <> [] /\ xs.[1] = xs'.[1]) ->
  same_path (ComputeWithStats pow dydx fuel self y0 xs)
            (ComputeWithStats pow dydx fuel self y0 xs').
Proof.
  intros xs xs' Hend Hstart. unfold xs, xs'.
  rewrite !ComputeWithStats_unfold. cbv zeta.
  fold xs xs'. rewrite <- Hend.
  destruct Hstart as [Ht|(Hr & Hr' & H1)].
  - rewrite Ht. cbn [andb].
    apply steps_same_course. repeat split.
  - destruct rest as [|x1 rest]; [contradiction Hr; reflexivity|].
    destruct rest' as [|x1' rest']; [contradiction Hr'; reflexivity|].
    replace ((List.length xs <? 2)%nat) with false by reflexivity.
    replace ((List.length xs' <? 2)%nat) with false by reflexivity.
    rewrite !andb_false_r.
    apply steps_same_course. repeat split. cbn [st_h]. rewrite H1. reflexivity.
Qed.

(** X6.  The points asked for do not change the integration.  For two grids
    with the same first and last point (and the same second point, when no
    [TryStep] is configured and the first step is derived from it): whenever
    both calls return, they return the same statistics and the same error;
    and when one of them returns within a budget, the other does not run on
    beyond that budget. *)
Theorem output_grid_does_not_change_the_path pow dydx (fuel : nat) (self : Integrator)
        (y0 : vec) (x0 : float) (rest rest' : vec) :
  let xs := x0 :: rest in
  let xs' := x0 :: rest' in
  xs.[List.length xs - 1] = xs'.[List.length xs' - 1] ->
  (TryStep (config self) =? 0) = false
  \/ (rest <> [] /\ rest' <> [] /\ xs.[1] = xs'.[1]) ->
  (forall ret ret',
      ComputeWithStats pow dydx fuel self y0 xs = Return ret ->
      ComputeWithStats pow dydx fuel self y0 xs' = Return ret' ->
      ret_stats ret = ret_stats ret' /\ ret_err ret = ret_err ret')
  /\ (forall ret,
         ComputeWithStats pow dydx fuel self y0 xs = Return ret ->
         ComputeWithStats pow dydx fuel self y0 xs' <> OutOfFuel).
Proof.
  intros xs xs' Hend Hstart.
  pose proof (grids_same_path pow dydx fuel self y0 x0 rest rest' Hend Hstart) as H.
  fold xs xs' in H.
  destruct (ComputeWithStats pow dydx fuel self y0 xs) as [| |r],
           (ComputeWithStats pow dydx fuel self y0 xs') as [| |r'];
    try contradiction; split; intros; try discriminate.
  - injection H0 as <-. injection H1 as <-. exact H.
Qed.

Section Adaptive.
Variable pow : float -> float -> float.
Variable dydx : float -> vec -> vec.
Variables (nd nx : nat) (xs : vec).
Variables (relerr threshold hmax xend : float).

Lemma pass_Steps x hmin y f1 h rejected (s : Stats) :
  match pass pow dydx nd relerr threshold x hmin y f1 h rejected s with
  | PassBreak _ s' | PassUnderflow s' | PassRetry _ s' => Steps s' = Steps s
  end.
Proof.
  unfold pass. destruct (_ <=? relerr); [reflexivity|]. destruct (h <=? hmin); reflexivity.
Qed.

Lemma attempts_Steps (fuel : nat) :
  forall x hmin y f1 h done rejected (s : Stats) res,
    attempts pow dydx nd relerr threshold fuel x hmin y f1 h done rejected s = Some res ->
    match res with
    | Accepted _ _ _ _ s' | Underflow s' => Steps s' = Steps s
    end.
Proof.
  induction fuel as [|fuel IH]; intros x hmin y f1 h done rejected s res H;
    cbn [attempts] in H; [discriminate|].
  pose proof (pass_Steps x hmin y f1 h rejected s) as Hp.
  destruct (pass pow dydx nd relerr threshold x hmin y f1 h rejected s) as [t0 s0|s0|h0 s0].
  - injection H as <-. exact Hp.
  - injection H as <-. exact Hp.
  - apply IH in H. destruct res; congruence.
Qed.

(** A step that ends the integration was accepted at its first pass, with the
    step size [xend - x]. *)
Lemma last_step_size (tries : nat) x h0 hmin done0 y f1 (s : Stats) h rejected t s' :
  clamp hmax xend x h0 = (hmin, h, done0) ->
  forall h',
    attempts pow dydx nd relerr threshold tries x hmin y f1 h done0 false s
    = Some (Accepted h' true rejected t s') ->
    h' = xend - x /\ rejected = false.
Proof.
  intros Hc h' Ha.
  destruct (attempts_first_pass _ _ _ _ _ _ _ _ _ _ _ _ _ _ _ _ _ _ Ha) as (_ & Hfirst & Hrej).
  destruct rejected; [specialize (Hrej eq_refl); discriminate Hrej|].
  destruct (Hfirst eq_refl) as (-> & <-). split; [|reflexivity].
  unfold clamp in Hc.
  destruct (xend - x <=? _); inversion Hc; reflexivity.
Qed.

Lemma step_adaptive (tries : nat) (x0 : float) (st : loop_state) :
  adaptive_invariant nd x0 st ->
  match step pow dydx nd nx xs false relerr threshold hmax xend tries st with
  | StepStuck => True
  | StepReturn ret => adaptive_return nd x0 xend ret
  | StepNext st' => adaptive_invariant nd x0 st'
  end.
Proof.
  intros (l & Hxs & H0 & Hys & Hy & HS). unfold step.
  destruct (clamp hmax xend (st_x st) (st_h st)) as [[hmin h0] done0] eqn:Hc.
  destruct (attempts pow dydx nd relerr threshold tries (st_x st) hmin (st_y st) (st_f1 st)
                     h0 done0 false (incr_Steps (st_stats st)))
    as [[h done rejected t stats|stats]|] eqn:Ha; [| |exact I].
  - pose proof (attempts_Steps _ _ _ _ _ _ _ _ _ _ Ha) as Hst. cbn in Hst.
    destruct (attempts_trial _ _ _ _ _ _ _ _ _ _ _ _ _ _ _ _ _ _ _ Ha) as (Ht & _).
    assert (Hyn : List.length (t_ynew t) = nd)
      by (rewrite Ht; apply length_attempt_ynew).
    assert (Hsteps : Steps stats = (N.of_nat (List.length l + 1) mod uint_modulus)%N).
    { rewrite Hst. unfold uint_add. rewrite HS, N.Div0.add_mod_idemp_l.
      f_equal. lia. }
    unfold emit.
    destruct done.
    + intros _. cbn.
      destruct (last_step_size _ _ _ _ _ _ _ _ _ _ _ _ Hc _ Ha) as (Hh & _).
      exists (st_ys st ++ t_ynew t), l, (st_x st), stats.
      assert (Hx : t_xnew t = st_x st + (xend - st_x st))
        by (rewrite Ht; cbn [attempt t_xnew]; rewrite Hh; reflexivity).
      split; [reflexivity|]. split.
      { rewrite Hxs, Hx, <- app_assoc. reflexivity. }
      split; [reflexivity|]. split; [exact H0|]. split; [|exact Hsteps].
      rewrite !length_app, Hys, Hyn, Hxs, !length_app. cbn [List.length]. lia.
    + exists (l ++ [st_x st]). cbn [st_xs st_x st_ys st_y st_stats].
      split; [rewrite Hxs; reflexivity|]. split.
      { unfold idx in *. rewrite app_nth1; [exact H0|].
        rewrite length_app. cbn. lia. }
      split.
      { rewrite !length_app, Hys, Hyn, Hxs, !length_app. cbn [List.length]. lia. }
      split; [exact Hyn|].
      rewrite length_app. cbn [List.length]. exact Hsteps.
  - intros Herr. discriminate Herr.
Qed.

Lemma steps_adaptive (tries fuel : nat) (x0 : float) :
  forall (st : loop_state) (ret : returned),
    adaptive_invariant nd x0 st ->
    steps pow dydx nd nx xs false relerr threshold hmax xend tries fuel st = Return ret ->
    adaptive_return nd x0 xend ret.
Proof.
  induction fuel as [|fuel IH]; intros st ret Hinv H; cbn [steps] in H; [discriminate|].
  pose proof (step_adaptive tries x0 st Hinv) as Hs.
  destruct (step _ _ _ _ _ _ _ _ _ _ _ _) as [|ret0|st']; [discriminate| |].
  - injection H as <-. exact Hs.
  - eapply IH; eassumption.
Qed.

End Adaptive.

Lemma ComputeWithStats_adaptive pow dydx (fuel : nat) (self : Integrator) (y0 xs : vec)
      (ret : returned) :
  (List.length xs <= 2)%nat ->
  ComputeWithStats pow dydx fuel self y0 xs = Return ret ->
  adaptive_return (List.length y0) xs.[0] xs.[List.length xs - 1] ret.
Proof.
  intros Hnx Hrun. destruct xs as [|x rest]; [discriminate|].
  rewrite ComputeWithStats_unfold in Hrun. cbv zeta in Hrun.
  destruct ((TryStep (config self) =? 0) && _); [discriminate|].
  assert (Hfixed : (2 <? List.length (x :: rest))%nat = false)
    by (apply Nat.ltb_ge; exact Hnx).
  rewrite !Hfixed in Hrun.
  eapply steps_adaptive in Hrun; [exact Hrun|].
  exists []. cbn. repeat split. lia.
Qed.

(** X7.  In adaptive mode (a grid of one or two points) a successful call
    returns the points it went through and a row of [len(y0)] values for
    each: at least two points, one more than [Steps]. *)
Theorem adaptive_output_shape pow dydx (fuel : nat) (self : Integrator) (y0 xs : vec)
        (ret : returned) :
  (List.length xs <= 2)%nat ->
  ComputeWithStats pow dydx fuel self y0 xs = Return ret ->
  ret_err ret = None ->
  exists ys xs' s,
    ret_ys ret = Some ys /\ ret_xs ret = Some xs' /\ ret_stats ret = Some s
    /\ List.length ys = (List.length xs' * List.length y0)%nat
    /\ (2 <= List.length xs')%nat
    /\ Steps s = (N.of_nat (List.length xs' - 1) mod uint_modulus)%N.
Proof.
  intros Hnx Hrun Herr.
  destruct (ComputeWithStats_adaptive _ _ _ _ _ _ _ Hnx Hrun Herr)
    as (ys & l & x & s & Hys & Hxs & Hs & _ & Hlen & Hsteps).
  exists ys, (l ++ [x; x + (xs.[List.length xs - 1] - x)]), s.
  repeat split; try assumption.
  - rewrite length_app. cbn. lia.
  - rewrite Hsteps. f_equal. rewrite length_app. cbn [List.length]. lia.
Qed.

(** X8.  In adaptive mode the points returned start with [xs[0]] and end
    with [x + (xend - x)], where [x] is the point before and [xend] the last
    point of the grid: the last step is taken with the step size [xend - x]. *)
Theorem adaptive_output_ends pow dydx (fuel : nat) (self : Integrator) (y0 xs : vec)
        (ret : returned) :
  (List.length xs <= 2)%nat ->
  ComputeWithStats pow dydx fuel self y0 xs = Return ret ->
  ret_err ret = None ->
  exists xs' l x,
    ret_xs ret = Some xs'
    /\ xs'.[0] = xs.[0]
    /\ xs' = l ++ [x; x + (xs.[List.length xs - 1] - x)].
Proof.
  intros Hnx Hrun Herr.
  destruct (ComputeWithStats_adaptive _ _ _ _ _ _ _ Hnx Hrun Herr)
    as (ys & l & x & s & Hys & Hxs & Hs & H0 & Hlen & Hsteps).
  exists (l ++ [x; x + (xs.[List.length xs - 1] - x)]), l, x.
  split; [exact Hxs|]. split; [|reflexivity].
  rewrite <- H0. unfold idx. destruct l; reflexivity.
Qed.

Section FirstRow.
Variable pow : float -> float -> float.
Variable dydx : float -> vec -> vec.
Variables (nx : nat) (xs : vec) (y0 : vec).
Variables (relerr threshold hmax xend : float).

Local Abbreviation nd := (List.length y0).

Lemma step_first_row_adaptive (tries : nat) (st : loop_state) :
  first_row y0 (st_ys st) ->
  match step pow dydx nd nx xs false relerr threshold hmax xend tries st with
  | StepStuck => True
  | StepReturn ret => first_row_return y0 ret
  | StepNext st' => first_row y0 (st_ys st')
  end.
Proof.
  intros (Hlen & Hrow). unfold step.
  destruct (clamp hmax xend (st_x st) (st_h st)) as [[hmin h0] done0].
  destruct (attempts _ _ _ _ _ _ _ _ _ _ _ _ _ _) as [[h done rejected t stats|stats]|];
    [| |exact I].
  - unfold emit.
    assert (H : first_row y0 (st_ys st ++ t_ynew t)).
    { split; [rewrite length_app; lia|]. intros i Hi. unfold idx.
      rewrite app_nth1 by lia. apply Hrow, Hi. }
    destruct done; [|exact H]. intros _. cbn. eauto.
  - intros Herr. discriminate Herr.
Qed.

Lemma step_first_row_fixed (tries : nat) (st : loop_state) :
  fixed_invariant nd nx xs st /\ (1 <= st_nc st)%nat /\ first_row y0 (st_ys st) ->
  match step pow dydx nd nx xs true relerr threshold hmax xend tries st with
  | StepStuck => True
  | StepReturn ret => first_row_return y0 ret
  | StepNext st' =>
      fixed_invariant nd nx xs st' /\ (1 <= st_nc st')%nat /\ first_row y0 (st_ys st')
  end.
Proof.
  intros (Hinv & Hnc1 & Hlen0 & Hrow).
  pose proof (step_fixed pow dydx nd nx xs relerr threshold hmax xend tries st Hinv) as Hf.
  destruct Hinv as (Hlen & Hnc & Hy & Hxs). revert Hf. unfold step.
  destruct (clamp hmax xend (st_x st) (st_h st)) as [[hmin h0] done0].
  destruct (attempts pow dydx nd relerr threshold tries (st_x st) hmin (st_y st) (st_f1 st)
                     h0 done0 false (incr_Steps (st_stats st)))
    as [[h done rejected t stats|stats]|] eqn:Ha; [| |intros _; exact I].
  - destruct (attempts_trial _ _ _ _ _ _ _ _ _ _ _ _ _ _ _ _ _ _ _ Ha) as (Ht & _).
    assert (Hyn : List.length (t_ynew t) = nd)
      by (rewrite Ht; apply length_attempt_ynew).
    unfold emit.
    destruct (emit_fixed nd xs (nx - st_nc st) (st_x st) h (st_y st) t (st_ys st) (st_nc st))
      as [ys' nc'] eqn:He.
    assert (Hk : (st_nc st + (nx - st_nc st) <= nx)%nat) by lia.
    destruct (emit_fixed_spec nd nx xs _ _ _ _ _ _ _ _ _ Hlen Hk Hyn Hy He)
      as (Hl & Hb & _ & Hrest & _).
    assert (H : first_row y0 ys').
    { split; [lia|]. intros i Hi. rewrite Hrest by (left; nia). apply Hrow, Hi. }
    destruct done.
    + intros _ _. cbn. eauto.
    + intros Hf. cbn [st_nc st_ys]. split; [exact Hf|]. split; [|exact H].
      cbn [st_nc] in *. lia.
  - intros _ Herr. discriminate Herr.
Qed.

Lemma steps_first_row_adaptive (tries fuel : nat) :
  forall (st : loop_state) (ret : returned),
    first_row y0 (st_ys st) ->
    steps pow dydx nd nx xs false relerr threshold hmax xend tries fuel st = Return ret ->
    first_row_return y0 ret.
Proof.
  induction fuel as [|fuel IH]; intros st ret Hinv H; cbn [steps] in H; [discriminate|].
  pose proof (step_first_row_adaptive tries st Hinv) as Hs.
  destruct (step _ _ _ _ _ _ _ _ _ _ _ _) as [|ret0|st']; [discriminate| |].
  - injection H as <-. exact Hs.
  - eapply IH; eassumption.
Qed.

Lemma steps_first_row_fixed (tries fuel : nat) :
  forall (st : loop_state) (ret : returned),
    fixed_invariant nd nx xs st /\ (1 <= st_nc st)%nat /\ first_row y0 (st_ys st) ->
    steps pow dydx nd nx xs true relerr threshold hmax xend tries fuel st = Return ret ->
    first_row_return y0 ret.
Proof.
  induction fuel as [|fuel IH]; intros st ret Hinv H; cbn [steps] in H; [discriminate|].
  pose proof (step_first_row_fixed tries st Hinv) as Hs.
  destruct (step _ _ _ _ _ _ _ _ _ _ _ _) as [|ret0|st']; [discriminate| |].
  - injection H as <-. exact Hs.
  - eapply IH; eassumption.
Qed.

End FirstRow.

(** X9.  In both modes the first row of the solution a call returns is the
    initial state [y0]. *)
Theorem first_row_is_initial_state pow dydx (fuel : nat) (self : Integrator) (y0 xs : vec)
        (ret : returned) :
  ComputeWithStats pow dydx fuel self y0 xs = Return ret ->
  ret_err ret = None ->
  exists ys,
    ret_ys ret = Some ys
    /\ (List.length y0 <= List.length ys)%nat
    /\ forall i, (i < List.length y0)%nat -> ys.[i] = y0.[i].
Proof.
  intros Hrun Herr. destruct xs as [|x rest]; [discriminate|].
  rewrite ComputeWithStats_unfold in Hrun. cbv zeta in Hrun.
  destruct ((TryStep (config self) =? 0) && _); [discriminate|].
  destruct (2 <? List.length (x :: rest))%nat eqn:Hfixed.
  - eapply steps_first_row_fixed in Hrun; [exact (Hrun Herr)|].
    apply Nat.ltb_lt in Hfixed. cbn [st_ys st_nc].
    assert (Hz : List.length (repeat 0 (List.length (x :: rest) * List.length y0))
                 = (List.length (x :: rest) * List.length y0)%nat) by apply repeat_length.
    assert (Hfit : Nat.le ((0 + 1) * List.length y0)
                          (List.length (repeat 0 (List.length (x :: rest) * List.length y0))))
      by (rewrite Hz; nia).
    split; [|split; [lia|]].
    + repeat split; cbn [st_ys st_nc st_y st_xs]; try lia.
      rewrite length_write_row; [exact Hz|reflexivity|exact Hfit].
    + split.
      * rewrite length_write_row; [rewrite Hz; nia|reflexivity|exact Hfit].
      * intros i Hi. rewrite idx_write_row by (reflexivity || exact Hfit).
        replace ((0 * List.length y0 <=? i)%nat) with true by reflexivity.
        replace ((i <? (0 + 1) * List.length y0)%nat) with true
          by (symmetry; apply Nat.ltb_lt; lia).
        cbn [andb]. f_equal. lia.
  - eapply steps_first_row_adaptive in Hrun; [exact (Hrun Herr)|].
    cbn [st_ys]. split; [lia | reflexivity].
Qed.

Section Stateless.
Variable pow : float -> float -> float.
Variable dydx : float -> vec -> vec.
Variables (nx : nat) (xs : vec) (fixed : bool).
Variables (relerr threshold hmax xend : float).
Hypothesis relerr_not_negative : (0 <=? relerr) = true.

Lemma emit_fixed_stateless (k : nat) :
  forall x h t nc, t_ynew t = [] ->
    fst (emit_fixed 0 xs k x h [] t [] nc) = [].
Proof.
  induction k as [|k IH]; intros x h t nc Ht; cbn [emit_fixed]; [reflexivity|].
  destruct (_ <? 0); [reflexivity|].
  rewrite Ht. unfold interpolate. cbn [List.length tabulate seq map].
  destruct (_ =? _); unfold write_row; cbn [firstn skipn app Nat.mul Nat.add];
    rewrite ?Nat.mul_0_r; cbn [firstn skipn app]; apply IH, Ht.
Qed.

Lemma step_stateless (tries : nat) (st : loop_state) :
  stateless_invariant st ->
  match step pow dydx 0 nx xs fixed relerr threshold hmax xend tries st with
  | StepStuck => True
  | StepReturn ret => stateless_return ret
  | StepNext st' => stateless_invariant st'
  end.
Proof.
  intros (Hys & Hy & HR). unfold step.
  destruct (clamp hmax xend (st_x st) (st_h st)) as [[hmin h0] done0].
  destruct tries as [|tries]; cbn [attempts]; [exact I|].
  unfold pass. unfold attempt at 1. cbn [t_eps].
  unfold error_estimate at 1. cbn [seq fold_left]. rewrite relerr_not_negative.
  set (t := attempt dydx 0 threshold (st_x st) h0 (st_y st) (st_f1 st)).
  assert (Ht : t_ynew t = []) by reflexivity.
  assert (He : fst (fst (emit 0 nx xs fixed (st_x st) h0 (st_y st) t (st_ys st) (st_xs st)
                              (st_nc st))) = []).
  { unfold emit. rewrite Hys, Hy. destruct fixed.
    - pose proof (emit_fixed_stateless (nx - st_nc st) (st_x st) h0 t (st_nc st) Ht) as E.
      destruct (emit_fixed _ _ _ _ _ _ _ _ _) as [ys' nc']. exact E.
    - rewrite Ht. reflexivity. }
  destruct (emit _ _ _ _ _ _ _ _ _ _ _) as [[ys xo] nc]. cbn [fst] in He. subst ys.
  destruct done0.
  - repeat split. eexists. split; [reflexivity|]. exact HR.
  - repeat split. exact HR.
Qed.

Lemma steps_stateless (tries fuel : nat) :
  forall (st : loop_state) (ret : returned),
    stateless_invariant st ->
    steps pow dydx 0 nx xs fixed relerr threshold hmax xend tries fuel st = Return ret ->
    stateless_return ret.
Proof.
  induction fuel as [|fuel IH]; intros st ret Hinv H; cbn [steps] in H; [discriminate|].
  pose proof (step_stateless tries st Hinv) as Hs.
  destruct (step _ _ _ _ _ _ _ _ _ _ _ _) as [|ret0|st']; [discriminate| |].
  - injection H as <-. exact Hs.
  - eapply IH; eassumption.
Qed.

End Stateless.

(** X10.  With an empty initial state the error estimate is 0 at every
    pass: a call that returns has rejected nothing, reports no error and
    returns an empty solution (for a tolerance that is not negative). *)
Theorem empty_state_never_fails pow dydx (fuel : nat) (self : Integrator) (xs : vec)
        (ret : returned) :
  (0 <=? RelError (config self)) = true ->
  ComputeWithStats pow dydx fuel self [] xs = Return ret ->
  ret_err ret = None /\ ret_ys ret = Some []
  /\ exists s, ret_stats ret = Some s /\ Rejections s = 0%N.
Proof.
  intros Hrel Hrun. destruct xs as [|x rest]; [discriminate|].
  rewrite ComputeWithStats_unfold in Hrun. cbv zeta in Hrun.
  destruct ((TryStep (config self) =? 0) && _); [discriminate|].
  cbn [List.length] in Hrun.
  eapply steps_stateless in Hrun; [exact Hrun|exact Hrel|].
  repeat split. cbn [st_ys]. rewrite Nat.mul_0_r.
  destruct (2 <? S (List.length rest))%nat; reflexivity.
Qed.

Lemma row_of_app_l (nd : nat) (ys row : vec) (k : nat) :
  (S k * nd <= List.length ys)%nat -> row_of nd (ys ++ row) k = row_of nd ys k.
Proof.
  intros H. unfold row_of. rewrite skipn_app.
  replace (k * nd - List.length ys)%nat with 0%nat by lia. cbn [skipn].
  rewrite firstn_app.
  replace (nd - List.length (skipn (k * nd) ys))%nat with 0%nat
    by (rewrite length_skipn; lia).
  cbn [firstn]. apply app_nil_r.
Qed.

Lemma row_of_app_r (nd : nat) (ys row : vec) (k : nat) :
  List.length ys = (k * nd)%nat -> List.length row = nd ->
  row_of nd (ys ++ row) k = row.
Proof.
  intros H Hr. unfold row_of. rewrite skipn_app, skipn_all2 by lia.
  rewrite H, Nat.sub_diag. cbn [skipn app]. apply firstn_all2. lia.
Qed.

Lemma idx_app_l (l l' : vec) (k : nat) :
  (k < List.length l)%nat -> (l ++ l').[k] = l.[k].
Proof. intros H. unfold idx. apply app_nth1, H. Qed.

Lemma idx_app_r (l : vec) (a : float) : (l ++ [a]).[List.length l] = a.
Proof. unfold idx. rewrite app_nth2, Nat.sub_diag by lia. reflexivity. Qed.

Lemma accepted_step_app dydx nd relerr threshold (xs ys : vec) (a : float) (row : vec)
      (k : nat) :
  (S k < List.length xs)%nat -> (S (S k) * nd <= List.length ys)%nat ->
  accepted_step dydx nd relerr threshold xs ys k ->
  accepted_step dydx nd relerr threshold (xs ++ [a]) (ys ++ row) k.
Proof.
  intros Hx Hy (h & H). exists h. cbv zeta in *.
  rewrite !idx_app_l by lia. rewrite !row_of_app_l by lia. exact H.
Qed.

Section Chain.
Variable pow : float -> float -> float.
Variable dydx : float -> vec -> vec.
Variables (nd nx : nat) (xs : vec).
Variables (relerr threshold hmax xend : float).

Lemma step_chain (tries : nat) (st : loop_state) :
  chain_invariant dydx nd relerr threshold st ->
  match step pow dydx nd nx xs false relerr threshold hmax xend tries st with
  | StepStuck => True
  | StepReturn ret => chain_return dydx nd relerr threshold ret
  | StepNext st' => chain_invariant dydx nd relerr threshold st'
  end.
Proof.
  intros (n & Hlx & Hly & Hx & Hrow & Hy & Hf1 & Hchain). unfold step.
  destruct (clamp hmax xend (st_x st) (st_h st)) as [[hmin h0] done0].
  destruct (attempts pow dydx nd relerr threshold tries (st_x st) hmin (st_y st) (st_f1 st)
                     h0 done0 false (incr_Steps (st_stats st)))
    as [[h done rejected t stats|stats]|] eqn:Ha; [| |exact I].
  - destruct (attempts_trial _ _ _ _ _ _ _ _ _ _ _ _ _ _ _ _ _ _ _ Ha) as (Ht & Hacc).
    assert (Hyn : List.length (t_ynew t) = nd)
      by (rewrite Ht; apply length_attempt_ynew).
    unfold emit.
    assert (Hnew : forall k, (k < S n)%nat ->
              accepted_step dydx nd relerr threshold
                            (st_xs st ++ [t_xnew t]) (st_ys st ++ t_ynew t) k).
    { intros k Hk. destruct (Nat.eq_dec k n) as [->|Hne].
      - exists h. cbv zeta.
        rewrite !(idx_app_l _ _ n) by lia. rewrite !(row_of_app_l _ _ _ n) by lia.
        rewrite Hx, Hrow, <- Hf1, <- Ht.
        replace (S n) with (List.length (st_xs st)) at 1 by lia.
        rewrite idx_app_r. rewrite row_of_app_r by assumption. auto.
      - apply accepted_step_app; [lia | nia | apply Hchain; lia]. }
    destruct done.
    + intros ys' xs' Hys Hxs k Hk. cbn in Hys, Hxs.
      injection Hys as <-. injection Hxs as <-.
      apply Hnew. rewrite length_app in Hk. cbn [List.length] in Hk. lia.
    + exists (S n). cbn [st_xs st_ys st_x st_y st_f1].
      split; [rewrite length_app; cbn [List.length]; lia|].
      split; [rewrite length_app; lia|].
      split; [replace (S n) with (List.length (st_xs st)) by lia; apply idx_app_r|].
      split; [apply row_of_app_r; assumption|].
      split; [exact Hyn|].
      split; [rewrite Ht; reflexivity | exact Hnew].
  - intros ys' xs' Hys. discriminate Hys.
Qed.

Lemma steps_chain (tries fuel : nat) :
  forall (st : loop_state) (ret : returned),
    chain_invariant dydx nd relerr threshold st ->
    steps pow dydx nd nx xs false relerr threshold hmax xend tries fuel st = Return ret ->
    chain_return dydx nd relerr threshold ret.
Proof.
  induction fuel as [|fuel IH]; intros st ret Hinv H; cbn [steps] in H; [discriminate|].
  pose proof (step_chain tries st Hinv) as Hs.
  destruct (step _ _ _ _ _ _ _ _ _ _ _ _) as [|ret0|st']; [discriminate| |].
  - injection H as <-. exact Hs.
  - eapply IH; eassumption.
Qed.

End Chain.

(** X17.  In adaptive mode every row returned after the first is an accepted
    Dormand-Prince step from the row before: for some step size [h] it is
    the [ynew] of the trial from the point and the row before, with the
    derivative of that row as first stage, the next point is [x + h], and
    the error estimate of the trial is at most [RelError]. *)
Theorem adaptive_rows_are_accepted_steps pow dydx (fuel : nat) (self : Integrator)
        (y0 xs : vec) (ret : returned) (ys xs' : vec) :
  (List.length xs <= 2)%nat ->
  ComputeWithStats pow dydx fuel self y0 xs = Return ret ->
  ret_ys ret = Some ys -> ret_xs ret = Some xs' ->
  forall k, (S k < List.length xs')%nat ->
    exists h,
      let y := row_of (List.length y0) ys k in
      let t := attempt dydx (List.length y0)
                       (AbsError (config self) / RelError (config self))
                       xs'.[k] h y (dydx xs'.[k] y) in
      xs'.[S k] = t_xnew t /\ row_of (List.length y0) ys (S k) = t_ynew t
      /\ (t_eps t <=? RelError (config self)) = true.
Proof.
  intros Hnx Hrun Hys Hxs. destruct xs as [|x rest]; [discriminate|].
  rewrite ComputeWithStats_unfold in Hrun. cbv zeta in Hrun.
  destruct ((TryStep (config self) =? 0) && _); [discriminate|].
  assert (Hfixed : (2 <? List.length (x :: rest))%nat = false)
    by (apply Nat.ltb_ge; exact Hnx).
  rewrite !Hfixed in Hrun.
  eapply steps_chain in Hrun; [exact (Hrun ys xs' Hys Hxs)|].
  exists 0%nat. cbn [st_xs st_ys st_x st_y st_f1 List.length].
  repeat split; try lia.
  unfold row_of. cbn [Nat.mul skipn]. apply firstn_all.
Qed.

Lemma idx_repeat_zero (n p : nat) : (repeat 0 n).[p] = 0.
Proof.
  unfold idx. revert p. induction n as [|n IH]; intros [|p]; cbn; auto.
Qed.

Section Reached.
Variable pow : float -> float -> float.
Variable dydx : float -> vec -> vec.
Variables (nd nx nx' : nat) (xs xs' : vec).
Variables (relerr threshold hmax xend : float).

Lemma step_reached (tries : nat) (st st' : loop_state) :
  reached_invariant nd nx xs st st' ->
  match step pow dydx nd nx xs true relerr threshold hmax xend tries st,
        step pow dydx nd nx' xs' false relerr threshold hmax xend tries st' with
  | StepStuck, StepStuck => True
  | StepReturn r, StepReturn r' => reached_return nd nx xs r r'
  | StepNext a, StepNext b => reached_invariant nd nx xs a b
  | _, _ => False
  end.
Proof.
  intros (Hsame & Hinv & Hnc1 & Hzero & Hne & Hreach).
  pose proof (step_fixed pow dydx nd nx xs relerr threshold hmax xend tries st Hinv) as Hf.
  destruct Hsame as (Hx & Hh & Hy' & Hf1 & Hs).
  destruct Hinv as (Hlen & Hnc & Hy & Hxs). revert Hf. unfold step.
  rewrite <- Hx, <- Hh, <- Hy', <- Hf1, <- Hs.
  destruct (clamp hmax xend (st_x st) (st_h st)) as [[hmin h0] done0].
  destruct (attempts pow dydx nd relerr threshold tries (st_x st) hmin (st_y st) (st_f1 st)
                     h0 done0 false (incr_Steps (st_stats st)))
    as [[h done rejected t stats|stats]|] eqn:Ha; [| |intros _; exact I].
  - destruct (attempts_trial _ _ _ _ _ _ _ _ _ _ _ _ _ _ _ _ _ _ _ Ha) as (Ht & _).
    assert (Hyn : List.length (t_ynew t) = nd)
      by (rewrite Ht; apply length_attempt_ynew).
    unfold emit.
    destruct (emit_fixed nd xs (nx - st_nc st) (st_x st) h (st_y st) t (st_ys st) (st_nc st))
      as [ys1 nc1] eqn:He.
    assert (Hk : (st_nc st + (nx - st_nc st) <= nx)%nat) by lia.
    destruct (emit_fixed_spec nd nx xs _ _ _ _ _ _ _ _ _ Hlen Hk Hyn Hy He)
      as (Hl & Hb & Hrows & Hrest & _).
    assert (Hz1 : zero_from nd nc1 ys1).
    { intros p Hp. rewrite Hrest by (right; exact Hp). apply Hzero. nia. }
    assert (Hr1 : forall j, (1 <= j < nc1)%nat ->
              exists k, (1 <= k < List.length (st_xs st' ++ [t_xnew t]))%nat
                        /\ ((st_xs st' ++ [t_xnew t]).[k] - xs.[j] <? 0) = false).
    { intros j Hj. rewrite length_app. cbn [List.length].
      destruct (Nat.lt_ge_cases j (st_nc st)) as [Hold|Hnew].
      - destruct (Hreach j ltac:(lia)) as (k & Hk1 & Hk2).
        exists k. split; [lia|]. rewrite idx_app_l by lia. exact Hk2.
      - destruct (Hrows j ltac:(lia)) as (Hnb & _).
        exists (List.length (st_xs st')). rewrite idx_app_r. split; [lia | exact Hnb]. }
    destruct done.
    + intros _. intros ys0 xs0 Hys Hxs0 j i Hj Hi Hall. cbn in Hys, Hxs0.
      injection Hys as <-. injection Hxs0 as <-.
      destruct (Nat.lt_ge_cases j nc1) as [Hin|Hout].
      * destruct (Hr1 j ltac:(lia)) as (k & Hk1 & Hk2).
        rewrite (Hall k Hk1) in Hk2. discriminate Hk2.
      * apply Hz1. nia.
    + intros Hfix. repeat split; cbn [st_x st_h st_y st_f1 st_stats st_nc st_ys st_xs];
        try reflexivity; try apply Hfix; try assumption; try lia.
      rewrite length_app. cbn [List.length]. lia.
  - intros _. cbn. intros ys0 xs0 Hys. discriminate Hys.
Qed.

Lemma steps_reached (tries fuel : nat) :
  forall (st st' : loop_state) (ret ret' : returned),
    reached_invariant nd nx xs st st' ->
    steps pow dydx nd nx xs true relerr threshold hmax xend tries fuel st = Return ret ->
    steps pow dydx nd nx' xs' false relerr threshold hmax xend tries fuel st' = Return ret' ->
    reached_return nd nx xs ret ret'.
Proof.
  induction fuel as [|fuel IH]; intros st st' ret ret' Hinv H H'; cbn [steps] in H, H';
    [discriminate|].
  pose proof (step_reached tries st st' Hinv) as Hs.
  destruct (step pow dydx nd nx xs true relerr threshold hmax xend tries st) as [|r|a],
           (step pow dydx nd nx' xs' false relerr threshold hmax xend tries st') as [|r'|b];
    try contradiction; try discriminate.
  - injection H as <-. injection H' as <-. exact Hs.
  - eapply IH; eassumption.
Qed.

End Reached.

(** X16.  In fixed-output mode the row of a grid point that lies beyond
    every point the integration went through is returned as zeros.  The
    points are those the call in adaptive mode on the two ends of the grid
    returns, which takes the same steps when a [TryStep] is configured. *)
Theorem unreached_rows_stay_zero pow dydx (fuel : nat) (self : Integrator) (y0 : vec)
        (x0 : float) (rest : vec) (ret ret' : returned) (ys xs' : vec) :
  let xs := x0 :: rest in
  let xend := xs.[List.length xs - 1] in
  (2 < List.length xs)%nat ->
  (TryStep (config self) =? 0) = false ->
  ComputeWithStats pow dydx fuel self y0 xs = Return ret ->
  ret_ys ret = Some ys ->
  ComputeWithStats pow dydx fuel self y0 [x0; xend] = Return ret' ->
  ret_xs ret' = Some xs' ->
  forall j i,
    (1 <= j < List.length xs)%nat -> (i < List.length y0)%nat ->
    (forall k, (1 <= k < List.length xs')%nat -> (xs'.[k] - xs.[j] <? 0) = true) ->
    ys.[j * List.length y0 + i] = 0.
Proof.
  intros xs xend Hnx Htry Hrun Hys Hrun' Hxs'.
  unfold xs in Hrun. rewrite ComputeWithStats_unfold in Hrun, Hrun'. cbv zeta in Hrun, Hrun'.
  fold xs in Hrun. rewrite Htry in Hrun, Hrun'. cbn [andb] in Hrun, Hrun'.
  assert (Hfixed : (2 <? List.length xs)%nat = true) by (apply Nat.ltb_lt; exact Hnx).
  rewrite !Hfixed in Hrun.
  change ([x0; xend].[List.length [x0; xend] - 1]) with xend in Hrun'.
  fold xend in Hrun.
  change ((2 <? List.length [x0; xend])%nat) with false in Hrun'. cbv iota in Hrun'.
  eapply steps_reached in Hrun; [exact (Hrun ys xs' Hys Hxs')| |exact Hrun'].
  assert (Hz : List.length (repeat 0 (List.length xs * List.length y0))
               = (List.length xs * List.length y0)%nat) by apply repeat_length.
  assert (Hfit : Nat.le ((0 + 1) * List.length y0)
                        (List.length (repeat 0 (List.length xs * List.length y0))))
    by (rewrite Hz; nia).
  split; [repeat split|]. split; [|split; [|split; [|split]]];
    cbn [st_ys st_nc st_y st_xs List.length]; try lia.
  - repeat split; cbn [st_ys st_nc st_y st_xs]; try lia.
    rewrite length_write_row; [exact Hz|reflexivity|exact Hfit].
  - intros p Hp. rewrite idx_write_row by (reflexivity || exact Hfit).
    replace ((p <? (0 + 1) * List.length y0)%nat) with false
      by (symmetry; apply Nat.ltb_ge; lia).
    rewrite andb_false_r. apply idx_repeat_zero.
Qed.

Lemma met_at_app (xs xs' : vec) (a : float) (j k : nat) :
  (k < List.length xs')%nat -> met_at xs (xs' ++ [a]) j k -> met_at xs xs' j k.
Proof.
  intros Hk (He & Hb & Ha). repeat split.
  - rewrite idx_app_l in He by lia. exact He.
  - intros k' Hk'. specialize (Hb k' Hk'). rewrite idx_app_l in Hb by lia. exact Hb.
  - intros j' Hj'. specialize (Ha j' Hj'). rewrite idx_app_l in Ha by lia. exact Ha.
Qed.

Lemma idx_app_row (ys row : vec) (nd k i : nat) :
  List.length ys = (k * nd)%nat -> (ys ++ row).[k * nd + i] = row.[i].
Proof.
  intros H. unfold idx. rewrite app_nth2 by lia. f_equal. lia.
Qed.

Section Endpoints.
Variable pow : float -> float -> float.
Variable dydx : float -> vec -> vec.
Variables (nd nx nx' : nat) (xs xs' : vec).
Variables (relerr threshold hmax xend : float).

Lemma step_endpoints (tries : nat) (st st' : loop_state) :
  endpoint_invariant nd nx xs st st' ->
  match step pow dydx nd nx xs true relerr threshold hmax xend tries st,
        step pow dydx nd nx' xs' false relerr threshold hmax xend tries st' with
  | StepStuck, StepStuck => True
  | StepReturn r, StepReturn r' => endpoint_return nd nx xs r r'
  | StepNext a, StepNext b => endpoint_invariant nd nx xs a b
  | _, _ => False
  end.
Proof.
  intros (Hsame & Hinv & Hnc1 & m & Hlx & Hly & Hreach & Hmet).
  pose proof (step_fixed pow dydx nd nx xs relerr threshold hmax xend tries st Hinv) as Hf.
  destruct Hsame as (Hx & Hh & Hy' & Hf1 & Hs).
  destruct Hinv as (Hlen & Hnc & Hy & Hxs). revert Hf. unfold step.
  rewrite <- Hx, <- Hh, <- Hy', <- Hf1, <- Hs.
  destruct (clamp hmax xend (st_x st) (st_h st)) as [[hmin h0] done0].
  destruct (attempts pow dydx nd relerr threshold tries (st_x st) hmin (st_y st) (st_f1 st)
                     h0 done0 false (incr_Steps (st_stats st)))
    as [[h done rejected t stats|stats]|] eqn:Ha; [| |intros _; exact I].
  - destruct (attempts_trial _ _ _ _ _ _ _ _ _ _ _ _ _ _ _ _ _ _ _ Ha) as (Ht & _).
    assert (Hyn : List.length (t_ynew t) = nd)
      by (rewrite Ht; apply length_attempt_ynew).
    unfold emit.
    destruct (emit_fixed nd xs (nx - st_nc st) (st_x st) h (st_y st) t (st_ys st) (st_nc st))
      as [ys1 nc1] eqn:He.
    assert (Hk : (st_nc st + (nx - st_nc st) <= nx)%nat) by lia.
    destruct (emit_fixed_spec nd nx xs _ _ _ _ _ _ _ _ _ Hlen Hk Hyn Hy He)
      as (Hl & Hb & Hrows & Hrest & Hstop).
    set (xs1 := st_xs st' ++ [t_xnew t]).
    set (ysA := st_ys st' ++ t_ynew t).
    assert (Hnew : xs1.[S m] = t_xnew t)
      by (unfold xs1; rewrite <- Hlx; apply idx_app_r).
    assert (Hr1 : forall j, (1 <= j < nc1)%nat ->
              exists k, (1 <= k <= S m)%nat /\ (xs1.[k] - xs.[j] <? 0) = false).
    { intros j Hj. destruct (Nat.lt_ge_cases j (st_nc st)) as [Hold|Hnw].
      - destruct (Hreach j ltac:(lia)) as (k & Hk1 & Hk2).
        exists k. split; [lia|]. unfold xs1. rewrite idx_app_l by lia. exact Hk2.
      - destruct (Hrows j ltac:(lia)) as (Hnb & _).
        exists (S m). rewrite Hnew. split; [lia | exact Hnb]. }
    assert (Hm1 : forall j k, (1 <= j < nx)%nat -> (1 <= k <= S m)%nat ->
              met_at xs xs1 j k ->
              (j < nc1)%nat
              /\ forall i, (i < nd)%nat -> ys1.[j * nd + i] = ysA.[k * nd + i]).
    { intros j k Hj Hkm Hmt. destruct (Nat.eq_dec k (S m)) as [->|Hne].
      - destruct Hmt as (Heq & Hbefore & Hearlier). rewrite Hnew in Heq, Hearlier.
        assert (Hge : (st_nc st <= j)%nat).
        { destruct (Nat.lt_ge_cases j (st_nc st)) as [Hlt|Hge]; [|exact Hge].
          destruct (Hreach j ltac:(lia)) as (k & Hk1 & Hk2).
          specialize (Hbefore k ltac:(lia)). unfold xs1 in Hbefore.
          rewrite idx_app_l in Hbefore by lia. rewrite Hbefore in Hk2. discriminate Hk2. }
        assert (Hin : (j < nc1)%nat).
        { destruct (Nat.lt_ge_cases j nc1) as [Hlt|Hout]; [exact Hlt|].
          assert (Hst : (t_xnew t - xs.[nc1] <? 0) = true) by (apply Hstop; lia).
          destruct (Nat.eq_dec nc1 j) as [->|Hnj].
          - rewrite (equal_not_beyond _ _ Heq) in Hst. discriminate Hst.
          - rewrite Hearlier in Hst by lia. discriminate Hst. }
        split; [exact Hin|]. intros i Hi.
        destruct (Hrows j ltac:(lia)) as (_ & Hrow).
        rewrite (Hrow i Hi). unfold grid_row. rewrite Heq.
        unfold ysA. rewrite idx_app_row by exact Hly. reflexivity.
      - assert (Hkm' : (1 <= k <= m)%nat) by lia.
        assert (Hkl : (k < List.length (st_xs st'))%nat) by lia.
        destruct (Hmet j k Hj Hkm' (met_at_app xs (st_xs st') (t_xnew t) j k Hkl Hmt))
          as (Hlt & Hrow).
        split; [lia|]. intros i Hi.
        rewrite Hrest by (left; nia). rewrite (Hrow i Hi).
        unfold ysA. rewrite idx_app_l by nia. reflexivity. }
    destruct done.
    + intros _. intros ys0 xs0 ys0' Hys Hxs0 Hys0' j k Hj Hkk Hmt i Hi.
      cbn in Hys, Hxs0, Hys0'.
      injection Hys as <-. injection Hxs0 as <-. injection Hys0' as <-.
      apply (Hm1 j k Hj); [|exact Hmt|exact Hi].
      unfold xs1 in Hkk. rewrite length_app in Hkk. cbn [List.length] in Hkk. lia.
    + intros Hfix. split; [repeat split|]. split; [exact Hfix|].
      cbn [st_nc st_ys st_xs]. split; [lia|]. exists (S m).
      split; [unfold xs1; rewrite length_app; cbn [List.length]; lia|].
      split; [unfold ysA; rewrite length_app; lia|].
      split; [exact Hr1 | exact Hm1].
  - intros _. cbn. intros ys0 xs0 ys0' Hys. discriminate Hys.
Qed.

Lemma steps_endpoints (tries fuel : nat) :
  forall (st st' : loop_state) (ret ret' : returned),
    endpoint_invariant nd nx xs st st' ->
    steps pow dydx nd nx xs true relerr threshold hmax xend tries fuel st = Return ret ->
    steps pow dydx nd nx' xs' false relerr threshold hmax xend tries fuel st' = Return ret' ->
    endpoint_return nd nx xs ret ret'.
Proof.
  induction fuel as [|fuel IH]; intros st st' ret ret' Hinv H H'; cbn [steps] in H, H';
    [discriminate|].
  pose proof (step_endpoints tries st st' Hinv) as Hs.
  destruct (step pow dydx nd nx xs true relerr threshold hmax xend tries st) as [|r|a],
           (step pow dydx nd nx' xs' false relerr threshold hmax xend tries st') as [|r'|b];
    try contradiction; try discriminate.
  - injection H as <-. injection H' as <-. exact Hs.
  - eapply IH; eassumption.
Qed.

End Endpoints.

(** X19.  The dense output agrees with the integration where the two meet: a
    grid point equal to a point the integration stepped to (the first one it
    is not beyond, no earlier grid point being beyond that point, as on an
    increasing grid) gets the row the call in adaptive mode returns for that
    point, the [ynew] of the step, with no interpolation.  The call in
    adaptive mode is the one on the two ends of the grid, which takes the
    same steps when a [TryStep] is configured. *)
Theorem grid_points_at_step_ends pow dydx (fuel : nat) (self : Integrator) (y0 : vec)
        (x0 : float) (rest : vec) (ret ret' : returned) (ys xs' ys' : vec) :
  let xs := x0 :: rest in
  let xend := xs.[List.length xs - 1] in
  (2 < List.length xs)%nat ->
  (TryStep (config self) =? 0) = false ->
  ComputeWithStats pow dydx fuel self y0 xs = Return ret ->
  ret_ys ret = Some ys ->
  ComputeWithStats pow dydx fuel self y0 [x0; xend] = Return ret' ->
  ret_xs ret' = Some xs' ->
  ret_ys ret' = Some ys' ->
  forall j k,
    (1 <= j < List.length xs)%nat -> (1 <= k < List.length xs')%nat ->
    (xs.[j] =? xs'.[k]) = true ->
    (forall k', (1 <= k' < k)%nat -> (xs'.[k'] - xs.[j] <? 0) = true) ->
    (forall j', (1 <= j' < j)%nat -> (xs'.[k] - xs.[j'] <? 0) = false) ->
    forall i, (i < List.length y0)%nat ->
      ys.[j * List.length y0 + i] = ys'.[k * List.length y0 + i].
Proof.
  intros xs xend Hnx Htry Hrun Hys Hrun' Hxs' Hys' j k Hj Hk Heq Hbefore Hearlier i Hi.
  unfold xs in Hrun. rewrite ComputeWithStats_unfold in Hrun, Hrun'. cbv zeta in Hrun, Hrun'.
  fold xs in Hrun. rewrite Htry in Hrun, Hrun'. cbn [andb] in Hrun, Hrun'.
  assert (Hfixed : (2 <? List.length xs)%nat = true) by (apply Nat.ltb_lt; exact Hnx).
  rewrite !Hfixed in Hrun.
  change ([x0; xend].[List.length [x0; xend] - 1]) with xend in Hrun'.
  fold xend in Hrun.
  change ((2 <? List.length [x0; xend])%nat) with false in Hrun'. cbv iota in Hrun'.
  eapply steps_endpoints in Hrun; [|clear Hrun|exact Hrun'].
  - apply (Hrun ys xs' ys' Hys Hxs' Hys' j k Hj Hk); [|exact Hi].
    repeat split; assumption.
  - assert (Hz : List.length (repeat 0 (List.length xs * List.length y0))
                 = (List.length xs * List.length y0)%nat) by apply repeat_length.
    assert (Hfit : Nat.le ((0 + 1) * List.length y0)
                          (List.length (repeat 0 (List.length xs * List.length y0))))
      by (rewrite Hz; nia).
    split; [repeat split|]. split; [|split; [cbn [st_nc]; lia|]].
    + repeat split; cbn [st_ys st_nc st_y st_xs]; try lia.
      rewrite length_write_row; [exact Hz|reflexivity|exact Hfit].
    + exists 0%nat. cbn [st_ys st_nc st_y st_xs List.length].
      split; [reflexivity|]. split; [lia|]. split; intros; lia.
Qed.

Lemma covered_at_app (xs xs' : vec) (a : float) (j k : nat) :
  (k < List.length xs')%nat -> covered_at xs (xs' ++ [a]) j k -> covered_at xs xs' j k.
Proof.
  intros Hk (He & Hb & Ha). repeat split.
  - rewrite idx_app_l in He by lia. exact He.
  - intros k' Hk'. specialize (Hb k' Hk'). rewrite idx_app_l in Hb by lia. exact Hb.
  - intros j' Hj'. specialize (Ha j' Hj'). rewrite idx_app_l in Ha by lia. exact Ha.
Qed.

Section Dense.
Variable pow : float -> float -> float.
Variable dydx : float -> vec -> vec.
Variables (nd nx nx' : nat) (xs xs' : vec).
Variables (relerr threshold hmax xend : float).

Lemma step_dense (tries : nat) (st st' : loop_state) :
  dense_invariant dydx nd nx threshold xs st st' ->
  match step pow dydx nd nx xs true relerr threshold hmax xend tries st,
        step pow dydx nd nx' xs' false relerr threshold hmax xend tries st' with
  | StepStuck, StepStuck => True
  | StepReturn r, StepReturn r' => dense_return dydx nd nx threshold xs r r'
  | StepNext a, StepNext b => dense_invariant dydx nd nx threshold xs a b
  | _, _ => False
  end.
Proof.
  intros (Hsame & Hinv & Hnc1 & Hfsal & m & Hlx & Hly & Hxm & Hrm & Hreach & Hcov).
  pose proof (step_fixed pow dydx nd nx xs relerr threshold hmax xend tries st Hinv) as Hf.
  destruct Hsame as (Hx & Hh & Hy' & Hf1 & Hs).
  destruct Hinv as (Hlen & Hnc & Hy & Hxs). revert Hf. unfold step.
  rewrite <- Hx, <- Hh, <- Hy', <- Hf1, <- Hs.
  destruct (clamp hmax xend (st_x st) (st_h st)) as [[hmin h0] done0].
  destruct (attempts pow dydx nd relerr threshold tries (st_x st) hmin (st_y st) (st_f1 st)
                     h0 done0 false (incr_Steps (st_stats st)))
    as [[h done rejected t stats|stats]|] eqn:Ha; [| |intros _; exact I].
  - destruct (attempts_trial _ _ _ _ _ _ _ _ _ _ _ _ _ _ _ _ _ _ _ Ha) as (Ht & _).
    assert (Hyn : List.length (t_ynew t) = nd)
      by (rewrite Ht; apply length_attempt_ynew).
    unfold emit.
    destruct (emit_fixed nd xs (nx - st_nc st) (st_x st) h (st_y st) t (st_ys st) (st_nc st))
      as [ys1 nc1] eqn:He.
    assert (Hk : (st_nc st + (nx - st_nc st) <= nx)%nat) by lia.
    destruct (emit_fixed_spec nd nx xs _ _ _ _ _ _ _ _ _ Hlen Hk Hyn Hy He)
      as (Hl & Hb & Hrows & Hrest & Hstop).
    set (xs1 := st_xs st' ++ [t_xnew t]).
    set (ysA := st_ys st' ++ t_ynew t).
    assert (Hnew : xs1.[S m] = t_xnew t)
      by (unfold xs1; rewrite <- Hlx; apply idx_app_r).
    assert (Hrow1 : row_of nd ysA (S m) = t_ynew t)
      by (unfold ysA; apply row_of_app_r; assumption).
    assert (Hr1 : forall j, (1 <= j < nc1)%nat ->
              exists k, (1 <= k <= S m)%nat /\ (xs1.[k] - xs.[j] <? 0) = false).
    { intros j Hj. destruct (Nat.lt_ge_cases j (st_nc st)) as [Hold|Hnw].
      - destruct (Hreach j ltac:(lia)) as (k & Hk1 & Hk2).
        exists k. split; [lia|]. unfold xs1. rewrite idx_app_l by lia. exact Hk2.
      - destruct (Hrows j ltac:(lia)) as (Hnb & _).
        exists (S m). rewrite Hnew. split; [lia | exact Hnb]. }
    assert (Hc1 : forall j k, (1 <= j < nx)%nat -> (1 <= k <= S m)%nat ->
              covered_at xs xs1 j k ->
              (j < nc1)%nat /\ dense_row dydx nd threshold xs ys1 xs1 ysA j k).
    { intros j k Hj Hkm Hct. destruct (Nat.eq_dec k (S m)) as [->|Hne].
      - destruct Hct as (Hnb & Hbefore & Hearlier). rewrite Hnew in Hnb, Hearlier.
        assert (Hge : (st_nc st <= j)%nat).
        { destruct (Nat.lt_ge_cases j (st_nc st)) as [Hlt|Hge]; [|exact Hge].
          destruct (Hreach j ltac:(lia)) as (k & Hk1 & Hk2).
          specialize (Hbefore k ltac:(lia)). unfold xs1 in Hbefore.
          rewrite idx_app_l in Hbefore by lia. rewrite Hbefore in Hk2. discriminate Hk2. }
        assert (Hin : (j < nc1)%nat).
        { destruct (Nat.lt_ge_cases j nc1) as [Hlt|Hout]; [exact Hlt|].
          assert (Hst : (t_xnew t - xs.[nc1] <? 0) = true) by (apply Hstop; lia).
          destruct (Nat.eq_dec nc1 j) as [->|Hnj].
          - rewrite Hnb in Hst. discriminate Hst.
          - rewrite Hearlier in Hst by lia. discriminate Hst. }
        split; [exact Hin|]. exists h. cbv zeta.
        replace (S m - 1)%nat with m by lia.
        assert (Hxm1 : xs1.[m] = st_x st)
          by (unfold xs1; rewrite idx_app_l by lia; exact Hxm).
        assert (Hrm1 : row_of nd ysA m = st_y st)
          by (unfold ysA; rewrite row_of_app_l by lia; exact Hrm).
        rewrite Hxm1, Hrm1, <- Hfsal, <- Ht, Hnew, Hrow1.
        split; [reflexivity|]. split; [reflexivity|]. intros i Hi.
        destruct (Hrows j ltac:(lia)) as (_ & Hrow). exact (Hrow i Hi).
      - assert (Hkm' : (1 <= k <= m)%nat) by lia.
        assert (Hkl : (k < List.length (st_xs st'))%nat) by lia.
        destruct (Hcov j k Hj Hkm' (covered_at_app xs (st_xs st') (t_xnew t) j k Hkl Hct))
          as (Hlt & h' & Hd).
        split; [lia|]. exists h'. cbv zeta in *.
        unfold xs1. rewrite !idx_app_l by lia.
        unfold ysA. rewrite !row_of_app_l by nia.
        destruct Hd as (Hd1 & Hd2 & Hd3). split; [exact Hd1|]. split; [exact Hd2|].
        intros i Hi. rewrite Hrest by (left; nia). exact (Hd3 i Hi). }
    destruct done.
    + intros _. intros ys0 xs0 ys0' Hys Hxs0 Hys0' j k Hj Hkk Hct.
      cbn in Hys, Hxs0, Hys0'.
      injection Hys as <-. injection Hxs0 as <-. injection Hys0' as <-.
      apply (Hc1 j k Hj); [|exact Hct].
      unfold xs1 in Hkk. rewrite length_app in Hkk. cbn [List.length] in Hkk. lia.
    + intros Hfix. split; [repeat split|]. split; [exact Hfix|].
      cbn [st_nc st_ys st_xs st_x st_y st_f1]. split; [lia|].
      split; [rewrite Ht; reflexivity|]. exists (S m).
      split; [unfold xs1; rewrite length_app; cbn [List.length]; lia|].
      split; [unfold ysA; rewrite length_app; lia|].
      split; [exact Hnew|]. split; [exact Hrow1|].
      split; [exact Hr1 | exact Hc1].
  - intros _. cbn. intros ys0 xs0 ys0' Hys. discriminate Hys.
Qed.

Lemma steps_dense (tries fuel : nat) :
  forall (st st' : loop_state) (ret ret' : returned),
    dense_invariant dydx nd nx threshold xs st st' ->
    steps pow dydx nd nx xs true relerr threshold hmax xend tries fuel st = Return ret ->
    steps pow dydx nd nx' xs' false relerr threshold hmax xend tries fuel st' = Return ret' ->
    dense_return dydx nd nx threshold xs ret ret'.
Proof.
  induction fuel as [|fuel IH]; intros st st' ret ret' Hinv H H'; cbn [steps] in H, H';
    [discriminate|].
  pose proof (step_dense tries st st' Hinv) as Hs.
  destruct (step pow dydx nd nx xs true relerr threshold hmax xend tries st) as [|r|a],
           (step pow dydx nd nx' xs' false relerr threshold hmax xend tries st') as [|r'|b];
    try contradiction; try discriminate.
  - injection H as <-. injection H' as <-. exact Hs.
  - eapply IH; eassumption.
Qed.

End Dense.

(** X20. With fixed output points and a nonzero [TryStep], each row of the
    output that the integration reached is the dense output of the accepted
    step that first covers its grid point.  Let the call with only the end
    points return the points [xs'] and rows [ys'] of the integration.  If
    the point [k] of [xs'] is the first that the grid point [j] is not
    beyond, and no earlier grid point is beyond it, there is a step size [h]
    such that the trial step from the point [k - 1] and its row, with the
    slope of the system there, ends at the point [k] with the row [k], and
    the row [j] of the fixed output is that row where the grid point equals
    the end of the step and is what [interpolate] gives for that step at the
    grid point otherwise. *)
Theorem fixed_rows_are_dense_output pow dydx (fuel : nat) (self : Integrator) (y0 : vec)
        (x0 : float) (rest : vec) (ret ret' : returned) (ys xs' ys' : vec) :
  let xs := x0 :: rest in
  let xend := xs.[List.length xs - 1] in
  let nd := List.length y0 in
  let threshold := AbsError (config self) / RelError (config self) in
  (2 < List.length xs)%nat ->
  (TryStep (config self) =? 0) = false ->
  ComputeWithStats pow dydx fuel self y0 xs = Return ret ->
  ret_ys ret = Some ys ->
  ComputeWithStats pow dydx fuel self y0 [x0; xend] = Return ret' ->
  ret_xs ret' = Some xs' ->
  ret_ys ret' = Some ys' ->
  forall j k,
    (1 <= j < List.length xs)%nat -> (1 <= k < List.length xs')%nat ->
    (xs'.[k] - xs.[j] <? 0) = false ->
    (forall k', (1 <= k' < k)%nat -> (xs'.[k'] - xs.[j] <? 0) = true) ->
    (forall j', (1 <= j' < j)%nat -> (xs'.[k] - xs.[j'] <? 0) = false) ->
    exists h,
      let x := xs'.[k - 1] in
      let y := row_of nd ys' (k - 1) in
      let t := attempt dydx nd threshold x h y (dydx x y) in
      xs'.[k] = t_xnew t
      /\ row_of nd ys' k = t_ynew t
      /\ forall i, (i < nd)%nat ->
           ys.[j * nd + i]
           = (if xs.[j] =? t_xnew t then t_ynew t
              else interpolate x y (t_f t) h xs.[j]).[i].
Proof.
  intros xs xend nd threshold Hnx Htry Hrun Hys Hrun' Hxs' Hys' j k Hj Hk Hnb Hbefore Hearlier.
  unfold xs in Hrun. rewrite ComputeWithStats_unfold in Hrun, Hrun'. cbv zeta in Hrun, Hrun'.
  fold xs in Hrun. rewrite Htry in Hrun, Hrun'. cbn [andb] in Hrun, Hrun'.
  assert (Hfixed : (2 <? List.length xs)%nat = true) by (apply Nat.ltb_lt; exact Hnx).
  rewrite !Hfixed in Hrun.
  change ([x0; xend].[List.length [x0; xend] - 1]) with xend in Hrun'.
  fold xend nd threshold in Hrun, Hrun'.
  change ((2 <? List.length [x0; xend])%nat) with false in Hrun'. cbv iota in Hrun'.
  eapply steps_dense in Hrun; [|clear Hrun|exact Hrun'].
  - apply (Hrun ys xs' ys' Hys Hxs' Hys' j k Hj Hk). repeat split; assumption.
  - assert (Hz : List.length (repeat 0 (List.length xs * nd)) = (List.length xs * nd)%nat)
      by apply repeat_length.
    assert (Hfit : Nat.le ((0 + 1) * nd) (List.length (repeat 0 (List.length xs * nd))))
      by (rewrite Hz; nia).
    split; [repeat split|]. split; [|split; [cbn [st_nc]; lia|]].
    + repeat split; cbn [st_ys st_nc st_y st_xs]; try lia.
      rewrite length_write_row; [exact Hz|reflexivity|exact Hfit].
    + split; [reflexivity|]. exists 0%nat. cbn [st_ys st_nc st_y st_xs st_x List.length].
      split; [reflexivity|]. split; [fold nd; lia|]. split; [reflexivity|].
      split; [unfold row_of; cbn [Nat.mul skipn]; apply firstn_all|].
      split; intros; lia.
Qed.

(** ** [epsilon] *)

(** X12.  [epsilon], and with it the least step size [hmin = 16 * epsilon(x)],
    depends on the magnitude of its argument only. *)
Theorem epsilon_even (x : float) : epsilon (- x) = epsilon x.
Proof.
  destruct (Prim2SF x) as [s|s| |s m e] eqn:E.
  - apply Prim2SF_zero_cases in E. subst x. destruct s; vm_compute; reflexivity.
  - apply Prim2SF_infinity_cases in E. subst x. destruct s; vm_compute; reflexivity.
  - assert (x = nan) by (apply Prim2SF_inj; rewrite E; reflexivity). subst x. reflexivity.
  - unfold epsilon.
    assert (Hx : (x <? 0) = s) by (to_spec; rewrite E; destruct s; reflexivity).
    assert (Hn : (- x <? 0) = negb s) by (to_spec; rewrite E; destruct s; reflexivity).
    rewrite Hx, Hn. destruct s; cbn [negb]; rewrite ?opp_involutive; reflexivity.
Qed.

(** ** Package rk4 *)

Lemma skipn_repeat_zero (n m : nat) :
  skipn n (repeat 0 m) = repeat 0 (m - n).
Proof.
  revert m. induction n as [|n IH]; intros m; cbn [skipn].
  - rewrite Nat.sub_0_r. reflexivity.
  - destruct m as [|m]; cbn [repeat Nat.sub]; [reflexivity | apply IH].
Qed.

Lemma length_advance dydx (nd : nat) (h x : float) (y : vec) :
  List.length (rk4.advance dydx nd h x y) = nd.
Proof. apply length_tabulate. Qed.

Lemma rk4_point_succ (h x : float) (k : nat) :
  rk4_point h (x + h) k = rk4_point h x (S k).
Proof.
  unfold rk4_point. symmetry. exact (Nat.iter_succ_r k float (fun x => x + h) x).
Qed.

Section Rk4Rows.
Variable dydx : float -> vec -> vec.
Variables (nd : nat) (h : float).

Lemma iterate_rows (n : nat) :
  forall (k : nat) (x : float) (y ys ys' : vec),
    skipn (k * nd) ys = repeat 0 (List.length ys - k * nd) ->
    rk4.iterate dydx nd h n k x y ys = Return ys' ->
    List.length ys' = List.length ys
    /\ firstn (k * nd) ys' = firstn (k * nd) ys
    /\ (n = 0%nat \/ (k + n) * nd <= List.length ys)%nat
    /\ ((1 <= n)%nat -> row_of nd ys' k = rk4.advance dydx nd h x y)
    /\ (forall j, (k < j < k + n)%nat ->
          row_of nd ys' j
          = rk4.advance dydx nd h (rk4_point h x (j - k))
                        (row_of nd ys' (j - 1) ++ repeat 0 (List.length ys - j * nd))).
Proof.
  induction n as [|n IH]; intros k x y ys ys' Hz H; cbn [rk4.iterate] in H.
  - injection H as <-. repeat split; auto; intros; lia.
  - destruct (Nat.leb_spec (k * nd + nd) (List.length ys)) as [Hfit|]; [|discriminate].
    set (row := rk4.advance dydx nd h x y) in *.
    assert (Hrow : List.length row = nd) by apply length_advance.
    assert (Hfit' : ((k + 1) * nd <= List.length ys)%nat) by lia.
    set (ys1 := write_row nd ys k row) in *.
    assert (Hl1 : List.length ys1 = List.length ys)
      by (apply length_write_row; assumption).
    assert (Hf : List.length (firstn (k * nd) ys) = (k * nd)%nat)
      by (rewrite length_firstn; lia).
    assert (Htail : skipn ((k + 1) * nd) ys = repeat 0 (List.length ys - (k + 1) * nd)).
    { replace ((k + 1) * nd)%nat with (nd + k * nd)%nat by lia.
      rewrite <- skipn_skipn, Hz, skipn_repeat_zero. f_equal. lia. }
    assert (Hs1 : skipn (k * nd) ys1 = row ++ repeat 0 (List.length ys - (k + 1) * nd)).
    { unfold ys1, write_row. rewrite skipn_app, Hf, Nat.sub_diag.
      rewrite skipn_all2 by lia. cbn [skipn app]. rewrite Htail. reflexivity. }
    assert (Hz1 : skipn (S k * nd) ys1 = repeat 0 (List.length ys1 - S k * nd)).
    { replace (S k * nd)%nat with (nd + k * nd)%nat by lia.
      rewrite <- skipn_skipn, Hs1, skipn_app, Hrow, Nat.sub_diag.
      rewrite skipn_all2 by lia. cbn [skipn app]. rewrite Hl1. f_equal. lia. }
    destruct (IH (S k) (x + h) _ ys1 ys' Hz1 H) as (Hl & Hpre & Hn & Hfirst & Hrec).
    assert (Hpre_k : firstn (k * nd) ys' = firstn (k * nd) ys).
    { assert (Hmin : Nat.min (k * nd) (S k * nd) = (k * nd)%nat) by lia.
      transitivity (firstn (k * nd) (firstn (S k * nd) ys'));
        [rewrite firstn_firstn, Hmin; reflexivity|].
      rewrite Hpre, firstn_firstn, Hmin.
      unfold ys1, write_row. rewrite firstn_app, Hf, Nat.sub_diag.
      rewrite firstn_all2 by lia. cbn [firstn]. apply app_nil_r. }
    assert (Hrow_k : row_of nd ys' k = row).
    { unfold row_of.
      assert (E : firstn (S k * nd) ys' = firstn (k * nd) ys ++ row).
      { rewrite Hpre. unfold ys1, write_row.
        rewrite app_assoc, firstn_app.
        replace (List.length (firstn (k * nd) ys ++ row)) with (S k * nd)%nat
          by (rewrite length_app, Hf, Hrow; lia).
        rewrite Nat.sub_diag. rewrite firstn_all2 by (rewrite length_app, Hf, Hrow; lia).
        cbn [firstn]. apply app_nil_r. }
      rewrite <- (firstn_skipn (S k * nd) ys').
      rewrite E, <- app_assoc, skipn_app, Hf, Nat.sub_diag.
      rewrite skipn_all2 by lia. cbn [skipn app].
      rewrite firstn_app, Hrow, Nat.sub_diag. rewrite firstn_all2 by lia.
      cbn [firstn]. apply app_nil_r. }
    split; [lia|]. split; [exact Hpre_k|]. split; [right; lia|].
    split; [intros _; exact Hrow_k|].
    intros j Hj. destruct (Nat.eq_dec j (S k)) as [->|Hne].
    + rewrite (Hfirst ltac:(lia)).
      replace (S k - k)%nat with 1%nat by lia.
      replace (S k - 1)%nat with k by lia.
      rewrite Hrow_k, Hs1. replace ((k + 1) * nd)%nat with (S k * nd)%nat by lia.
      reflexivity.
    + rewrite (Hrec j ltac:(lia)). rewrite rk4_point_succ, Hl1.
      replace (S (j - S k)) with (j - k)%nat by lia. reflexivity.
Qed.

End Rk4Rows.


Lemma copy_zeros (n : nat) (y0 : vec) :
  (List.length y0 <= n)%nat ->
  rk4.copy (repeat 0 n) y0 = y0 ++ repeat 0 (n - List.length y0).
Proof.
  intros H. unfold rk4.copy. rewrite repeat_length, firstn_all2 by lia.
  rewrite skipn_repeat_zero. reflexivity.
Qed.

Lemma iterate_returns dydx (nd : nat) (h : float) (n : nat) :
  forall (k : nat) (x : float) (y ys : vec),
    ((k + n) * nd <= List.length ys)%nat ->
    exists ys', rk4.iterate dydx nd h n k x y ys = Return ys'.
Proof.
  induction n as [|n IH]; intros k x y ys Hfit; cbn [rk4.iterate]; [eauto|].
  destruct (Nat.leb_spec (k * nd + nd) (List.length ys)) as [_|Hno]; [|nia].
  apply IH. rewrite length_write_row; [nia|apply length_advance|nia].
Qed.


(** X14.  Whenever [rk4.Compute] returns, the error is [nil], the grid is the
    one it was given, and every row after the first is the Runge-Kutta step
    from the row before: the derivative is evaluated on [y0] for the row 1
    and, from then on, on the slice of [ys] that starts at the row before and
    runs to the end of [ys], over the rows still zero. *)
Theorem rk4_rows_recurrence (int_of_unrepresentable : float -> Z) (max_len : Z)
        (dydx : float -> vec -> vec) (self : rk4.Integrator) (y0 : vec)
        (x0 : float) (rest : vec) (ys xs' : vec) (err : error) :
  let xs := x0 :: rest in
  let nd := List.length y0 in
  let h := rk4.Step (rk4.config self) in
  let ns := rk4.rows int_of_unrepresentable h x0 xs.[List.length xs - 1] in
  rk4.Compute int_of_unrepresentable max_len dydx self y0 xs = Return (ys, xs', err) ->
  err = None /\ xs' = xs
  /\ ((1 < ns)%Z -> row_of nd ys 1 = rk4.advance dydx nd h x0 y0)
  /\ forall k, (1 < k)%nat -> (Z.of_nat k < ns)%Z ->
       row_of nd ys k
       = rk4.advance dydx nd h (rk4_point h x0 (k - 1))
                     (row_of nd ys (k - 1) ++ repeat 0 (List.length ys - k * nd)).
Proof.
  intros xs nd h ns. unfold rk4.Compute. unfold xs at 1. cbv beta iota zeta.
  fold xs nd h ns.
  set (len := rk4.wrap_int (ns * Z.of_nat nd)).
  destruct ((len <? 0)%Z || (max_len <? len)%Z) eqn:Hmake; [discriminate|].
  apply orb_false_iff in Hmake. destruct Hmake as (Hneg & _). apply Z.ltb_ge in Hneg.
  destruct (rk4.iterate dydx nd h (Z.to_nat (ns - 1)) 1 x0 y0
                        (rk4.copy (repeat 0 (Z.to_nat len)) y0)) as [| |ys1] eqn:Hrun;
    try discriminate.
  intros H. injection H as <- <- <-. split; [reflexivity|]. split; [reflexivity|].
  destruct (Z_lt_le_dec 1 ns) as [Hns|Hns]; [|split; intros; lia].
  (* the loop ran: its first iteration found the row 1 within [ys] *)
  set (ys_init := rk4.copy (repeat 0 (Z.to_nat len)) y0) in *.
  assert (Hfit : (1 * nd + nd <= List.length ys_init)%nat).
  { destruct (Z.to_nat (ns - 1)) as [|n] eqn:En; [lia|]. cbn [rk4.iterate] in Hrun.
    destruct (Nat.leb_spec (1 * nd + nd) (List.length ys_init)) as [Hle|];
      [exact Hle | discriminate]. }
  unfold ys_init in *. clear ys_init.
  assert (Hnd : (nd <= Z.to_nat len)%nat).
  { unfold rk4.copy in Hfit. rewrite length_app, length_firstn, length_skipn,
      repeat_length in Hfit. fold nd in Hfit. lia. }
  rewrite copy_zeros in Hrun, Hfit by exact Hnd. fold nd in Hrun, Hfit.
  set (ys0 := y0 ++ repeat 0 (Z.to_nat len - nd)) in *.
  assert (Hl0 : List.length ys0 = Z.to_nat len)
    by (unfold ys0; rewrite length_app, repeat_length; fold nd; lia).
  assert (Hz : skipn (1 * nd) ys0 = repeat 0 (List.length ys0 - 1 * nd)).
  { unfold ys0 at 1. rewrite Nat.mul_1_l, skipn_app. fold nd.
    rewrite Nat.sub_diag, skipn_all2 by (fold nd; lia). cbn [skipn app].
    rewrite Hl0. reflexivity. }
  destruct (iterate_rows dydx nd _ _ _ _ _ _ _ Hz Hrun) as (Hl & _ & _ & Hfirst & Hrec).
  split.
  - intros _. apply Hfirst. lia.
  - intros k Hk Hkn. rewrite (Hrec k ltac:(lia)). rewrite Hl. reflexivity.
Qed.

Lemma div_by_zero_not_finite (a h : float) :
  (h =? 0) = true ->
  match Prim2SF (a / h + 0.5) with
  | S754_infinity _ | S754_nan => True
  | _ => False
  end.
Proof.
  rewrite eqb_spec, add_spec, div_spec.
  change (Prim2SF 0) with (S754_zero false). change (Prim2SF 0.5) with (S754_finite false 4503599627370496 (-53)).
  destruct (Prim2SF h) as [sh|sh| |sh mh eh]; try (destruct sh; discriminate);
    try discriminate; intros _;
    destruct (Prim2SF a) as [sa|sa| |sa ma ea]; cbn; try exact I;
    destruct sa, sh; exact I.
Qed.

(** X15.  [rk4.New] accepts a step of zero; with it the number [Compute]
    converts to the count of rows is an infinity or a NaN whatever the grid,
    which [int] cannot represent. *)
Theorem rk4_zero_step (c : rk4.Config) :
  (rk4.Step c =? 0) = true ->
  rk4.New c = (Some {| rk4.config := c |}, None)
  /\ forall x0 xend : float, rk4.truncate ((xend - x0) / rk4.Step c + 0.5) = None.
Proof.
  intros H. split.
  - unfold rk4.New, rk4.verify.
    replace (rk4.Step c <? 0) with false; [reflexivity|].
    symmetry. revert H. to_spec. sf_cases (rk4.Step c); sf_unfold; intros H;
      try discriminate; reflexivity.
  - intros x0 xend. pose proof (div_by_zero_not_finite (xend - x0) _ H) as Hd.
    unfold rk4.truncate. destruct (Prim2SF _); try contradiction; reflexivity.
Qed.

Lemma length_copy (dst src : vec) : List.length (rk4.copy dst src) = List.length dst.
Proof.
  unfold rk4.copy. rewrite length_app, length_firstn, length_skipn. lia.
Qed.

Lemma iterate_panics dydx (nd : nat) (h : float) (n : nat) :
  forall (k : nat) (x : float) (y ys : vec),
    (1 <= n)%nat -> (List.length ys < (k + n) * nd)%nat ->
    rk4.iterate dydx nd h n k x y ys = Panic.
Proof.
  induction n as [|n IH]; intros k x y ys Hn Hout; [lia|]. cbn [rk4.iterate].
  destruct (Nat.leb_spec (k * nd + nd) (List.length ys)) as [Hfit|_]; [|reflexivity].
  destruct n as [|n]; [nia|].
  apply IH; [lia|]. rewrite length_write_row; [nia|apply length_advance|nia].
Qed.

(** X18.  How [rk4.Compute] ends, for a [y0] whose work slices [z] and [f]
    (lines 31-33, of [len(y0)] and [4 * len(y0)] values) [make] accepts: it
    panics or it returns the rows, the grid it was given and no error.  It
    panics exactly when the grid is empty ([xs[0]]), when the number of values
    [ns * len(y0)], as an [int], is negative or beyond what [make] accepts, or
    when there are two rows or more and the product has wrapped around, so
    that the rows of the loop do not lie within [ys]. *)
Theorem rk4_Compute_panics (int_of_unrepresentable : float -> Z) (max_len : Z)
        (dydx : float -> vec -> vec) (self : rk4.Integrator) (y0 xs : vec) :
  let nd := Z.of_nat (List.length y0) in
  let ns := rk4.rows int_of_unrepresentable (rk4.Step (rk4.config self)) xs.[0]
                     xs.[List.length xs - 1] in
  let len := rk4.wrap_int (ns * nd) in
  (nd <= max_len)%Z ->
  (0 <= rk4.wrap_int (4 * nd) <= max_len)%Z ->
  (rk4.Compute int_of_unrepresentable max_len dydx self y0 xs = Panic
   <-> xs = [] \/ (len < 0)%Z \/ (max_len < len)%Z \/ (2 <= ns /\ len < ns * nd)%Z)
  /\ (rk4.Compute int_of_unrepresentable max_len dydx self y0 xs = Panic
      \/ exists ys,
          rk4.Compute int_of_unrepresentable max_len dydx self y0 xs = Return (ys, xs, None)).
Proof.
  destruct xs as [|x0 rest]; intros nd ns len _ _.
  - split; [split; [auto | reflexivity] | left; reflexivity].
  - assert (Hns : rk4.rows int_of_unrepresentable (rk4.Step (rk4.config self)) x0
                           (x0 :: rest).[List.length (x0 :: rest) - 1] = ns)
      by reflexivity.
    unfold rk4.Compute. cbv beta iota zeta. rewrite !Hns. fold nd len.
    destruct (Z.ltb_spec len 0) as [Hneg|Hpos]; cbn [orb].
    { split; [split; [intros _; right; left; exact Hneg | reflexivity] | left; reflexivity]. }
    destruct (Z.ltb_spec max_len len) as [Hbig|Hfit].
    { split; [split; [intros _; right; right; left; exact Hbig | reflexivity]
             | left; reflexivity]. }
    set (ys0 := rk4.copy (repeat 0 (Z.to_nat len)) y0).
    assert (Hl0 : List.length ys0 = Z.to_nat len)
      by (unfold ys0; rewrite length_copy; apply repeat_length).
    destruct (Z_lt_le_dec ns 2) as [Hns2|Hns2].
    + replace (Z.to_nat (ns - 1)) with 0%nat by lia. cbn [rk4.iterate].
      split; [|right; eauto].
      split; [discriminate|]. intros [H|[H|[H|H]]]; try discriminate H; lia.
    + destruct (Z_lt_le_dec len (ns * nd)) as [Hover|Hin].
      * rewrite iterate_panics by (try rewrite Hl0; unfold nd in *; nia).
        split; [|left; reflexivity].
        split; [intros _; right; right; right; split; assumption | reflexivity].
      * destruct (iterate_returns dydx (List.length y0) (rk4.Step (rk4.config self))
                    (Z.to_nat (ns - 1)) 1 x0 y0 ys0) as (ys & Hrun);
          [rewrite Hl0; unfold nd in *; nia|].
        rewrite Hrun. split; [|right; eauto].
        split; [discriminate|]. intros [H|[H|[H|H]]]; try discriminate H; lia.
Qed.

(** ** Examples

    The calls below consult [pow] at 0 only, or not at all: each holds for
    whatever [pow] is elsewhere. *)

(** The integration of dy/dx = y from 5e15, where [hmin = 16] and
    [hmax = 16]: the first pass is rejected at [h = hmin]. *)
Lemma underflow_run_any_pow (pow : float -> float -> float) :
  ComputeWithStats pow exponential 5 {| config := default_limit_config |}
                   [1] [5000000000000000; 5000000000000160]
  = Return underflow_return.
Proof. vm_compute. reflexivity. Qed.

(** C2, counterexample: a call that fails with the underflow returns its
    statistics (7 evaluations, 1 rejection, 1 step) beside the error. *)
Lemma underflow_run_returns_statistics :
  ComputeWithStats (pow_special nan) exponential 5 {| config := default_limit_config |}
                   [1] [5000000000000000; 5000000000000160]
  = Return {| ret_ys := None; ret_xs := None;
              ret_stats := Some {| Evaluations := 7; Rejections := 1; Steps := 1 |};
              ret_err := Some underflow_error |}.
Proof. apply underflow_run_any_pow. Qed.

Lemma underflow_returns_statistics_only_witness :
  ret_ys underflow_return = None
  /\ ret_xs underflow_return = None
  /\ ret_err underflow_return = Some underflow_error
  /\ exists s : Stats, ret_stats underflow_return = Some s.
Proof.
  apply (underflow_returns_statistics_only (pow_special nan) exponential 5
           {| config := default_limit_config |} [1] [5000000000000000; 5000000000000160]).
  - vm_compute. reflexivity.
  - discriminate.
Defined.

Lemma evaluations_at_least_six_per_step_witness :
  {| Evaluations := 7; Rejections := 1; Steps := 1 |}
  = ComputeWithStats_tally (pow_special nan) exponential 5
      {| config := default_limit_config |} [1] [5000000000000000; 5000000000000160]
  /\ (6 * Steps {| Evaluations := 7; Rejections := 1; Steps := 1 |}
      <= Evaluations {| Evaluations := 7; Rejections := 1; Steps := 1 |})%N.
Proof.
  apply (evaluations_at_least_six_per_step (pow_special nan) exponential 5
           {| config := default_limit_config |} [1] [5000000000000000; 5000000000000160]
           underflow_return).
  - vm_compute. reflexivity.
  - reflexivity.
  - vm_compute. reflexivity.
Defined.

(** C5, counterexample: the integration of dy/dx = 1e50 * y over [0, 1] with
    [loose_config] succeeds after 12 steps and 20 rejections. *)
Lemma rejections_exceed_steps :
  exists ret,
    ComputeWithStats (pow_special nan) fast_growth 100 {| config := loose_config |} [1] [0; 1]
    = Return ret
    /\ ret_err ret = None
    /\ ret_stats ret = Some {| Evaluations := 193; Rejections := 20; Steps := 12 |}.
Proof. eexists. split; [vm_compute; reflexivity|]. split; reflexivity. Qed.

Lemma rejections_exceed_steps_any_default (d : float) :
  exists ret,
    ComputeWithStats (pow_special d) fast_growth 100 {| config := loose_config |} [1] [0; 1]
    = Return ret
    /\ ret_err ret = None
    /\ ret_stats ret = Some {| Evaluations := 193; Rejections := 20; Steps := 12 |}.
Proof. eexists. split; [vm_compute; reflexivity|]. split; reflexivity. Qed.

Lemma late_growth_start_is_initial (pow : float -> float -> float) (fuel : nat) :
  ComputeWithStats pow late_growth fuel {| config := unit_step_config |} [1] [0; 1]
  = steps pow late_growth 1 2 [0; 1] false 1e-3 (1e-6 / 1e-3) 1 1 fuel fuel late_growth_start.
Proof. reflexivity. Qed.

(** C3, counterexample: the first step of [late_growth] is rejected at
    [h = 1] (the seventh derivative overflows) and accepted at [h = 0.1] with
    error 0; it is not the last step, the rule of the claim gives
    [5 * 0.1 = 0.5], and the next step starts from 0.1. *)
Lemma step_after_rejection_keeps_size :
  step (pow_special nan) late_growth 1 2 [0; 1] false 1e-3 (1e-6 / 1e-3) 1 1 10
       late_growth_start
  = StepNext late_growth_next
  /\ t_eps (attempt late_growth 1 (1e-6 / 1e-3) 0 0.1 [1] [0]) = 0
  /\ (let scale := 1.25 * pow_special nan (0 / 1e-3) power in
      if 0.2 <? scale then 0.1 / scale else 5 * 0.1) = 0.5
  /\ st_h late_growth_next = 0.1.
Proof. vm_compute. repeat split. Qed.

Lemma step_after_rejection_any_default (d : float) :
  step (pow_special d) late_growth 1 2 [0; 1] false 1e-3 (1e-6 / 1e-3) 1 1 10
       late_growth_start
  = StepNext late_growth_next.
Proof. vm_compute. reflexivity. Qed.

Lemma next_step_size_witness :
  exists (hmin h0 h : float) (done0 rejected : bool) (t : trial) (stats : Stats),
    clamp 1 1 (st_x late_growth_start) (st_h late_growth_start) = (hmin, h0, done0)
    /\ attempts (pow_special nan) late_growth 1 1e-3 (1e-6 / 1e-3) 10
                (st_x late_growth_start) hmin (st_y late_growth_start)
                (st_f1 late_growth_start) h0 done0 false
                (incr_Steps (st_stats late_growth_start))
       = Some (Accepted h false rejected t stats)
    /\ (rejected = false
        <-> pass (pow_special nan) late_growth 1 1e-3 (1e-6 / 1e-3)
                 (st_x late_growth_start) hmin (st_y late_growth_start)
                 (st_f1 late_growth_start) h0 false
                 (incr_Steps (st_stats late_growth_start)) = PassBreak t stats)
    /\ st_x late_growth_next = t_xnew t
    /\ st_y late_growth_next = t_ynew t
    /\ st_f1 late_growth_next = s_f7 (t_f t)
    /\ st_h late_growth_next =
         (if rejected then h
          else
            let scale := 1.25 * pow_special nan (t_eps t / 1e-3) power in
            if 0.2 <? scale then h / scale else 5 * h).
Proof.
  apply (next_step_size (pow_special nan) late_growth 1 2 [0; 1] false 1e-3 (1e-6 / 1e-3)
           1 1 10 late_growth_start late_growth_next).
  vm_compute. reflexivity.
Defined.

Lemma rejected_pass_shrinks_step_witness :
  pass (pow_special nan) late_growth 1 1e-3 (1e-6 / 1e-3) 0 (16 * epsilon 0) [1] [0] 1 false
       {| Evaluations := 1; Rejections := 0; Steps := 1 |}
  = PassRetry 0.1 {| Evaluations := 7; Rejections := 1; Steps := 1 |}.
Proof.
  destruct (rejected_pass_shrinks_step (pow_special nan) late_growth 1 1e-3 (1e-6 / 1e-3)
              0%nat 0 (16 * epsilon 0) 1 [1] [0] true false
              {| Evaluations := 1; Rejections := 0; Steps := 1 |})
    as (_ & _ & Hpass & _).
  - vm_compute. reflexivity.
  - rewrite Hpass. vm_compute. reflexivity.
Defined.

(** The whole integration of [late_growth]: 8 steps and 3 rejections. *)
Lemma evaluations_identity_witness :
  exists ret s,
    ComputeWithStats (pow_special nan) late_growth 12 {| config := unit_step_config |} [1] [0; 1]
    = Return ret
    /\ ret_stats ret = Some s
    /\ s = {| Evaluations := 67; Rejections := 3; Steps := 8 |}
    /\ Evaluations s = ((1 + 6 * (Steps s + Rejections s)) mod uint_modulus)%N
    /\ ((N.of_nat 12 < 2 ^ 30)%N -> Evaluations s = (1 + 6 * (Steps s + Rejections s))%N).
Proof.
  eexists. eexists. split; [vm_compute; reflexivity|]. split; [reflexivity|].
  split; [reflexivity|].
  eapply (evaluations_identity (pow_special nan) late_growth 12
            {| config := unit_step_config |} [1] [0; 1]).
  - vm_compute. reflexivity.
  - reflexivity.
  - reflexivity.
Defined.

(** dy/dx = 1 on the grid [0, 0.25, 1]: the row of 0.25 is interpolated, the
    row of 1 is the end of the second step. *)
Lemma fixed_grid_output_witness :
  exists ys,
    ret_ys unit_slope_return = Some ys
    /\ List.length ys = Nat.mul (List.length [0; 0.25; 1]) (List.length [1])
    /\ ret_xs unit_slope_return = Some [0; 0.25; 1].
Proof.
  apply (proj1 fixed_grid_output (pow_special nan) unit_slope 50%nat
               {| config := half_step_config |} [1] [0; 0.25; 1]).
  - vm_compute. lia.
  - vm_compute. reflexivity.
  - reflexivity.
Defined.

(** ** Examples of the further properties *)

(** The underflow of the first example: 7 evaluations, 1 rejection, 1 step. *)
Lemma underflow_statistics_witness :
  (1 <= Steps {| Evaluations := 7; Rejections := 1; Steps := 1 |}
   /\ 1 <= Rejections {| Evaluations := 7; Rejections := 1; Steps := 1 |}
   /\ Evaluations {| Evaluations := 7; Rejections := 1; Steps := 1 |} + 5
      = 6 * (Steps {| Evaluations := 7; Rejections := 1; Steps := 1 |}
             + Rejections {| Evaluations := 7; Rejections := 1; Steps := 1 |}))%N.
Proof.
  apply (underflow_statistics (pow_special nan) exponential 5
           {| config := default_limit_config |} [1] [5000000000000000; 5000000000000160]
           underflow_return).
  - vm_compute. reflexivity.
  - discriminate.
  - reflexivity.
  - vm_compute. reflexivity.
Defined.

(** A step of dy/dx = NaN from [y = [1]]: accepted with the error 0. *)
Lemma nan_derivative_is_accepted_witness :
  t_eps (attempt undefined_slope 1 (1e-6 / 1e-3) 0 1 [1] [nan]) = 0
  /\ pass (pow_special nan) undefined_slope 1 1e-3 (1e-6 / 1e-3) 0 (16 * epsilon 0)
          [1] [nan] 1 false {| Evaluations := 1; Rejections := 0; Steps := 1 |}
     = PassBreak (attempt undefined_slope 1 (1e-6 / 1e-3) 0 1 [1] [nan])
                 (add_Evaluations 6 {| Evaluations := 1; Rejections := 0; Steps := 1 |}).
Proof.
  apply (nan_derivative_is_accepted (pow_special nan) undefined_slope 1 1e-3 (1e-6 / 1e-3)
           0 (16 * epsilon 0) [1] [nan] 1 false
           {| Evaluations := 1; Rejections := 0; Steps := 1 |}).
  - intros i Hi. destruct i as [|i]; [reflexivity | lia].
  - reflexivity.
Defined.

(** The inner loop of [late_growth] after a rejection, entered at [h = 0.1]. *)
Lemma inner_loop_ends_after_a_rejection_witness :
  exists res,
    attempts (pow_special nan) late_growth 1 1e-3 (1e-6 / 1e-3) 2101 0 (16 * epsilon 0)
             [1] [0] 0.1 false true {| Evaluations := 7; Rejections := 1; Steps := 1 |}
    = Some res.
Proof.
  apply (inner_loop_ends_after_a_rejection (pow_special nan) late_growth 1 1e-3 (1e-6 / 1e-3)
           0 (16 * epsilon 0) [1] [0] 0.1 false
           {| Evaluations := 7; Rejections := 1; Steps := 1 |} 2101).
  - reflexivity.
  - vm_compute. exact I.
  - apply le_n.
Defined.

(** dy/dx = 1 on the grids [0, 0.25, 1] and [0, 1]: 2 steps either way. *)
Lemma output_grid_does_not_change_the_path_witness :
  ret_stats unit_slope_return = ret_stats unit_slope_adaptive_return
  /\ ret_err unit_slope_return = ret_err unit_slope_adaptive_return.
Proof.
  apply (proj1 (output_grid_does_not_change_the_path (pow_special nan) unit_slope 50
                  {| config := half_step_config |} [1] 0 [0.25; 1] [1]
                  eq_refl (or_introl eq_refl))).
  - vm_compute. reflexivity.
  - vm_compute. reflexivity.
Defined.

(** [late_growth] over [0, 1]: 9 points for 8 steps. *)
Lemma adaptive_output_shape_witness :
  exists ret,
    ComputeWithStats (pow_special nan) late_growth 12 {| config := unit_step_config |}
                     [1] [0; 1] = Return ret
    /\ exists ys xs' s,
        ret_ys ret = Some ys /\ ret_xs ret = Some xs' /\ ret_stats ret = Some s
        /\ List.length ys = Nat.mul (List.length xs') (List.length [1])
        /\ (2 <= List.length xs')%nat
        /\ Steps s = (N.of_nat (List.length xs' - 1) mod uint_modulus)%N.
Proof.
  eexists. split; [vm_compute; reflexivity|].
  apply (adaptive_output_shape (pow_special nan) late_growth 12
           {| config := unit_step_config |} [1] [0; 1]).
  - cbn. lia.
  - vm_compute. reflexivity.
  - reflexivity.
Defined.

(** dy/dx = 1 over [-1, 1e-20]: the last point returned is 0. *)
Lemma adaptive_output_ends_witness :
  exists xs' l x,
    ret_xs short_of_end_adaptive_return = Some xs'
    /\ xs'.[0] = [-1; 1e-20].[0]
    /\ xs' = l ++ [x; x + ([-1; 1e-20].[List.length [-1; 1e-20] - 1] - x)].
Proof.
  apply (adaptive_output_ends (pow_special nan) unit_slope 50
           {| config := half_step_config |} [1] [-1; 1e-20]).
  - cbn. lia.
  - vm_compute. reflexivity.
  - reflexivity.
Defined.

(** dy/dx = 1 on the grid [0, 0.25, 1]: the first row is [1]. *)
Lemma first_row_is_initial_state_witness :
  exists ys,
    ret_ys unit_slope_return = Some ys
    /\ (List.length [1] <= List.length ys)%nat
    /\ forall i, (i < List.length [1])%nat -> ys.[i] = [1].[i].
Proof.
  apply (first_row_is_initial_state (pow_special nan) unit_slope 50
           {| config := half_step_config |} [1] [0; 0.25; 1]).
  - vm_compute. reflexivity.
  - reflexivity.
Defined.

(** A system with no component over [0, 1]: one step, nothing rejected. *)
Lemma empty_state_never_fails_witness :
  ret_err no_slope_return = None /\ ret_ys no_slope_return = Some []
  /\ exists s, ret_stats no_slope_return = Some s /\ Rejections s = 0%N.
Proof.
  apply (empty_state_never_fails (pow_special nan) no_slope 5
           {| config := unit_step_config |} [0; 1]).
  - reflexivity.
  - vm_compute. reflexivity.
Defined.

(** [DefaultConfig] is a configuration of numbers within the bounds. *)
Lemma New_rejects_invalid_numbers_witness :
  New DefaultConfig = (Some {| config := DefaultConfig |}, None).
Proof.
  apply (New_rejects_invalid_numbers DefaultConfig).
  - repeat split; reflexivity.
  - repeat split; reflexivity.
Defined.


Lemma rk4_rows_recurrence_witness :
  @None string = None /\ [0; 1] = [0; 1]
  /\ ((1 < rk4.rows amd64_int 0.25 0 1)%Z ->
      row_of 1 [1; 1.25; 1.5; 1.75; 2] 1 = rk4.advance unit_slope 1 0.25 0 [1])
  /\ forall k, (1 < k)%nat -> (Z.of_nat k < rk4.rows amd64_int 0.25 0 1)%Z ->
       row_of 1 [1; 1.25; 1.5; 1.75; 2] k
       = rk4.advance unit_slope 1 0.25 (rk4_point 0.25 0 (k - 1))
           (row_of 1 [1; 1.25; 1.5; 1.75; 2] (k - 1)
            ++ repeat 0 (List.length [1; 1.25; 1.5; 1.75; 2] - k * 1)).
Proof.
  apply (rk4_rows_recurrence amd64_int (2 ^ 45) unit_slope quarter_step [1] 0 [1]
           [1; 1.25; 1.5; 1.75; 2] [0; 1] None).
  vm_compute. reflexivity.
Defined.

Lemma rk4_zero_step_witness :
  rk4.New zero_step = (Some {| rk4.config := zero_step |}, None)
  /\ forall x0 xend : float, rk4.truncate ((xend - x0) / rk4.Step zero_step + 0.5) = None.
Proof.
  apply (rk4_zero_step zero_step). reflexivity.
Defined.

(** dy/dx = 1 on the grid [-1, -0.5, 1e-20]: the integration ends at 0 and
    the last row stays zero. *)
Lemma unreached_rows_stay_zero_witness : [1; 1.5; 0].[2 * 1 + 0] = 0.
Proof.
  apply (unreached_rows_stay_zero (pow_special nan) unit_slope 50
           {| config := half_step_config |} [1] (-1) [-0.5; 1e-20]
           short_of_end_return short_of_end_adaptive_return [1; 1.5; 0] [-1; -0.5; 0]).
  - cbn. lia.
  - reflexivity.
  - vm_compute. reflexivity.
  - reflexivity.
  - vm_compute. reflexivity.
  - reflexivity.
  - cbn. lia.
  - cbn. lia.
  - intros k Hk. destruct k as [|[|[|k]]]; cbn in Hk; try lia; vm_compute; reflexivity.
Defined.

(** dy/dx = 1 over [-1, 1e-20]: the second of the two accepted steps. *)
Lemma adaptive_rows_are_accepted_steps_witness :
  exists h,
    let y := row_of (List.length [1]) [1; 1.5; 2] 1 in
    let t := attempt unit_slope (List.length [1])
                     (AbsError half_step_config / RelError half_step_config)
                     [-1; -0.5; 0].[1] h y (unit_slope [-1; -0.5; 0].[1] y) in
    [-1; -0.5; 0].[2] = t_xnew t
    /\ row_of (List.length [1]) [1; 1.5; 2] 2 = t_ynew t
    /\ (t_eps t <=? RelError half_step_config) = true.
Proof.
  apply (adaptive_rows_are_accepted_steps (pow_special nan) unit_slope 50
           {| config := half_step_config |} [1] [-1; 1e-20] short_of_end_adaptive_return
           [1; 1.5; 2] [-1; -0.5; 0]).
  - cbn. lia.
  - vm_compute. reflexivity.
  - reflexivity.
  - reflexivity.
  - cbn. lia.
Defined.

(** A grid that runs backwards, from 1 to 0 in steps of 0.25: [ns = -2]. *)
Lemma rk4_Compute_panics_witness :
  rk4.Compute amd64_int (2 ^ 45) unit_slope quarter_step [1] [1; 0] = Panic.
Proof.
  refine (proj2 (proj1 (rk4_Compute_panics amd64_int (2 ^ 45) unit_slope quarter_step
                          [1] [1; 0] _ _)) _).
  - vm_compute. discriminate.
  - vm_compute. split; discriminate.
  - right. left. vm_compute. reflexivity.
Defined.

(** dy/dx = 1 on the grid [0, 0.25, 1]: the integration steps to 0.5 and to
    1, and the row of 1 is the row of the second step. *)
Lemma grid_points_at_step_ends_witness :
  [1; 1.25; 2].[2 * 1 + 0] = [1; 1.5; 2].[2 * 1 + 0].
Proof.
  refine (grid_points_at_step_ends (pow_special nan) unit_slope 50
            {| config := half_step_config |} [1] 0 [0.25; 1]
            unit_slope_return unit_slope_adaptive_return
            [1; 1.25; 2] [0; 0.5; 1] [1; 1.5; 2] _ _ _ _ _ _ _ 2%nat 2%nat _ _ _ _ _ 0%nat _).
  - cbn. lia.
  - reflexivity.
  - vm_compute. reflexivity.
  - reflexivity.
  - vm_compute. reflexivity.
  - reflexivity.
  - reflexivity.
  - cbn. lia.
  - cbn. lia.
  - reflexivity.
  - intros k Hk. destruct k as [|[|k]]; try lia. vm_compute. reflexivity.
  - intros j Hj. destruct j as [|[|j]]; try lia. vm_compute. reflexivity.
  - cbn. lia.
Defined.

(** dy/dx = 1 on the grid [0, 0.25, 1]: the integration steps from 0 to 0.5
    and on to 1; the row of 0.25 is the dense output of the first step. *)
Lemma fixed_rows_are_dense_output_witness :
  exists h,
    let x := [0; 0.5; 1].[1 - 1] in
    let y := row_of 1 [1; 1.5; 2] (1 - 1) in
    let t := attempt unit_slope 1 (AbsError half_step_config / RelError half_step_config) x h y (unit_slope x y) in
    [0; 0.5; 1].[1] = t_xnew t
    /\ row_of 1 [1; 1.5; 2] 1 = t_ynew t
    /\ forall i, (i < 1)%nat ->
         [1; 1.25; 2].[1 * 1 + i]
         = (if [0; 0.25; 1].[1] =? t_xnew t then t_ynew t
            else interpolate x y (t_f t) h [0; 0.25; 1].[1]).[i].
Proof.
  refine (fixed_rows_are_dense_output (pow_special nan) unit_slope 50
            {| config := half_step_config |} [1] 0 [0.25; 1]
            unit_slope_return unit_slope_adaptive_return
            [1; 1.25; 2] [0; 0.5; 1] [1; 1.5; 2] _ _ _ _ _ _ _ 1%nat 1%nat _ _ _ _ _).
  - cbn. lia.
  - reflexivity.
  - vm_compute. reflexivity.
  - reflexivity.
  - vm_compute. reflexivity.
  - reflexivity.
  - reflexivity.
  - cbn. lia.
  - cbn. lia.
  - reflexivity.
  - intros k Hk. lia.
  - intros j Hj. lia.
Defined.
